(** * bilirecorder-player: the danmaku playback engine

    A shallow embedding of the parts of the player that ingest chat logs,
    stitch recording segments into one global timeline, smooth the playback
    clock and compute the visible danmaku window, with the properties the
    specification states about them.

    Conventions of the embedding.

    - A JavaScript [number] that holds a time, a duration, a rate or a speed is
      a rational [Q]: arithmetic is exact and the number is finite.
      JavaScript's numeric [==]/[===] is [Qeq]; where the code copies a
      value unchanged the theorems state Leibniz equality.
    - Where [NaN] can come in with the data it is modelled: the time of an
      event as the decoder builds it is a [number], an [option Q] with
      [None] for [NaN], and so are the lanes' free times; an event whose
      time is a number is a [DanmakuItem], and [numeric] takes it among
      the decoder's events.  The infinities, which [parseFloat] gives
      only for a field spelled [Infinity] or beyond the range of doubles,
      are left out.
    - The timeline, the seek handlers, the chat list and the density scan
      are written once over the interface [JsNumber] (with [JsMath] for
      the scan) and read at its instances: [rationals], where the
      arithmetic laws hold and the general theorems are proved; [withNaN],
      the rationals and [NaN]; and [binary64], the IEEE 754 doubles the
      code runs on, where the code can be evaluated bit for bit.
    - Integers (epoch timestamps in milliseconds, medal levels, lane numbers)
      are [Z]; array indices and lengths are [nat].
    - [x || y] on a number is [orElse] ([orNumber] over the interface);
      [a[i]] on an array is [nth_error]; [findIndex] returns an
      [option nat], [None] standing for [-1].
    - Division on [Q] is [Qdiv], which gives 0 for a zero divisor where
      JavaScript gives an infinity; the statements about the window assume
      a positive speed (the settings offer 0.5 to 2).
    - A React ref or state cell is a field of an explicit state record that
      the functions take and return.
    - A text is a [string] of 8-bit code units.  [parseFloat] on what the
      scanning pattern captured is an [option Q], [None] standing for
      [NaN]; so is the argument of [formatTime].
    - The history object kept in [localStorage] is an association list in
      insertion order, the order in which [Object.keys] lists its keys. *)

From Stdlib Require Import String Ascii.
From Stdlib Require Import QArith Qminmax Lqa ZArith Lia.
From Stdlib Require Import List Bool.
From Stdlib Require Import Sorting.Sorted Sorting.Permutation.
From Stdlib Require Import Qround.
From Stdlib Require Floats Uint63 DecimalString.
Import ListNotations.

Open Scope Q_scope.

(** ** JavaScript helpers *)

(** [x || y] for an optional number: [undefined] and zero are falsy. *)
Definition orElse (x : option Q) (y : Q) : Q :=
  match x with
  | Some v => if Qeq_bool v 0 then y else v
  | None => y
  end.

(** [a < b], [a <= b], [a > b], [a >= b] on numbers. *)
Definition ltb (a b : Q) : bool := negb (Qle_bool b a).
Definition leb (a b : Q) : bool := Qle_bool a b.
Definition gtb (a b : Q) : bool := ltb b a.
Definition geb (a b : Q) : bool := leb b a.

(** A number that may be [NaN], as [parseFloat] returns it: [None] is
    [NaN].  Arithmetic on [NaN] gives [NaN], and every comparison with
    [NaN] is false. *)
Abbreviation number := (option Q) (only parsing).

Definition addN (a b : number) : number :=
  match a, b with
  | Some x, Some y => Some (x + y)
  | _, _ => None
  end.

Definition subN (a b : number) : number :=
  match a, b with
  | Some x, Some y => Some (x - y)
  | _, _ => None
  end.

Definition ltN (a b : number) : bool :=
  match a, b with
  | Some x, Some y => ltb x y
  | _, _ => false
  end.

Definition leN (a b : number) : bool :=
  match a, b with
  | Some x, Some y => leb x y
  | _, _ => false
  end.

Definition gtN (a b : number) : bool := ltN b a.
Definition geN (a b : number) : bool := leN b a.

(** The operations the timeline needs of a number type. *)
Class JsNumber (T : Type) := {
  num_zero : T;
  num_add : T -> T -> T;
  num_sub : T -> T -> T;
  num_seconds : Z -> T;         (* [ms / 1000] for a whole number of milliseconds *)
  num_falsy : T -> bool;        (* the operand of [||] counts as false *)
  num_eqb : T -> T -> bool;     (* [===] *)
  num_ltb : T -> T -> bool;     (* [<] *)
  num_geb : T -> T -> bool      (* [>=] *)
}.

(** [x || y] for an optional number of any instance. *)
Definition orNumber {T : Type} {N : JsNumber T} (x : option T) (y : T) : T :=
  match x with
  | Some v => if num_falsy v then y else v
  | None => y
  end.

(** Exact arithmetic. *)
#[export] Instance rationals : JsNumber Q := {|
  num_zero := 0;
  num_add := Qplus;
  num_sub := Qminus;
  num_seconds := fun ms => inject_Z ms / 1000;
  num_falsy := fun x => Qeq_bool x 0;
  num_eqb := Qeq_bool;
  num_ltb := ltb;
  num_geb := geb
|}.

(** Exact arithmetic with [NaN]. *)
#[export] Instance withNaN : JsNumber number := {|
  num_zero := Some 0;
  num_add := addN;
  num_sub := subN;
  num_seconds := fun ms => Some (inject_Z ms / 1000);
  num_falsy := fun x => match x with Some v => Qeq_bool v 0 | None => true end;
  num_eqb := fun a b =>
    match a, b with
    | Some x, Some y => Qeq_bool x y
    | _, _ => false
    end;
  num_ltb := ltN;
  num_geb := geN
|}.

(** The double nearest to an integer (exact below 2^53). *)
Definition floatOfZ (z : Z) : PrimFloat.float :=
  match z with
  | Z0 => PrimFloat.zero
  | Zpos _ => PrimFloat.of_uint63 (Uint63.of_Z z)
  | Zneg p => PrimFloat.opp (PrimFloat.of_uint63 (Uint63.of_Z (Zpos p)))
  end.

(** The double a decimal literal [n / scale] denotes: numerator and scale
    are exact, and the one division rounds to nearest, as parsing does. *)
Definition decimal (n scale : Z) : PrimFloat.float :=
  PrimFloat.div (floatOfZ n) (floatOfZ scale).

(** The code's own arithmetic: IEEE 754 binary64, where zero and [NaN]
    are falsy. *)
#[export] Instance binary64 : JsNumber PrimFloat.float := {|
  num_zero := PrimFloat.zero;
  num_add := PrimFloat.add;
  num_sub := PrimFloat.sub;
  num_seconds := fun ms => PrimFloat.div (floatOfZ ms) (floatOfZ 1000);
  num_falsy := fun x => PrimFloat.eqb x PrimFloat.zero || PrimFloat.is_nan x;
  num_eqb := PrimFloat.eqb;
  num_ltb := PrimFloat.ltb;
  num_geb := fun a b => PrimFloat.leb b a
|}.

(** What the density scan needs besides: [*], [/], [Math.floor] (with
    [None] where it gives [NaN] or an infinity), the number of a count,
    and the number [parseFloat] returns for a decimal. *)
Class JsMath (T : Type) := {
  num_mul : T -> T -> T;
  num_div : T -> T -> T;
  num_floor : T -> option Z;
  num_of_nat : nat -> T;
  num_decimal : Q -> T
}.

#[export] Instance exactMath : JsMath Q := {|
  num_mul := Qmult;
  num_div := Qdiv;
  num_floor := fun x => Some (Qfloor x);
  num_of_nat := fun n => inject_Z (Z.of_nat n);
  num_decimal := fun q => q
|}.

(** [Math.floor] of a double: a finite double is [m * 2^e] with its
    sign, and shifting to the right rounds down. *)
Definition floor64 (x : PrimFloat.float) : option Z :=
  match FloatOps.Prim2SF x with
  | SpecFloat.S754_zero _ => Some 0%Z
  | SpecFloat.S754_finite s m e => Some (Z.shiftl (if s then Zneg m else Zpos m) e)
  | _ => None
  end.

(** In doubles a decimal is read as the double nearest to it: numerator
    and denominator are exact (below 2^53) and the division rounds once. *)
#[export] Instance binary64Math : JsMath PrimFloat.float := {|
  num_mul := PrimFloat.mul;
  num_div := PrimFloat.div;
  num_floor := floor64;
  num_of_nat := fun n => floatOfZ (Z.of_nat n);
  num_decimal := fun q => PrimFloat.div (floatOfZ (Qnum q)) (floatOfZ (Zpos (Qden q)))
|}.

(** [Array.prototype.findIndex]: the first index whose element satisfies
    the predicate, [None] for -1. *)
Fixpoint findIndex {A : Type} (p : A -> bool) (l : list A) : option nat :=
  match l with
  | [] => None
  | x :: rest =>
      if p x then Some O
      else match findIndex p rest with
           | Some i => Some (S i)
           | None => None
           end
  end.

(** The last element of an array, [a[a.length - 1]]. *)
Definition lastElem {A : Type} (l : list A) : option A :=
  nth_error l (length l - 1).

(** The sum a left-to-right accumulation computes. *)
Definition sumOf {T : Type} {N : JsNumber T} (l : list T) : T :=
  fold_left num_add l num_zero.

(** [Array.prototype.sort] with a comparator [(a, b) => key a - key b]
    on keys that are numbers: a stable sort, here by insertion (for keys
    with a [NaN] among them see [LogDecoder.byTimeN]).  [le a b] says that
    the comparator's result on [(a, b)] is not positive. *)
Fixpoint insertBy {A : Type} (le : A -> A -> bool) (x : A) (l : list A) : list A :=
  match l with
  | [] => [x]
  | y :: rest => if le x y then x :: y :: rest else y :: insertBy le x rest
  end.

Definition sortBy {A : Type} (le : A -> A -> bool) (l : list A) : list A :=
  fold_right (insertBy le) [] l.

(** [a[i] = v] on an array: in range it overwrites, and [i = a.length]
    appends; the model never writes further out. *)
Fixpoint setAt {A : Type} (l : list A) (i : nat) (v : A) : list A :=
  match l, i with
  | [], _ => [v]
  | _ :: rest, O => v :: rest
  | x :: rest, S j => x :: setAt rest j v
  end.

(** [s.startsWith(k)] and [s.includes(k)] on strings of code units. *)
Fixpoint startsWith (s k : string) : bool :=
  match k, s with
  | EmptyString, _ => true
  | String _ _, EmptyString => false
  | String b k', String a s' => Ascii.eqb a b && startsWith s' k'
  end.

Fixpoint includes (s k : string) : bool :=
  startsWith s k ||
  match s with
  | EmptyString => false
  | String _ s' => includes s' k
  end.

(** [s.split(',')] *)
Fixpoint splitComma (s : string) : list string :=
  match s with
  | EmptyString => [EmptyString]
  | String c rest =>
      if Ascii.eqb c ","%char then EmptyString :: splitComma rest
      else match splitComma rest with
           | [] => [String c EmptyString]
           | p :: ps => String c p :: ps
           end
  end.

(** A lower-casing of the ASCII letters; the components below take
    [toLowerCase] as a parameter, and this is the instance the worked
    examples run with. *)
Fixpoint asciiLower (s : string) : string :=
  match s with
  | EmptyString => EmptyString
  | String c rest =>
      let n := nat_of_ascii c in
      String (if (65 <=? n)%nat && (n <=? 90)%nat then ascii_of_nat (n + 32) else c)
             (asciiLower rest)
  end.

(** ** Data model (the application's [types] module, as the code uses it) *)

(** A recording file named by the recorder's convention. *)
Record StreamFile := mkStreamFile {
  name : string;
  roomId : string;
  streamerName : string;
  timestamp : Z;          (* [Date.getTime()], milliseconds *)
  title : string;
  ext : string
}.

(** One media file with its sidecar metadata; [T] is the number type. *)
Record StreamSegment (T : Type) := mkStreamSegment {
  file : StreamFile;
  duration : T;           (* largest danmaku time of the XML, 0 when absent *)
  coverFile : option string;
  danmakuFile : option string;
  danmakuCount : Z
}.

Arguments mkStreamSegment {T}.
Arguments file {T}.
Arguments duration {T}.
Arguments coverFile {T}.
Arguments danmakuFile {T}.
Arguments danmakuCount {T}.

(** One continuous broadcast: the segments grouped by room, title and gap. *)
Record StreamSession := mkStreamSession {
  id : string * Z;        (* the pair the template [`${roomId}-${timestamp}`] prints *)
  s_roomId : string;
  s_streamerName : string;
  s_title : string;
  startTime : Z;
  endTime : Z;
  segments : list (StreamSegment Q);
  s_totalDuration : Q;
  totalDanmakuCount : Z
}.

(** A decoded chat event.  [T] is the type of its time: [number] for an
    event as the decoder builds it, whose time is whatever [parseFloat]
    returned, and [Q] for an event whose time is a number. *)
Record DanmakuItemOf (T : Type) := mkDanmakuItem {
  time : T;               (* seconds from the start of the segment *)
  type : Z;
  size : Z;
  color : Z;
  d_timestamp : Z;        (* [timestamp], the server's clock *)
  pool : Z;
  uid : string;
  rowId : string;
  content : string;
  senderName : string;
  medalName : option string;
  medalLevel : option Z;
  medalColorBorder : option string;
  trackIndex : Z;
  emots : option (list (string * string));
  stickerUrl : option string
}.

Arguments mkDanmakuItem {T}.
Arguments time {T}.
Arguments type {T}.
Arguments size {T}.
Arguments color {T}.
Arguments d_timestamp {T}.
Arguments pool {T}.
Arguments uid {T}.
Arguments rowId {T}.
Arguments content {T}.
Arguments senderName {T}.
Arguments medalName {T}.
Arguments medalLevel {T}.
Arguments medalColorBorder {T}.
Arguments trackIndex {T}.
Arguments emots {T}.
Arguments stickerUrl {T}.

(** An event whose time is a number. *)
Abbreviation DanmakuItem := (DanmakuItemOf Q).

(** [item.trackIndex = t] *)
Definition setTrackIndex {T : Type} (d : DanmakuItemOf T) (t : Z) : DanmakuItemOf T :=
  mkDanmakuItem (time d) (type d) (size d) (color d) (d_timestamp d) (pool d)
    (uid d) (rowId d) (content d) (senderName d) (medalName d) (medalLevel d)
    (medalColorBorder d) t (emots d) (stickerUrl d).

(** The event with another time. *)
Definition withTime {T U : Type} (d : DanmakuItemOf T) (t : U) : DanmakuItemOf U :=
  mkDanmakuItem t (type d) (size d) (color d) (d_timestamp d) (pool d)
    (uid d) (rowId d) (content d) (senderName d) (medalName d) (medalLevel d)
    (medalColorBorder d) (trackIndex d) (emots d) (stickerUrl d).

(** An event whose time is a number, among the events the decoder builds;
    and back, for an event whose time is not [NaN]. *)
Definition numeric (d : DanmakuItem) : DanmakuItemOf number :=
  withTime d (Some (time d)).

Definition finite (d : DanmakuItemOf number) : DanmakuItem :=
  withTime d (match time d with Some t => t | None => 0 end).

Record FilterSettings := mkFilterSettings {
  medalFilterEnabled : bool;
  minMedalLevel : Z;
  blockedKeywords : list string
}.

(** ** TimelineReconciler: the [timeline] memo of the player *)

Module Timeline.

Record TimelineEntry (T : Type) := mkEntry {
  tl_start : T;
  tl_end : T;
  tl_duration : T
}.

Arguments mkEntry {T}.
Arguments tl_start {T}.
Arguments tl_end {T}.
Arguments tl_duration {T}.

(** The player's position state the seek handlers read and write. *)
Record PlayerState (T : Type) := mkPlayerState {
  currentSegmentIndex : nat;
  currentTime : T;
  dragGlobalTime : option T
}.

Arguments mkPlayerState {T}.
Arguments currentSegmentIndex {T}.
Arguments currentTime {T}.
Arguments dragGlobalTime {T}.

Section Arithmetic.

Context {T : Type} {N : JsNumber T}.

(** The duration the map callback settles on for the segment at [idx];
    [next] is [session.segments[idx + 1]]. *)
Definition entryDuration (realDurations : nat -> option T)
    (seg : StreamSegment T) (next : option (StreamSegment T)) (idx : nat) : T :=
  let dur := orNumber (Some (duration seg)) num_zero in
  let dur :=
    if num_eqb dur num_zero then
      match next with
      | Some n => num_seconds (timestamp (file n) - timestamp (file seg))
      | None => orNumber (realDurations idx) num_zero
      end
    else dur in
  if num_ltb dur num_zero then num_zero else dur.

(** [session.segments.map((seg, idx) => ...)] with the accumulator [acc]
    the callback closes over. *)
Fixpoint timelineFrom (realDurations : nat -> option T) (acc : T) (idx : nat)
    (segments : list (StreamSegment T)) : list (TimelineEntry T) :=
  match segments with
  | [] => []
  | seg :: rest =>
      let dur := entryDuration realDurations seg (hd_error rest) idx in
      let start := acc in
      let acc := num_add acc dur in
      mkEntry start acc dur :: timelineFrom realDurations acc (S idx) rest
  end.

Definition timeline (segments : list (StreamSegment T))
    (realDurations : nat -> option T) : list (TimelineEntry T) :=
  timelineFrom realDurations num_zero O segments.

(** [timeline[timeline.length - 1]?.end || 0] *)
Definition totalDuration (tl : list (TimelineEntry T)) : T :=
  orNumber (option_map tl_end (lastElem tl)) num_zero.

(** [(timeline[currentSegmentIndex]?.start || 0) + currentTime] *)
Definition globalCurrentTime (tl : list (TimelineEntry T))
    (currentSegmentIndex : nat) (currentTime : T) : T :=
  num_add (orNumber (option_map tl_start (nth_error tl currentSegmentIndex)) num_zero)
          currentTime.

(** The seek handlers' lookup: the entry whose half-open span holds [t]. *)
Definition containsTime (t : T) (e : TimelineEntry T) : bool :=
  num_geb t (tl_start e) && num_ltb t (tl_end e).

Definition findEntry (tl : list (TimelineEntry T)) (t : T) : option nat :=
  findIndex (containsTime t) tl.

(** [handleGlobalSeekChange]: remember the dragged global time, and when
    it falls in the segment being played move the local time with it. *)
Definition handleGlobalSeekChange (tl : list (TimelineEntry T))
    (st : PlayerState T) (val : T) : PlayerState T :=
  let st := mkPlayerState (currentSegmentIndex st) (currentTime st) (Some val) in
  match findEntry tl val with
  | Some targetSegIdx =>
      if Nat.eqb targetSegIdx (currentSegmentIndex st) then
        let segStart := orNumber (option_map tl_start (nth_error tl targetSegIdx)) num_zero in
        mkPlayerState (currentSegmentIndex st) (num_sub val segStart) (dragGlobalTime st)
      else st
  | None => st
  end.

End Arithmetic.

End Timeline.

(** ** PlaybackClock: the animation loop of the danmaku layer *)

Module PlaybackClock.

(** What the layer reads from the video element. *)
Record Video := mkVideo {
  paused : bool;
  readyState : Z;
  v_currentTime : Q;
  playbackRate : Q
}.

(** The layer's [smoothTime] state and its refs.  Times of
    [performance.now()] are milliseconds.  [frameRequested] says that a
    callback requested with [requestAnimationFrame] is pending. *)
Record ClockState := mkClock {
  smoothTime : Q;
  lastUpdateRef : Q;
  lastVideoTimeRef : Q;
  frameRequested : bool
}.

(** First render: [useState(currentTime)], [useRef(performance.now())],
    [useRef(currentTime)]. *)
Definition mount (currentTime now : Q) : ClockState :=
  mkClock currentTime now currentTime false.

(** The frame callback [update]; [now] is [performance.now()] when it runs. *)
Definition update (video : option Video) (now : Q) (st : ClockState) : ClockState :=
  match video with
  | Some v =>
      if negb (paused v) && (3 <=? readyState v)%Z then
        let vTime := v_currentTime v in
        if negb (Qeq_bool vTime (lastVideoTimeRef st)) then
          mkClock vTime now vTime true
        else
          let elapsed := (now - lastUpdateRef st) / 1000 in
          let playbackRate := orElse (Some (playbackRate v)) 1 in
          mkClock (vTime + elapsed * playbackRate)
                  (lastUpdateRef st) (lastVideoTimeRef st) true
      else mkClock (smoothTime st) (lastUpdateRef st) (lastVideoTimeRef st) false
  | None => mkClock (smoothTime st) (lastUpdateRef st) (lastVideoTimeRef st) false
  end.

(** The body of the effect, run when [isPlaying], [currentTime] or the
    video ref change (after the previous run's cleanup cancelled its frame). *)
Definition effect (isPlaying : bool) (currentTime : Q) (video : option Video)
    (now : Q) (st : ClockState) : ClockState :=
  if isPlaying then
    mkClock (smoothTime st) now
            (orElse (option_map v_currentTime video) currentTime) true
  else
    mkClock currentTime (lastUpdateRef st) currentTime false.

(** What happens to the layer: the effect runs, or the browser delivers an
    animation frame (which calls [update] only when one was requested). *)
Inductive Event :=
| RunEffect (isPlaying : bool) (currentTime : Q) (video : option Video) (now : Q)
| Frame (video : option Video) (now : Q).

Definition step (st : ClockState) (ev : Event) : ClockState :=
  match ev with
  | RunEffect isPlaying currentTime video now => effect isPlaying currentTime video now st
  | Frame video now => if frameRequested st then update video now st else st
  end.

(** The smoothed time rendered after each event of a run. *)
Fixpoint outputs (st : ClockState) (evs : list Event) : list Q :=
  match evs with
  | [] => []
  | ev :: rest => let st' := step st ev in smoothTime st' :: outputs st' rest
  end.

End PlaybackClock.

(** ** Content filters shared by the overlay and the chat list *)

Section Filters.

Variable toLowerCase : string -> string.
Context {T : Type}.

(** [blockedKeywords.some(k => content.includes(k.toLowerCase()))] with
    [content = d.content.toLowerCase()] *)
Definition matchesBlockedKeyword (fs : FilterSettings) (d : DanmakuItemOf T) : bool :=
  let content := toLowerCase (content d) in
  existsb (fun k => includes content (toLowerCase k)) (blockedKeywords fs).

(** [(d.medalLevel || 0) < minMedalLevel] under [medalFilterEnabled] *)
Definition belowMedalLevel (fs : FilterSettings) (d : DanmakuItemOf T) : bool :=
  medalFilterEnabled fs &&
  (match medalLevel d with Some l => l | None => 0%Z end <? minMedalLevel fs)%Z.

(** The two [continue] tests of the overlay scan, which are the two
    [return false] tests of the chat list: an event passes when neither
    filter drops it. *)
Definition passesFilters (fs : FilterSettings) (d : DanmakuItemOf T) : bool :=
  if belowMedalLevel fs d then false
  else if (0 <? length (blockedKeywords fs))%nat then
         negb (matchesBlockedKeyword fs d)
       else true.

End Filters.

(** ** VisibilityWindow: the [activeOverlayDanmaku] memo of the layer *)

Module VisibilityWindow.

Section Overlay.

Variable toLowerCase : string -> string.

Definition BASE_DURATION : Q := 16.

(** [d.content.length || 1], clamped to 1..10. *)
Definition clampedLen (d : DanmakuItem) : Z :=
  let len :=
    let n := Z.of_nat (String.length (content d)) in
    if (n =? 0)%Z then 1%Z else n in
  if (len >? 10)%Z then 10%Z else if (len <? 1)%Z then 1%Z else len.

Definition intrinsicFactor (d : DanmakuItem) : Q :=
  let ratio := (inject_Z (clampedLen d) - 1) * 0.1111 in
  1 - ratio * 0.25.

Definition actualDuration (speed : Q) (d : DanmakuItem) : Q :=
  BASE_DURATION / (speed * intrinsicFactor d).

(** The [while] loop that moves [startIndex] forward.  [suffix] is the
    array from [startIndex] on: the loop runs while a later element
    exists ([startIndex < length - 1]) and the element at [startIndex] is
    older than the window. *)
Fixpoint advance (startTimeWindow : Q) (suffix : list DanmakuItem)
    (startIndex : nat) : nat :=
  match suffix with
  | [] => startIndex
  | d :: rest =>
      match rest with
      | [] => startIndex
      | _ :: _ =>
          if ltb (time d) startTimeWindow
          then advance startTimeWindow rest (S startIndex)
          else startIndex
      end
  end.

(** The [for] loop from [startIndex], with its [break] and [continue]s;
    a result element is [{ ...d, actualDuration }]. *)
Fixpoint scan (speed : Q) (fs : FilterSettings) (smoothTime endTimeWindow : Q)
    (suffix : list DanmakuItem) : list (DanmakuItem * Q) :=
  match suffix with
  | [] => []
  | d :: rest =>
      if gtb (time d) endTimeWindow then []
      else
        let actualDuration := actualDuration speed d in
        if geb (time d) (smoothTime - actualDuration) then
          if passesFilters toLowerCase fs d
          then (d, actualDuration) :: scan speed fs smoothTime endTimeWindow rest
          else scan speed fs smoothTime endTimeWindow rest
        else scan speed fs smoothTime endTimeWindow rest
  end.

(** The index the scan starts from, given the cursor kept from the
    previous frame: back to 0 when the cursor's event is more than 10
    seconds past the window start, then forward over the events that are
    older than the window. *)
Definition startIndexFor (danmakuData : list DanmakuItem) (speed smoothTime : Q)
    (searchStartIndexRef : nat) : nat :=
  let maxDuration := BASE_DURATION / (speed * 0.75) in
  let startTimeWindow := smoothTime - maxDuration in
  let startIndex := searchStartIndexRef in
  let startIndex :=
    match nth_error danmakuData startIndex with
    | Some d => if gtb (time d) (startTimeWindow + 10) then O else startIndex
    | None => startIndex
    end in
  advance startTimeWindow (skipn startIndex danmakuData) startIndex.

(** One evaluation of the memo: the rendered events and the value left in
    [searchStartIndexRef]. *)
Definition activeOverlayDanmaku (show : bool) (danmakuData : list DanmakuItem)
    (speed : Q) (fs : FilterSettings) (smoothTime : Q)
    (searchStartIndexRef : nat) : list (DanmakuItem * Q) * nat :=
  if negb show || (length danmakuData =? 0)%nat then ([], searchStartIndexRef)
  else
    let endTimeWindow := smoothTime + 0.5 in
    let startIndex := startIndexFor danmakuData speed smoothTime searchStartIndexRef in
    (scan speed fs smoothTime endTimeWindow (skipn startIndex danmakuData),
     startIndex).

(** The cursor left behind by a run of frames at the given smoothed times,
    starting from [searchStartIndexRef]. *)
Definition cursorAfter (show : bool) (danmakuData : list DanmakuItem)
    (speed : Q) (fs : FilterSettings) (searchStartIndexRef : nat)
    (frames : list Q) : nat :=
  fold_left (fun cursor smoothTime =>
               snd (activeOverlayDanmaku show danmakuData speed fs smoothTime cursor))
            frames searchStartIndexRef.

(** What a run of frames renders, frame by frame, the cursor going from
    each frame to the next. *)
Fixpoint renderFrames (show : bool) (danmakuData : list DanmakuItem)
    (speed : Q) (fs : FilterSettings) (searchStartIndexRef : nat)
    (frames : list Q) : list (list (DanmakuItem * Q)) :=
  match frames with
  | [] => []
  | smoothTime :: rest =>
      let '(rendered, cursor) :=
        activeOverlayDanmaku show danmakuData speed fs smoothTime searchStartIndexRef in
      rendered :: renderFrames show danmakuData speed fs cursor rest
  end.

(** *** Vocabulary of the statements *)

(** The tests the scan applies to one event at smoothed time [now]. *)
Definition visibleAt (speed : Q) (fs : FilterSettings) (now : Q)
    (d : DanmakuItem) : bool :=
  leb (time d) (now + 0.5) &&
  geb (time d) (now - actualDuration speed d) &&
  passesFilters toLowerCase fs d.

(** The events of the whole sequence that pass these tests, in order. *)
Definition visibleSet (speed : Q) (fs : FilterSettings) (now : Q)
    (danmakuData : list DanmakuItem) : list (DanmakuItem * Q) :=
  map (fun d => (d, actualDuration speed d))
      (filter (visibleAt speed fs now) danmakuData).

(** The window without lookahead: arrived, and not yet past its duration. *)
Definition arrivedNotExited (now : Q) (d : DanmakuItem) (duration : Q) : bool :=
  leb (time d) now && geb (time d) (now - duration).

(** The duration with the factor falling by exactly a ninth of 0.25 per
    character past the first. *)
Definition ninthFactor (d : DanmakuItem) : Q :=
  let clampedLen := Z.max 1 (Z.min 10 (Z.of_nat (String.length (content d)))) in
  1 - 0.25 * (inject_Z clampedLen - 1) / 9.

Definition ninthDuration (speed : Q) (d : DanmakuItem) : Q :=
  BASE_DURATION / (speed * ninthFactor d).

(** A cursor is behind the window at [now] when every event before it is
    older than the window start. *)
Definition cursorBehindWindow (danmakuData : list DanmakuItem) (speed now : Q)
    (cursor : nat) : Prop :=
  Forall (fun d => time d < now - BASE_DURATION / (speed * 0.75))
         (firstn cursor danmakuData).

End Overlay.

(** Events in the order the decoder leaves them. *)
Definition sortedByTime (l : list DanmakuItem) : Prop :=
  StronglySorted (fun a b => time a <= time b) l.

End VisibilityWindow.

(** ** The sidebar chat list: [visibleChatList] *)

Module ChatList.

Section Chat.

Variable toLowerCase : string -> string.
Context {T : Type} {N : JsNumber T}.

(** The callback of [danmakuData.filter]; [d.time > currentTime] is
    [currentTime < d.time], false when either is [NaN]. *)
Definition keep (currentTime : T) (fs : FilterSettings) (d : DanmakuItemOf T) : bool :=
  if num_ltb currentTime (time d) then false
  else passesFilters toLowerCase fs d.

Definition visibleChatList (danmakuData : list (DanmakuItemOf T)) (currentTime : T)
    (fs : FilterSettings) : list (DanmakuItemOf T) :=
  let filtered := filter (keep currentTime fs) danmakuData in
  if (200 <? length filtered)%nat
  then skipn (length filtered - 200) filtered
  else filtered.

(** *** Vocabulary of the statements *)

(** The events the list is to show, test by test: the time is not after
    [currentTime]; with the medal filter on, the medal level (0 without a
    medal) reaches the minimum; and no blocked keyword occurs in the
    text, both in lower case. *)
Definition notAfter (currentTime : T) (d : DanmakuItemOf T) : bool :=
  negb (num_ltb currentTime (time d)).

Definition medalHighEnough (fs : FilterSettings) (d : DanmakuItemOf T) : bool :=
  if medalFilterEnabled fs
  then (minMedalLevel fs <=? match medalLevel d with Some l => l | None => 0 end)%Z
  else true.

Definition freeOfKeywords (fs : FilterSettings) (d : DanmakuItemOf T) : bool :=
  forallb (fun k => negb (includes (toLowerCase (content d)) (toLowerCase k)))
          (blockedKeywords fs).

Definition eligible (currentTime : T) (fs : FilterSettings) (d : DanmakuItemOf T) : bool :=
  notAfter currentTime d && medalHighEnough fs d && freeOfKeywords fs d.

End Chat.

End ChatList.

(** ** LogDecoder and LaneAssigner: [parseDanmakuXml] *)

Module LogDecoder.

Definition TOTAL_TRACKS : nat := 16.

(** The first loop over the lanes, from lane [t] with [n] lanes to go:
    the first lane that is free at [time], [-1] when none is. *)
Fixpoint firstFit (tracksFreeTime : list Q) (time : Q) (t n : nat) : Z :=
  match n with
  | O => (-1)%Z
  | S n' =>
      match nth_error tracksFreeTime t with
      | Some free =>
          if leb free time then Z.of_nat t
          else firstFit tracksFreeTime time (S t) n'
      | None => firstFit tracksFreeTime time (S t) n'
      end
  end.

(** The second loop: the lane that frees first.  [minTime] starts at
    [Infinity], which is [None]. *)
Fixpoint leastBusy (tracksFreeTime : list Q) (t n : nat)
    (minTime : option Q) (bestTrack : Z) : Z :=
  match n with
  | O => bestTrack
  | S n' =>
      match nth_error tracksFreeTime t with
      | Some free =>
          if match minTime with
             | None => true
             | Some m => ltb free m
             end
          then leastBusy tracksFreeTime (S t) n' (Some free) (Z.of_nat t)
          else leastBusy tracksFreeTime (S t) n' minTime bestTrack
      | None => leastBusy tracksFreeTime (S t) n' minTime bestTrack
      end
  end.

(** The lane chosen for [item]. *)
Definition chooseTrack (tracksFreeTime : list Q) (item : DanmakuItem) : Z :=
  let bestTrack := firstFit tracksFreeTime (time item) 0 TOTAL_TRACKS in
  let bestTrack :=
    if (bestTrack =? -1)%Z
    then leastBusy tracksFreeTime 0 TOTAL_TRACKS None (-1)%Z
    else bestTrack in
  if (bestTrack =? -1)%Z
  then Z.rem (d_timestamp item) (Z.of_nat TOTAL_TRACKS)
  else bestTrack.

(** The body of [rawItems.forEach]: the item with its lane, and the lanes
    with the chosen one held until [item.time + 3.0].  (A negative index
    would add a property to the array and leave its elements alone.) *)
Definition assignTrack (tracksFreeTime : list Q) (item : DanmakuItem)
    : DanmakuItem * list Q :=
  let bestTrack := chooseTrack tracksFreeTime item in
  (setTrackIndex item bestTrack,
   if (0 <=? bestTrack)%Z
   then setAt tracksFreeTime (Z.to_nat bestTrack) (time item + 3.0)
   else tracksFreeTime).

Fixpoint assignTracksFrom (tracksFreeTime : list Q) (items : list DanmakuItem)
    : list DanmakuItem :=
  match items with
  | [] => []
  | item :: rest =>
      let '(item', tracksFreeTime') := assignTrack tracksFreeTime item in
      item' :: assignTracksFrom tracksFreeTime' rest
  end.

(** [new Array(TOTAL_TRACKS).fill(0)], then the [forEach]. *)
Definition assignTracks (items : list DanmakuItem) : list DanmakuItem :=
  assignTracksFrom (repeat 0 TOTAL_TRACKS) items.

(** The same loops on the events as the decoder builds them, whose
    times, and with them the lanes' free times, may be [NaN].  A lane whose
    free time is [NaN] is never free ([NaN <= time] is false) and never
    the least busy ([NaN < minTime] is false, also for the [Infinity]
    that [minTime] starts with); an event whose time is [NaN] finds no
    lane free and leaves [NaN] in the lane it is given. *)
Fixpoint firstFitN (tracksFreeTime : list number) (time : number) (t n : nat) : Z :=
  match n with
  | O => (-1)%Z
  | S n' =>
      match nth_error tracksFreeTime t with
      | Some free =>
          if leN free time then Z.of_nat t
          else firstFitN tracksFreeTime time (S t) n'
      | None => firstFitN tracksFreeTime time (S t) n'
      end
  end.

Fixpoint leastBusyN (tracksFreeTime : list number) (t n : nat)
    (minTime : option number) (bestTrack : Z) : Z :=
  match n with
  | O => bestTrack
  | S n' =>
      match nth_error tracksFreeTime t with
      | Some free =>
          if match minTime with
             | None => match free with Some _ => true | None => false end
             | Some m => ltN free m
             end
          then leastBusyN tracksFreeTime (S t) n' (Some free) (Z.of_nat t)
          else leastBusyN tracksFreeTime (S t) n' minTime bestTrack
      | None => leastBusyN tracksFreeTime (S t) n' minTime bestTrack
      end
  end.

Definition chooseTrackN (tracksFreeTime : list number) (item : DanmakuItemOf number) : Z :=
  let bestTrack := firstFitN tracksFreeTime (time item) 0 TOTAL_TRACKS in
  let bestTrack :=
    if (bestTrack =? -1)%Z
    then leastBusyN tracksFreeTime 0 TOTAL_TRACKS None (-1)%Z
    else bestTrack in
  if (bestTrack =? -1)%Z
  then Z.rem (d_timestamp item) (Z.of_nat TOTAL_TRACKS)
  else bestTrack.

Definition assignTrackN (tracksFreeTime : list number) (item : DanmakuItemOf number)
    : DanmakuItemOf number * list number :=
  let bestTrack := chooseTrackN tracksFreeTime item in
  (setTrackIndex item bestTrack,
   if (0 <=? bestTrack)%Z
   then setAt tracksFreeTime (Z.to_nat bestTrack) (addN (time item) (Some 3.0))
   else tracksFreeTime).

Fixpoint assignTracksFromN (tracksFreeTime : list number)
    (items : list (DanmakuItemOf number)) : list (DanmakuItemOf number) :=
  match items with
  | [] => []
  | item :: rest =>
      let '(item', tracksFreeTime') := assignTrackN tracksFreeTime item in
      item' :: assignTracksFromN tracksFreeTime' rest
  end.

Definition assignTracksN (items : list (DanmakuItemOf number))
    : list (DanmakuItemOf number) :=
  assignTracksFromN (repeat (Some 0) TOTAL_TRACKS) items.

(** A [<d>] element of the chat log. *)
Record DElement := mkDElement {
  pAttr : option string;
  rawAttr : option string;
  userAttr : option string;
  textContent : string
}.

(** What the cascade over the [raw] JSON settles for one element. *)
Record RawMeta := mkRawMeta {
  m_senderName : string;
  m_medalName : option string;
  m_medalLevel : option Z;
  m_medalColorBorder : option string;
  m_emots : list (string * string);
  m_stickerUrl : option string
}.

Section Decode.

(** [parseFloat] on the first field of [p], [NaN] when the field does not
    start with a number; [parseInt] on a field that holds an integer; and
    the cascade that reads the [raw] and [user] attributes. *)
Variable parseFloat : string -> number.
Variable parseInt : string -> Z.
Variable decodeRaw : option string -> option string -> RawMeta.

(** The loop body over one element: an item when [p] is present and not
    empty.  Nothing looks at the numbers read: a record whose time is
    [NaN] is pushed like any other. *)
Definition decodeElement (d : DElement) : option (DanmakuItemOf number) :=
  let meta := decodeRaw (rawAttr d) (userAttr d) in
  match pAttr d with
  | None => None
  | Some EmptyString => None
  | Some p =>
      let parts := splitComma p in
      let part i := nth i parts EmptyString in
      Some (mkDanmakuItem
              (parseFloat (part 0%nat)) (parseInt (part 1%nat))
              (parseInt (part 2%nat)) (parseInt (part 3%nat))
              (parseInt (part 4%nat)) (parseInt (part 5%nat))
              (part 6%nat) (part 7%nat) (textContent d)
              (m_senderName meta) (m_medalName meta) (m_medalLevel meta)
              (m_medalColorBorder meta) 0%Z
              (match m_emots meta with [] => None | e => Some e end)
              (m_stickerUrl meta))
  end.

Fixpoint rawItems (dElements : list DElement) : list (DanmakuItemOf number) :=
  match dElements with
  | [] => []
  | d :: rest =>
      match decodeElement d with
      | Some item => item :: rawItems rest
      | None => rawItems rest
      end
  end.

(** The comparator [(a, b) => a.time - b.time], as "not positive"; a
    result that is [NaN] counts as 0.  With a [NaN] among the times the
    comparator is not an order, and the arrangement [sort] leaves is the
    engine's: [sortBy] gives one, and what is stated of such a log is
    stated of every arrangement. *)
Definition byTimeN (a b : DanmakuItemOf number) : bool :=
  negb (gtN (subN (time a) (time b)) (Some 0)).

Definition parseDanmakuXml (dElements : list DElement) : list (DanmakuItemOf number) :=
  assignTracksN (sortBy byTimeN (rawItems dElements)).

(** *** Vocabulary of the statements *)

(** The first field of [p], for an element that gives an item. *)
Definition timeField (d : DElement) : option string :=
  match pAttr d with
  | None => None
  | Some EmptyString => None
  | Some p => Some (nth 0%nat (splitComma p) EmptyString)
  end.

(** Every record of the log has a time that is a number. *)
Definition numericLog (dElements : list DElement) : Prop :=
  Forall (fun d => match timeField d with
                   | Some field => parseFloat field <> None
                   | None => True
                   end) dElements.

End Decode.

(** The comparator on events whose times are numbers. *)
Definition byTime (a b : DanmakuItem) : bool := negb (gtb (time a - time b) 0).

(** Non-decreasing in time, as [<=] compares: an event whose time is
    [NaN] is in order with no other event. *)
Definition nondecreasing (l : list (DanmakuItemOf number)) : Prop :=
  StronglySorted (fun a b => leN (time a) (time b) = true) l.


(** *** Vocabulary of the statements *)

(** An event holds its lane from its time for 3.0 seconds. *)
Definition activeAt (tau : Q) (d : DanmakuItem) : bool :=
  leb (time d) tau && ltb tau (time d + 3.0).

Definition activeCount (tau : Q) (items : list DanmakuItem) : nat :=
  length (filter (activeAt tau) items).

(** Two events whose holds overlap. *)
Definition simultaneouslyActive (a b : DanmakuItem) : Prop :=
  exists tau, activeAt tau a = true /\ activeAt tau b = true.

(** An earlier event [a] and a later event [b] on one lane are held
    apart: [b] comes when [a]'s hold is over. *)
Definition heldApart (a b : DanmakuItem) : Prop :=
  trackIndex a = trackIndex b -> time a + 3.0 <= time b.

(** What the loop keeps true of the events it has given lanes to ([done])
    and of [tracksFreeTime]: there are 16 lanes; an assigned event's lane
    is held at least until its hold ends; and a lane with a positive free
    time is held by an assigned event, to the end of its hold. *)
Definition laneInvariant (done : list DanmakuItem) (tracksFreeTime : list Q) : Prop :=
  length tracksFreeTime = TOTAL_TRACKS /\
  (forall d, In d done ->
     exists k free, trackIndex d = Z.of_nat k /\
                    nth_error tracksFreeTime k = Some free /\ time d + 3.0 <= free) /\
  (forall k free, nth_error tracksFreeTime k = Some free -> 0 < free ->
     exists d, In d done /\ trackIndex d = Z.of_nat k /\ free = time d + 3.0).

End LogDecoder.

(** ** Session grouping: the third pass of [processRecordingFiles] *)

Module SessionGrouping.

Section Scan.

(** The sidecar files found for a recording (the keys of the resource map
    that start with its base name), and what [scanXmlMetadata] reads from a
    chat log: the number of records and the largest time, or [None] when
    the scan throws. *)
Variable coverOf : StreamFile -> option string.
Variable xmlOf : StreamFile -> option string.
Variable scanXmlMetadata : string -> option (Z * Q).

Definition segmentOf (file : StreamFile) : StreamSegment Q :=
  let '(count, duration) :=
    match xmlOf file with
    | Some xmlKey =>
        match scanXmlMetadata xmlKey with
        | Some meta => meta
        | None => (0%Z, 0)
        end
    | None => (0%Z, 0)
    end in
  mkStreamSegment file duration (coverOf file) (xmlOf file) count.

Definition isNewSession (currentSession : option StreamSession)
    (file : StreamFile) : bool :=
  match currentSession with
  | None => true
  | Some s =>
      negb (String.eqb (title file) (s_title s)) ||
      (timestamp file - endTime s >? 60 * 60 * 1000)%Z
  end.

(** [if (currentSession) streamer.sessions.push(currentSession)] *)
Definition pushCurrent (sessions : list StreamSession)
    (currentSession : option StreamSession) : list StreamSession :=
  match currentSession with
  | Some s => sessions ++ [s]
  | None => sessions
  end.

Definition newSession (file : StreamFile) (segment : StreamSegment Q) : StreamSession :=
  mkStreamSession (roomId file, timestamp file) (roomId file) (streamerName file)
    (title file) (timestamp file) (timestamp file) [segment]
    (duration segment) (danmakuCount segment).

Definition extendSession (s : StreamSession) (file : StreamFile)
    (segment : StreamSegment Q) : StreamSession :=
  mkStreamSession (id s) (s_roomId s) (s_streamerName s) (s_title s)
    (startTime s) (timestamp file) (segments s ++ [segment])
    (s_totalDuration s + duration segment)
    (totalDanmakuCount s + danmakuCount segment).

(** The loop over the files of one streamer, from the state
    ([streamer.sessions], [currentSession]) it has reached. *)
Fixpoint groupLoop (sessions : list StreamSession)
    (currentSession : option StreamSession) (streamerFiles : list StreamFile)
    : list StreamSession * option StreamSession :=
  match streamerFiles with
  | [] => (sessions, currentSession)
  | file :: rest =>
      let segment := segmentOf file in
      if isNewSession currentSession file then
        groupLoop (pushCurrent sessions currentSession)
                  (Some (newSession file segment)) rest
      else
        match currentSession with
        | Some s => groupLoop sessions (Some (extendSession s file segment)) rest
        | None => groupLoop sessions None rest
        end
  end.

(** The sessions of one streamer in the order the loop closes them. *)
Definition buildSessions (streamerFiles : list StreamFile) : list StreamSession :=
  let '(sessions, currentSession) := groupLoop [] None streamerFiles in
  pushCurrent sessions currentSession.

(** From the parsed files of every room to the sessions of [room]: the
    files sorted by timestamp, those of the room, grouped, newest session
    first. *)
Definition streamerSessions (parsedFiles : list StreamFile) (room : string)
    : list StreamSession :=
  let parsedFiles := sortBy (fun a b => (timestamp a - timestamp b <=? 0)%Z) parsedFiles in
  let streamerFiles := filter (fun f => String.eqb (roomId f) room) parsedFiles in
  sortBy (fun a b => (startTime b - startTime a <=? 0)%Z) (buildSessions streamerFiles).

End Scan.

(** *** Vocabulary of the statements *)

(** For each file, in order, the number of the session that holds it. *)
Fixpoint sessionIndexFrom (k : nat) (sessions : list StreamSession) : list nat :=
  match sessions with
  | [] => []
  | s :: rest => repeat k (length (segments s)) ++ sessionIndexFrom (S k) rest
  end.

Definition sessionIndex (sessions : list StreamSession) : list nat :=
  sessionIndexFrom O sessions.

(** The files of the sessions, in order. *)
Definition sessionFiles (sessions : list StreamSession) : list StreamFile :=
  flat_map (fun s => map file (segments s)) sessions.

(** The rule the loop applies between a file and the one before it. *)
Definition continues (prev next : StreamFile) : bool :=
  String.eqb (title next) (title prev) &&
  (timestamp next - timestamp prev <=? 3600 * 1000)%Z.

(** The sessions the loop leaves once its last session is pushed. *)
Definition finish (st : list StreamSession * option StreamSession) : list StreamSession :=
  pushCurrent (fst st) (snd st).

(** The session numbers the rule gives when it is applied between every
    file and the one before it: the number goes up by one where the rule
    fails. *)
Fixpoint expectedIndexFrom (prev : StreamFile) (k : nat) (files : list StreamFile)
    : list nat :=
  match files with
  | [] => []
  | f :: rest =>
      let k' := if continues prev f then k else S k in
      k' :: expectedIndexFrom f k' rest
  end.

Definition expectedIndex (files : list StreamFile) : list nat :=
  match files with
  | [] => []
  | f :: rest => O :: expectedIndexFrom f O rest
  end.

(** When a recording ends, in epoch milliseconds: its start plus its
    duration. *)
Definition fileEnd (seg : StreamSegment Q) : Q :=
  inject_Z (timestamp (file seg)) + duration seg * 1000.

(** The rule stated on the gap from one file's end to the next file's
    start. *)
Definition continuesFromEnd (prev next : StreamSegment Q) : bool :=
  String.eqb (title (file next)) (title (file prev)) &&
  leb (inject_Z (timestamp (file next)) - fileEnd prev) (3600 * 1000).

End SessionGrouping.

(** ** Data of the worked examples *)

Module Examples.

Local Open Scope string_scope.

Definition fileAt (ts : Z) (ttl : string) : StreamFile :=
  mkStreamFile "rec.flv" "27183290" "Unknown" ts ttl "flv".

(** Three segments with declared durations 1800, 0 and 1500 seconds; the
    third file starts 1820 seconds after the second. *)
Definition threeSegments : list (StreamSegment Q) :=
  [ mkStreamSegment (fileAt 0 "a") 1800 None None 0;
    mkStreamSegment (fileAt 1800000 "a") 0 None None 0;
    mkStreamSegment (fileAt 3620000 "a") 1500 None None 0 ].

Definition noRealDurations {T : Type} : nat -> option T := fun _ => None.

(** Two segments in the code's doubles: 1524.16 and 3000 seconds. *)
Definition twoSegments64 : list (StreamSegment PrimFloat.float) :=
  [ mkStreamSegment (fileAt 0 "a") (decimal 152416 100) None None 0;
    mkStreamSegment (fileAt 1524000 "a") (decimal 3000 1) None None 0 ].

(** A text event at time [t] with no medal. *)
Definition textItem (t : Q) (text : string) : DanmakuItem :=
  mkDanmakuItem t 1 25 16777215 0 0 "u" "r" text "viewer" None None None 0 None None.

Definition noFilters : FilterSettings := mkFilterSettings false 0 [].

(** A reader of unsigned decimal integers, standing in for [parseInt] and
    (on whole seconds) [parseFloat] in the worked examples. *)
Fixpoint digitsFrom (acc : Z) (s : string) : Z :=
  match s with
  | EmptyString => acc
  | String c rest => digitsFrom (10 * acc + (Z.of_nat (nat_of_ascii c) - 48)) rest
  end.

Definition readInt (s : string) : Z := digitsFrom 0 s.
Definition readSeconds (s : string) : Q := inject_Z (readInt s).

(** A reader standing in for [parseFloat] on the time field: the whole
    seconds a string of digits denotes, and [NaN] for any other string. *)
Definition isDigits (s : string) : bool :=
  negb (String.eqb s EmptyString) &&
  forallb (fun c => let n := nat_of_ascii c in (48 <=? n)%nat && (n <=? 57)%nat)
          (list_ascii_of_string s).

Definition readTime (s : string) : number :=
  if isDigits s then Some (readSeconds s) else None.

(** A cascade that finds no metadata: the sender is the [user] attribute. *)
Definition plainMeta (raw user : option string) : LogDecoder.RawMeta :=
  LogDecoder.mkRawMeta
    (match user with Some u => u | None => "Unknown" end) None None None [] None.

(** A chat log whose records are out of order. *)
Definition shuffledLog : list LogDecoder.DElement :=
  [ LogDecoder.mkDElement (Some "7,1,25,16777215,1700000007,0,u3,r3") None (Some "c") "third";
    LogDecoder.mkDElement None None (Some "x") "no position";
    LogDecoder.mkDElement (Some "2,1,25,16777215,1700000002,0,u1,r1") None (Some "a") "first";
    LogDecoder.mkDElement (Some "3,1,25,16777215,1700000003,0,u2,r2") None (Some "b") "second" ].

(** An event as decoded from a record without a number in its time field,
    with the server timestamp [ts]. *)
Definition untimed (ts : Z) : DanmakuItemOf number :=
  mkDanmakuItem None 1 25 16777215 ts 0 "u" "r" "x" "viewer" None None None 0 None None.

(** A chat log whose second record has no number in its time field. *)
Definition logWithoutATime : list LogDecoder.DElement :=
  [ LogDecoder.mkDElement (Some "5,1,25,16777215,1700000005,0,u1,r1") None (Some "a") "first";
    LogDecoder.mkDElement (Some "abc,1,25,16777215,1700000006,0,u2,r2") None (Some "b") "second";
    LogDecoder.mkDElement (Some "3,1,25,16777215,1700000003,0,u3,r3") None (Some "c") "third" ].

End Examples.

(** ** More JavaScript helpers *)

(** [Math.max], [Math.min] and [Math.abs] on finite numbers, [Math.floor],
    and [a % b], whose result has the sign of [a]. *)
Definition mathMax (a b : Q) : Q := if ltb a b then b else a.
Definition mathMin (a b : Q) : Q := if ltb b a then b else a.
Definition mathAbs (a : Q) : Q := if ltb a 0 then - a else a.
Definition mathFloor (a : Q) : Z := Qfloor a.

Definition truncate (a : Q) : Z := if ltb a 0 then Qceiling a else Qfloor a.
Definition remainder (a b : Q) : Q := a - b * inject_Z (truncate (a / b)).

(** [bins[i]++] for an index inside the array. *)
Fixpoint incrementAt (bins : list Z) (i : nat) : list Z :=
  match bins, i with
  | [], _ => []
  | b :: rest, O => (b + 1)%Z :: rest
  | b :: rest, S j => b :: incrementAt rest j
  end.

(** The string without its first [n] code units. *)
Fixpoint dropChars (n : nat) (s : string) : string :=
  match n, s with
  | O, _ => s
  | S _, EmptyString => EmptyString
  | S k, String _ rest => dropChars k rest
  end.

(** ** The timeline and measured durations: [handleLoadedMetadata] *)

Module Measured.

(** [{ ...prev, [idx]: value }] on the map of measured durations. *)
Definition withDuration (prev : nat -> option Q) (idx : nat) (value : Q)
    : nat -> option Q :=
  fun i => if Nat.eqb i idx then Some value else prev i.

(** The [setRealDurations] update of [handleLoadedMetadata]:
    [videoDuration] is [videoEl.duration], and the map changes only when
    it is positive and differs from the stored value by more than 0.01. *)
Definition handleLoadedMetadata (videoDuration : Q) (currentSegmentIndex : nat)
    (prev : nat -> option Q) : nat -> option Q :=
  if negb (Qeq_bool videoDuration 0) && gtb videoDuration 0 then
    if gtb (mathAbs (orElse (prev currentSegmentIndex) 0 - videoDuration)) 0.01
    then withDuration prev currentSegmentIndex videoDuration
    else prev
  else prev.

(** Where the seek bar draws the boundary of an entry, in percent:
    [(t.start / totalDuration) * 100]. *)
Definition markerLeft (totalDuration : Q) (t : Timeline.TimelineEntry Q) : Q :=
  Timeline.tl_start t / totalDuration * 100.

End Measured.

(** ** The playback history: [saveHistory] and the effect that restores it *)

Module PlayerHistory.

(** One record of the history object, in the format the player writes
    (a record of the older format, which the restoring effect deletes, is
    not modelled). *)
Record HistoryRecord := mkRecord {
  globalTime : Q;
  ts : Z                  (* [Date.now()] when the record was written *)
}.

(** The parsed history object: its keys, the session ids, in the order
    [Object.keys] lists them, each with its record.  A key occurs once. *)
Definition HistoryObject : Type := list ((string * Z) * HistoryRecord).

Definition sameKey (a b : string * Z) : bool :=
  String.eqb (fst a) (fst b) && (snd a =? snd b)%Z.

(** [history[key]] *)
Fixpoint lookup (history : HistoryObject) (key : string * Z) : option HistoryRecord :=
  match history with
  | [] => None
  | (k, r) :: rest => if sameKey k key then Some r else lookup rest key
  end.

(** [history[key] = record]: a key that is present keeps its place, a
    new key goes last. *)
Fixpoint assign (history : HistoryObject) (key : string * Z)
    (record : HistoryRecord) : HistoryObject :=
  match history with
  | [] => [(key, record)]
  | (k, r) :: rest =>
      if sameKey k key then (k, record) :: rest
      else (k, r) :: assign rest key record
  end.

(** [delete history[key]] *)
Definition remove (history : HistoryObject) (key : string * Z) : HistoryObject :=
  filter (fun e => negb (sameKey (fst e) key)) history.

(** [history[k].ts] for a key of the object. *)
Definition tsOf (history : HistoryObject) (k : string * Z) : Z :=
  match lookup history k with
  | Some r => ts r
  | None => 0%Z
  end.

(** [saveHistory(globalTime)]: [raw] is the stored object ([None] when
    the item is absent), [now] is [Date.now()]; the result is the object
    written back. *)
Definition saveHistory (raw : option HistoryObject) (sessionId : string * Z)
    (globalTime : Q) (now : Z) : HistoryObject :=
  let history := match raw with Some h => h | None => [] end in
  let history := assign history sessionId (mkRecord globalTime now) in
  let keys := map fst history in
  if (100 <? length keys)%nat then
    let sortedKeys :=
      sortBy (fun a b => (tsOf history b - tsOf history a <=? 0)%Z) keys in
    let keysToRemove := skipn 100 sortedKeys in
    fold_left remove keysToRemove history
  else history.


(** What the restoring effect reads and writes. *)
Record ResumeState := mkResume {
  hasLoadedHistoryRef : bool;
  initialSeekTimeRef : option Q;
  segmentIndex : Z        (* [currentSegmentIndex] *)
}.

(** [timeline[i]] for an index that may be -1. *)
Definition entryAt (tl : list (Timeline.TimelineEntry Q)) (i : Z)
    : option (Timeline.TimelineEntry Q) :=
  if (i <? 0)%Z then None else nth_error tl (Z.to_nat i).

(** The effect that loads the history, run with the timeline [tl]. *)
Definition loadHistory (raw : option HistoryObject) (sessionId : string * Z)
    (tl : list (Timeline.TimelineEntry Q)) (st : ResumeState) : ResumeState :=
  if hasLoadedHistoryRef st then st
  else
    match raw with
    | Some history =>
        match lookup history sessionId with
        | Some record =>
            let globalTime := globalTime record in
            let targetIdx :=
              match Timeline.findEntry tl globalTime with
              | Some i => Z.of_nat i
              | None => (Z.of_nat (length tl) - 1)%Z
              end in
            let segmentStartTime :=
              orElse (option_map Timeline.tl_start (entryAt tl targetIdx)) 0 in
            let localTime := mathMax 0 (globalTime - segmentStartTime) in
            mkResume true (Some localTime) targetIdx
        | None => mkResume true (initialSeekTimeRef st) (segmentIndex st)
        end
    | None => mkResume true (initialSeekTimeRef st) (segmentIndex st)
    end.






End PlayerHistory.

(** ** Moving between segments: [handleGlobalSeekEnd] and [handleEnded] *)

Module Navigation.

Record NavState := mkNav {
  player : Timeline.PlayerState Q;
  isPlaying : bool;
  initialSeekTimeRef : option Q;
  videoTime : option Q;   (* [videoRef.current.currentTime]; [None] without an element *)
  stored : option PlayerHistory.HistoryObject
}.

(** The segment a seek point lands in. *)
Definition targetIndex (tl : list (Timeline.TimelineEntry Q)) (seekPoint : Q) : nat :=
  match Timeline.findEntry tl seekPoint with
  | Some i => i
  | None =>
      if geb seekPoint (Timeline.totalDuration tl) then (length tl - 1)%nat else O
  end.

(** The position inside the segment [segInfo]. *)
Definition targetLocal (segInfo : Timeline.TimelineEntry Q) (seekPoint : Q) : Q :=
  mathMax 0 (mathMin (seekPoint - Timeline.tl_start segInfo)
                     (orElse (Some (Timeline.tl_duration segInfo)) 10000 - 0.1)).

(** [handleGlobalSeekEnd], up to the timer it starts.  [None] is the
    [TypeError] thrown by [segInfo.start] when the timeline has no entry
    at the target index (an empty timeline). *)
Definition handleGlobalSeekEnd (sessionId : string * Z) (now : Z)
    (tl : list (Timeline.TimelineEntry Q)) (st : NavState) : option NavState :=
  match Timeline.dragGlobalTime (player st) with
  | Some seekPoint =>
      let targetIdx := targetIndex tl seekPoint in
      match nth_error tl targetIdx with
      | None => None
      | Some segInfo =>
          let targetLocal := targetLocal segInfo seekPoint in
          let st :=
            if negb (Nat.eqb targetIdx (Timeline.currentSegmentIndex (player st))) then
              mkNav (Timeline.mkPlayerState targetIdx targetLocal
                       (Timeline.dragGlobalTime (player st)))
                    (isPlaying st) (Some targetLocal) (videoTime st) (stored st)
            else
              match videoTime st with
              | Some _ =>
                  mkNav (Timeline.mkPlayerState
                           (Timeline.currentSegmentIndex (player st)) targetLocal
                           (Timeline.dragGlobalTime (player st)))
                        (isPlaying st) (initialSeekTimeRef st) (Some targetLocal)
                        (stored st)
              | None => st
              end in
          Some (mkNav (player st) (isPlaying st) (initialSeekTimeRef st) (videoTime st)
                  (Some (PlayerHistory.saveHistory (stored st) sessionId seekPoint now)))
      end
  | None => Some st
  end.

(** [handleEnded]: on to the next segment from its start, or stop at the
    last one; [segmentCount] is [session.segments.length]. *)
Definition handleEnded (segmentCount : nat) (st : NavState) : NavState :=
  if (Timeline.currentSegmentIndex (player st) <? segmentCount - 1)%nat then
    mkNav (Timeline.mkPlayerState (S (Timeline.currentSegmentIndex (player st))) 0
             (Timeline.dragGlobalTime (player st)))
          true (Some 0) (videoTime st) (stored st)
  else
    mkNav (player st) false (initialSeekTimeRef st) (videoTime st) (stored st).

End Navigation.

(** ** Stall detection: the [checkStall] interval *)

Module StallWatch.

Record Watch := mkWatch {
  lastTimeRef : Q;
  stallCountRef : Z;
  isLoading : bool
}.

(** [videoRef.current.currentTime += 1] *)
Definition skipOneSecond (v : PlaybackClock.Video) : PlaybackClock.Video :=
  PlaybackClock.mkVideo (PlaybackClock.paused v) (PlaybackClock.readyState v)
    (PlaybackClock.v_currentTime v + 1) (PlaybackClock.playbackRate v).

(** One run of the interval callback: the video element and the refs
    after it. *)
Definition checkStall (isPlaying : bool) (video : option PlaybackClock.Video)
    (w : Watch) : option PlaybackClock.Video * Watch :=
  match video with
  | Some v =>
      if negb (PlaybackClock.paused v) && isPlaying then
        let nowTime := PlaybackClock.v_currentTime v in
        if ltb (mathAbs (nowTime - lastTimeRef w)) 0.1 then
          let stallCount := (stallCountRef w + 1)%Z in
          let loading := if (2 <? stallCount)%Z then true else isLoading w in
          if (6 <? stallCount)%Z
          then (Some (skipOneSecond v), mkWatch nowTime 0 loading)
          else (Some v, mkWatch nowTime stallCount loading)
        else
          (Some v,
           mkWatch nowTime 0
             (if (2 <? PlaybackClock.readyState v)%Z then false else isLoading w))
      else (video, w)
  | None => (None, w)
  end.

(** [n] runs of the callback in a row while nothing else touches the
    video element. *)
Fixpoint checks (n : nat) (isPlaying : bool)
    (st : option PlaybackClock.Video * Watch) : option PlaybackClock.Video * Watch :=
  match n with
  | O => st
  | S k => checks k isPlaying (checkStall isPlaying (fst st) (snd st))
  end.

End StallWatch.

(** ** Time labels: [formatTime] of the player, [formatDuration] of the parser *)

Module TimeLabels.

Local Open Scope string_scope.

(** A whole number as [String(n)] prints it. *)
Definition showNumber (n : Z) : string :=
  DecimalString.NilZero.string_of_int (Z.to_int n).

(** [s.padStart(2, '0')] *)
Definition padStart2 (s : string) : string :=
  match String.length s with
  | O => "00"
  | S O => "0" ++ s
  | _ => s
  end.

(** The three lines both functions start with. *)
Definition hours (time : Q) : Z := mathFloor (time / 3600).
Definition minutes (time : Q) : Z := mathFloor (remainder time 3600 / 60).
Definition seconds (time : Q) : Z := mathFloor (remainder time 60).

(** [formatTime]; [None] is a time that is not finite. *)
Definition formatTime (time : option Q) : string :=
  match time with
  | None => "--:--"
  | Some time =>
      let h := hours time in
      let m := minutes time in
      let s := seconds time in
      (if (0 <? h)%Z then showNumber h ++ ":" else EmptyString)
        ++ padStart2 (showNumber m) ++ ":" ++ padStart2 (showNumber s)
  end.

Definition formatDuration (seconds' : Q) : string :=
  let h := hours seconds' in
  let m := minutes seconds' in
  let s := seconds seconds' in
  if (0 <? h)%Z then showNumber h ++ "h " ++ showNumber m ++ "m"
  else showNumber m ++ "m " ++ showNumber s ++ "s".

End TimeLabels.

(** ** Drawing the overlay: the position of a rendered event *)

Module OverlayRender.

Definition startX : Q := 100.
Definition endX : Q := -40.

(** [(smoothTime - d.time) / d.actualDuration] for a rendered element
    [{ ...d, actualDuration }]. *)
Definition progress (smoothTime : Q) (d : DanmakuItem * Q) : Q :=
  (smoothTime - time (fst d)) / snd d.

Definition currentX (smoothTime : Q) (d : DanmakuItem * Q) : Q :=
  startX - progress smoothTime d * (startX - endX).

(** The row, in percent of the height: [(d.trackIndex % 16) * 6]. *)
Definition top {T : Type} (d : DanmakuItemOf T) : Z := (Z.rem (trackIndex d) 16 * 6)%Z.

End OverlayRender.

(** ** Loading a segment's chat log into the player *)

Module Loader.

Section Load.

Variable parseFloat : string -> number.
Variable parseInt : string -> Z.
Variable decodeRaw : option string -> option string -> LogDecoder.RawMeta.

(** The [loadDanmaku] effect: [danmakuFile] is the parsed document of the
    segment's log ([None] without a log); the result is [danmakuData] and
    [searchStartIndexRef].  (A parse that throws leaves an empty list and
    the cursor as it was.) *)
Definition loadDanmaku (danmakuFile : option (list LogDecoder.DElement))
    (searchStartIndexRef : nat) : list (DanmakuItemOf number) * nat :=
  match danmakuFile with
  | Some dElements =>
      let items := LogDecoder.parseDanmakuXml parseFloat parseInt decodeRaw dElements in
      let items := sortBy LogDecoder.byTimeN items in
      (items, O)
  | None => ([], searchStartIndexRef)
  end.

End Load.

(** The two rewrites applied to a sticker or emote address:
    [http://] becomes [https://], and a leading [//] gets [https:] in
    front. *)
Definition forceHttps (url : string) : string :=
  if startsWith url "http://"%string
  then ("https://" ++ dropChars 7 url)%string
  else if startsWith url "//"%string then ("https:" ++ url)%string
  else url.

End Loader.

(** ** Scanning a chat log as text: [scanXmlMetadata] and
    [scanSessionDanmakuDensity] *)

Module TextScan.

(** The characters of the class [[\d.]]. *)
Definition isTimeChar (c : ascii) : bool :=
  let n := nat_of_ascii c in
  ((48 <=? n)%nat && (n <=? 57)%nat) || (n =? 46)%nat.

(** The longest run of such characters at the head of [s], and the rest. *)
Fixpoint timeChars (s : string) : string * string :=
  match s with
  | EmptyString => (EmptyString, EmptyString)
  | String c rest =>
      if isTimeChar c
      then let '(run, after) := timeChars rest in (String c run, after)
      else (EmptyString, s)
  end.

(** The four characters that open the pattern: a space, [p], [=] and a
    double quote. *)
Definition opening : string :=
  String " " (String "p" (String "=" (String "034" EmptyString))).

(** The regular expression of the scan (the opening, then the group
    [([\d.]+)], then a comma) tried at the head of [s]: the captured group.  The greedy group takes the whole run of digits
    and dots, and giving characters back cannot help, since the comma has
    to follow the group; so there is a match exactly when the run is not
    empty and a comma follows it. *)
Definition matchAt (s : string) : option string :=
  if startsWith s opening then
    let '(run, after) := timeChars (dropChars 4 s) in
    match run, after with
    | String _ _, String c _ => if Ascii.eqb c "," then Some run else None
    | _, _ => None
    end
  else None.

(** The loop [while ((match = pRegex.exec(text)) !== null)] of a global
    expression: the groups of the successive matches, each search starting
    where the previous match ended.  [skip] counts the characters of the
    last match that are still ahead. *)
Fixpoint execFrom (skip : nat) (text : string) : list string :=
  match text with
  | EmptyString => []
  | String _ rest =>
      match skip with
      | S k => execFrom k rest
      | O =>
          match matchAt text with
          | Some group => group :: execFrom (4 + String.length group) rest
          | None => execFrom O rest
          end
      end
  end.

Definition execAll (text : string) : list string := execFrom O text.

(** The digits at the head of [s], and the rest. *)
Fixpoint leadingDigits (s : string) : list Z * string :=
  match s with
  | EmptyString => ([], EmptyString)
  | String c rest =>
      let n := nat_of_ascii c in
      if (48 <=? n)%nat && (n <=? 57)%nat
      then let '(ds, after) := leadingDigits rest in
           ((Z.of_nat n - 48)%Z :: ds, after)
      else ([], s)
  end.

Definition fromDigits (ds : list Z) : Z :=
  fold_left (fun acc d => (10 * acc + d)%Z) ds 0%Z.

(** [parseFloat] on a string of digits and dots, which is all the group
    can hold: the digits, and after a first dot the digits that follow;
    [None] is [NaN], the result when neither has a digit. *)
Definition parseFloat (s : string) : option Q :=
  let '(whole, after) := leadingDigits s in
  let fraction :=
    match after with
    | String c rest => if Ascii.eqb c "." then fst (leadingDigits rest) else []
    | EmptyString => []
    end in
  match whole, fraction with
  | [], [] => None
  | _, _ =>
      Some (inject_Z (fromDigits whole)
            + inject_Z (fromDigits fraction) / inject_Z (10 ^ Z.of_nat (length fraction)))
  end.

(** [scanXmlMetadata] on the text of a log: [(count, duration)].  A group
    that is not a number counts as a record and leaves [maxTime] alone. *)
Definition scanXmlMetadata (text : string) : Z * Q :=
  fold_left
    (fun (acc : Z * Q) (group : string) =>
       let '(count, maxTime) := acc in
       ((count + 1)%Z,
        match parseFloat group with
        | Some t => if gtb t maxTime then t else maxTime
        | None => maxTime
        end))
    (execAll text) (0%Z, 0).

(** The times the scan reads from the groups it matches. *)
Definition parsedTimes (groups : list string) : list Q :=
  flat_map (fun group => match parseFloat group with
                         | Some t => [t]
                         | None => []
                         end) groups.

Section Density.

(** The scan in any arithmetic: exact, or the doubles of the code. *)
Context {T : Type} {N : JsNumber T} {M : JsMath T}.

(** [file.text()] for a sidecar file; [None] when the read fails. *)
Variable readText : string -> option string.

(** [parseFloat(match[1])]; [None] is [NaN]. *)
Definition parseTime (group : string) : option T :=
  option_map num_decimal (parseFloat group).

(** [Math.floor((globalTime / totalDuration) * binCount)] *)
Definition binIndexOf (totalDuration : T) (binCount : nat) (globalTime : T)
    : option Z :=
  num_floor (num_mul (num_div globalTime totalDuration) (num_of_nat binCount)).

(** The body of the inner loop for one match. *)
Definition countRecord (totalDuration : T) (binCount : nat) (currentStart : T)
    (bins : list Z) (group : string) : list Z :=
  match parseTime group with
  | Some localTime =>
      let globalTime := num_add currentStart localTime in
      match binIndexOf totalDuration binCount globalTime with
      | Some binIndex =>
          if (0 <=? binIndex)%Z && (binIndex <? Z.of_nat binCount)%Z
          then incrementAt bins (Z.to_nat binIndex)
          else bins
      | None => bins
      end
  | None => bins
  end.

(** The loop over the segments, from the offset [currentStart]. *)
Fixpoint densityLoop (totalDuration : T) (binCount : nat) (currentStart : T)
    (bins : list Z) (segments : list (StreamSegment T)) : list Z :=
  match segments with
  | [] => bins
  | seg :: rest =>
      let bins :=
        match danmakuFile seg with
        | Some f =>
            match readText f with
            | Some text =>
                fold_left (countRecord totalDuration binCount currentStart)
                          (execAll text) bins
            | None => bins
            end
        | None => bins
        end in
      densityLoop totalDuration binCount
                  (num_add currentStart (orNumber (Some (duration seg)) num_zero))
                  bins rest
  end.

Definition scanSessionDanmakuDensity (segments : list (StreamSegment T))
    (totalDuration : T) (binCount : nat) : list Z :=
  let bins := repeat 0%Z binCount in
  if num_geb num_zero totalDuration then bins
  else densityLoop totalDuration binCount num_zero bins segments.

(** *** Vocabulary of the statements *)

(** The global times of the records the loop reads, in order: the times
    of each readable log, moved by the declared durations of the segments
    before it. *)
Fixpoint recordTimes (currentStart : T) (segments : list (StreamSegment T)) : list T :=
  match segments with
  | [] => []
  | seg :: rest =>
      match danmakuFile seg with
      | Some f =>
          match readText f with
          | Some text =>
              flat_map (fun group =>
                          match parseTime group with
                          | Some t => [num_add currentStart t]
                          | None => []
                          end)
                       (execAll text)
          | None => []
          end
      | None => []
      end ++ recordTimes (num_add currentStart (orNumber (Some (duration seg)) num_zero))
                         rest
  end.

(** The bin the loop computes for the global time [g] is the bin [i]. *)
Definition lands (totalDuration : T) (binCount i : nat) (g : T) : bool :=
  match binIndexOf totalDuration binCount g with
  | Some binIndex => (binIndex =? Z.of_nat i)%Z
  | None => false
  end.

End Density.

(** The record at global time [g] belongs to the bin [i] of [binCount]
    equal bins over [0, totalDuration). *)
Definition inBin (totalDuration : Q) (binCount : nat) (i : nat) (g : Q) : bool :=
  leb (inject_Z (Z.of_nat i) * (totalDuration / inject_Z (Z.of_nat binCount))) g &&
  ltb g (inject_Z (Z.of_nat i + 1) * (totalDuration / inject_Z (Z.of_nat binCount))).

End TextScan.

(** ** The density curve over the seek bar: [DanmakuDensityCurve] *)

Module DensityCurve.

(** [bins[index]++] on an array of numbers. *)
Fixpoint bump (bins : list Q) (i : nat) : list Q :=
  match bins, i with
  | [], _ => []
  | b :: rest, O => (b + 1) :: rest
  | b :: rest, S j => b :: bump rest j
  end.

(** The bins counted from the events of one segment. *)
Definition localBins (danmakuData : list DanmakuItem) (duration : Q)
    (binCount : nat) : list Q :=
  let binWidth := duration / inject_Z (Z.of_nat binCount) in
  fold_left
    (fun bins d =>
       let index := mathFloor (time d / binWidth) in
       if (0 <=? index)%Z && (index <? Z.of_nat binCount)%Z
       then bump bins (Z.to_nat index)
       else bins)
    danmakuData (repeat 0 binCount).

(** The inner loop of the moving average at [i]: [j] runs from
    [i - windowSize] to [i + windowSize], and the result is
    [(sum, count)]. *)
Definition windowTotals (bins : list Q) (binCount windowSize i : nat) : Q * Q :=
  fold_left
    (fun (acc : Q * Q) (k : nat) =>
       let j := (Z.of_nat i - Z.of_nat windowSize + Z.of_nat k)%Z in
       if (0 <=? j)%Z && (j <? Z.of_nat binCount)%Z
       then (fst acc + nth (Z.to_nat j) bins 0, snd acc + 1)
       else acc)
    (seq 0 (2 * windowSize + 1)) (0, 0).

Definition smoothed (bins : list Q) (binCount windowSize : nat) : list Q :=
  map (fun i => let '(sum, count) := windowTotals bins binCount windowSize i in
                sum / count)
      (seq 0 binCount).

(** [Math.max(...values)]; [None] is the [-Infinity] of no values. *)
Fixpoint maxOf (values : list Q) : option Q :=
  match values with
  | [] => None
  | v :: rest =>
      match maxOf rest with
      | Some m => Some (mathMax v m)
      | None => Some v
      end
  end.

(** [smoothed.map(v => v / maxVal)] with
    [maxVal = Math.max(...smoothed) || 1]. *)
Definition normalized (smoothed : list Q) : list Q :=
  match maxOf smoothed with
  | Some m =>
      let maxVal := orElse (Some m) 1 in
      map (fun v => v / maxVal) smoothed
  | None => []
  end.

(** The points of the polyline, as pairs of numbers. *)
Definition points (normalized : list Q) (binCount : nat) : list (Q * Q) :=
  (0, 100)
  :: map (fun iv : nat * Q =>
            let '(i, v) := iv in
            (inject_Z (Z.of_nat i) / (inject_Z (Z.of_nat binCount) - 1) * 100,
             100 - v * 80))
         (combine (seq 0 (length normalized)) normalized)
  ++ [(100, 100)].

(** The [pathData] memo; [None] is the empty string, for which the
    component renders nothing. *)
Definition pathData (danmakuData : option (list DanmakuItem)) (duration : Q)
    (propBins : option (list Q)) : option (list (Q * Q)) :=
  if Qeq_bool duration 0 then None
  else
    let binCount := match propBins with Some b => length b | None => 100%nat end in
    let bins :=
      match propBins with
      | Some b => Some b
      | None =>
          match danmakuData with
          | Some (d :: data) => Some (localBins (d :: data) duration binCount)
          | _ => None
          end
      end in
    match bins with
    | Some bins =>
        let windowSize := match propBins with Some _ => 2%nat | None => 3%nat end in
        Some (points (normalized (smoothed bins binCount windowSize)) binCount)
    | None => None
    end.

End DensityCurve.

(** ** The keyword panel of the chat list *)

Module KeywordPanel.

Section Panel.

Variable trim : string -> string.

(** The Enter key and the add button: the settings and the input box
    after them. *)
Definition addKeyword (fs : FilterSettings) (newKeyword : string)
    : FilterSettings * string :=
  match trim newKeyword with
  | EmptyString => (fs, newKeyword)
  | String _ _ =>
      (if negb (existsb (String.eqb (trim newKeyword)) (blockedKeywords fs))
       then mkFilterSettings (medalFilterEnabled fs) (minMedalLevel fs)
              (blockedKeywords fs ++ [trim newKeyword])
       else fs,
       EmptyString)
  end.

(** The remove button of the keyword [k]. *)
Definition removeKeyword (fs : FilterSettings) (k : string) : FilterSettings :=
  mkFilterSettings (medalFilterEnabled fs) (minMedalLevel fs)
    (filter (fun item => negb (String.eqb item k)) (blockedKeywords fs)).

End Panel.

End KeywordPanel.

(** ** Vocabulary for the sessions of a room *)

Module SessionShape.

(** What a session records about its segments: it has a first segment,
    whose file gives the id, the room, the streamer, the title and the
    start; every segment carries the session's title; the end is the start
    of the last file; and the totals are the sums over the segments. *)
Definition consistent (s : StreamSession) : Prop :=
  exists first rest last,
    segments s = first :: rest /\
    lastElem (segments s) = Some last /\
    id s = (roomId (file first), timestamp (file first)) /\
    s_roomId s = roomId (file first) /\
    s_streamerName s = streamerName (file first) /\
    s_title s = title (file first) /\
    startTime s = timestamp (file first) /\
    endTime s = timestamp (file last) /\
    Forall (fun seg => title (file seg) = s_title s) (segments s) /\
    s_totalDuration s == sumOf (map duration (segments s)) /\
    totalDanmakuCount s = fold_right Z.add 0%Z (map danmakuCount (segments s)).

End SessionShape.

(** ** Data of further worked examples *)

Module MoreExamples.

Local Open Scope string_scope.

(** A log of three records, at 1.5, 12 and 7.25 seconds. *)
Definition smallLog : string :=
  "<i><d p=" ++ String "034" "1.5,1,25,16777215,1700000001,0,u1,r1" ++ String "034" ">a</d>"
  ++ "<d p=" ++ String "034" "12,1,25,16777215,1700000012,0,u2,r2" ++ String "034" ">b</d>"
  ++ "<d p=" ++ String "034" "7.25,1,25,16777215,1700000007,0,u3,r3" ++ String "034" ">c</d></i>".

(** A log of one record, at 14.5 seconds. *)
Definition edgeLog : string :=
  "<i><d p=" ++ String "034" "14.5,1,25,16777215,1700000014,0,u1,r1" ++ String "034" ">a</d></i>".


End MoreExamples.

(** * Properties *)

(** ** Comparisons and list helpers *)

Lemma ltb_lt (a b : Q) : ltb a b = true <-> a < b.
Proof.
  unfold ltb. rewrite negb_true_iff. split.
  - intros H. apply Qnot_le_lt. intros Hle.
    apply Qle_bool_iff in Hle. congruence.
  - intros H. destruct (Qle_bool b a) eqn:E; [|reflexivity].
    apply Qle_bool_iff in E. exfalso. apply (Qlt_not_le _ _ H E).
Qed.

Lemma ltb_ge (a b : Q) : ltb a b = false <-> b <= a.
Proof.
  unfold ltb. rewrite negb_false_iff. apply Qle_bool_iff.
Qed.

Lemma leb_le (a b : Q) : leb a b = true <-> a <= b.
Proof. apply Qle_bool_iff. Qed.

Lemma leb_gt (a b : Q) : leb a b = false <-> b < a.
Proof.
  unfold leb. split.
  - intros H. apply Qnot_le_lt. intros Hle.
    apply Qle_bool_iff in Hle. congruence.
  - intros H. destruct (Qle_bool a b) eqn:E; [|reflexivity].
    apply Qle_bool_iff in E. exfalso. apply (Qlt_not_le _ _ H E).
Qed.

Lemma gtb_gt (a b : Q) : gtb a b = true <-> b < a.
Proof. apply ltb_lt. Qed.

Lemma gtb_le (a b : Q) : gtb a b = false <-> a <= b.
Proof. apply ltb_ge. Qed.

Lemma geb_ge (a b : Q) : geb a b = true <-> b <= a.
Proof. apply leb_le. Qed.

Lemma geb_lt (a b : Q) : geb a b = false <-> a < b.
Proof. apply leb_gt. Qed.

Lemma lastElem_cons {A : Type} (x y : A) (l : list A) :
  lastElem (x :: y :: l) = lastElem (y :: l).
Proof.
  unfold lastElem. simpl. rewrite Nat.sub_0_r. reflexivity.
Qed.

Lemma firstn_plus {A : Type} (c n : nat) (l : list A) :
  firstn (c + n) l = firstn c l ++ firstn n (skipn c l).
Proof.
  revert l. induction c as [|c IH]; intros l; [reflexivity|].
  destruct l as [|x l]; simpl.
  - rewrite firstn_nil. reflexivity.
  - rewrite IH. reflexivity.
Qed.

(** ** The timeline, for any number type *)

Section TimelineAnyNumber.

Import Timeline.

Context {T : Type} {N : JsNumber T}.

Variable realDurations : nat -> option T.

Lemma timelineFrom_length acc idx segs :
  length (timelineFrom realDurations acc idx segs) = length segs.
Proof.
  revert acc idx. induction segs as [|seg rest IH]; intros acc idx; simpl.
  - reflexivity.
  - rewrite IH. reflexivity.
Qed.

Lemma timelineFrom_head acc idx segs e :
  nth_error (timelineFrom realDurations acc idx segs) 0 = Some e ->
  tl_start e = acc.
Proof.
  destruct segs as [|seg rest]; simpl; intros H; [discriminate|].
  inversion H. reflexivity.
Qed.

Lemma timelineFrom_contiguous acc idx segs i e e' :
  nth_error (timelineFrom realDurations acc idx segs) i = Some e ->
  nth_error (timelineFrom realDurations acc idx segs) (S i) = Some e' ->
  tl_end e = tl_start e'.
Proof.
  revert acc idx i. induction segs as [|seg rest IH]; intros acc idx i He He'.
  - destruct i; discriminate.
  - destruct i as [|i]; simpl in He, He'.
    + inversion He; subst e. simpl.
      symmetry. eapply timelineFrom_head. exact He'.
    + eapply IH; eassumption.
Qed.

Lemma timelineFrom_span acc idx segs i e :
  nth_error (timelineFrom realDurations acc idx segs) i = Some e ->
  tl_end e = num_add (tl_start e) (tl_duration e).
Proof.
  revert acc idx i. induction segs as [|seg rest IH]; intros acc idx i He.
  - destruct i; discriminate.
  - destruct i as [|i]; simpl in He.
    + inversion He; subst e. reflexivity.
    + eapply IH; eassumption.
Qed.

Lemma timelineFrom_cons2 acc idx seg seg' rest :
  timelineFrom realDurations acc idx (seg :: seg' :: rest)
  = mkEntry acc (num_add acc (entryDuration realDurations seg (Some seg') idx))
            (entryDuration realDurations seg (Some seg') idx)
    :: timelineFrom realDurations
         (num_add acc (entryDuration realDurations seg (Some seg') idx))
         (S idx) (seg' :: rest).
Proof. reflexivity. Qed.

Lemma timelineFrom_nonempty acc idx seg rest :
  exists x tl, timelineFrom realDurations acc idx (seg :: rest) = x :: tl.
Proof. simpl. eauto. Qed.

Lemma timelineFrom_last acc idx segs e :
  lastElem (timelineFrom realDurations acc idx segs) = Some e ->
  tl_end e
  = fold_left num_add (map tl_duration (timelineFrom realDurations acc idx segs)) acc.
Proof.
  revert acc idx. induction segs as [|seg rest IH]; intros acc idx He.
  - discriminate.
  - destruct rest as [|seg' rest'].
    + simpl in *. inversion He. reflexivity.
    + rewrite timelineFrom_cons2 in He |- *.
      destruct (timelineFrom_nonempty
                  (num_add acc (entryDuration realDurations seg (Some seg') idx))
                  (S idx) seg' rest') as (x & tl & Hx).
      rewrite Hx in He. rewrite lastElem_cons in He. rewrite <- Hx in He.
      simpl map. simpl fold_left. apply IH. exact He.
Qed.

End TimelineAnyNumber.

(** ** The timeline in exact arithmetic *)

Ltac rational_ops :=
  change (@num_zero Q rationals) with (0 : Q) in *;
  change (@num_add Q rationals) with Qplus in *;
  change (@num_sub Q rationals) with Qminus in *;
  change (@num_eqb Q rationals) with Qeq_bool in *;
  change (@num_ltb Q rationals) with ltb in *;
  change (@num_geb Q rationals) with geb in *.

Lemma orNumber_Some_0 (x : Q) : orNumber (Some x) 0 == x.
Proof.
  simpl. destruct (Qeq_bool x 0) eqn:E; [|reflexivity].
  apply Qeq_bool_iff in E. symmetry. exact E.
Qed.

Section TimelineRationals.

Import Timeline.

Variable realDurations : nat -> option Q.

Lemma entryDuration_nonneg seg next idx :
  0 <= entryDuration realDurations seg next idx.
Proof.
  unfold entryDuration.
  match goal with
  | |- 0 <= (if num_ltb ?d _ then _ else _) => destruct (num_ltb d num_zero) eqn:E
  end.
  - apply Qle_refl.
  - rational_ops. apply ltb_ge in E. exact E.
Qed.

(** A declared duration that is positive is the one the entry gets. *)
Lemma entryDuration_declared seg next idx :
  0 < duration seg -> entryDuration realDurations seg next idx = duration seg.
Proof.
  intros Hpos. unfold entryDuration, orNumber. rational_ops.
  change (num_falsy (duration seg)) with (Qeq_bool (duration seg) 0).
  assert (Hne : Qeq_bool (duration seg) 0 = false).
  { destruct (Qeq_bool (duration seg) 0) eqn:E; [|reflexivity].
    apply Qeq_bool_iff in E. rewrite E in Hpos. exfalso. apply (Qlt_irrefl 0 Hpos). }
  rewrite Hne, Hne.
  assert (Hge : ltb (duration seg) 0 = false).
  { apply ltb_ge. apply Qlt_le_weak. exact Hpos. }
  rewrite Hge. reflexivity.
Qed.

Lemma timelineFrom_nonneg acc idx segs i e :
  nth_error (timelineFrom realDurations acc idx segs) i = Some e ->
  0 <= tl_duration e.
Proof.
  revert acc idx i. induction segs as [|seg rest IH]; intros acc idx i He.
  - destruct i; discriminate.
  - destruct i as [|i]; simpl in He.
    + inversion He; subst e. simpl. apply entryDuration_nonneg.
    + eapply IH; eassumption.
Qed.

Lemma timelineFrom_declared acc idx segs :
  Forall (fun seg => 0 < duration seg) segs ->
  map tl_duration (timelineFrom realDurations acc idx segs) = map duration segs.
Proof.
  intros H. revert acc idx. induction H as [|seg rest Hseg Hrest IH]; intros acc idx.
  - reflexivity.
  - simpl. rewrite entryDuration_declared by exact Hseg. f_equal. apply IH.
Qed.

End TimelineRationals.

(** C1. Timeline contiguity.  In any arithmetic, binary64 included: the
    timeline has one entry per segment, the first entry starts at 0, every
    entry ends where the next one starts, an entry's end is its start plus
    its duration, and the last entry ends at the left-to-right sum of the
    entries' durations.  In exact arithmetic moreover: that sum is the
    reported total duration, no duration is negative, and the durations
    are the segments' declared ones when all of those are positive. *)
Theorem timeline_contiguity :
  (forall (T : Type) (N : JsNumber T) (segments : list (StreamSegment T))
          (realDurations : nat -> option T),
     let tl := Timeline.timeline segments realDurations in
     length tl = length segments /\
     (forall e, nth_error tl 0 = Some e -> Timeline.tl_start e = num_zero) /\
     (forall i e e', nth_error tl i = Some e -> nth_error tl (S i) = Some e' ->
        Timeline.tl_end e = Timeline.tl_start e') /\
     (forall i e, nth_error tl i = Some e ->
        Timeline.tl_end e = num_add (Timeline.tl_start e) (Timeline.tl_duration e)) /\
     (forall e, lastElem tl = Some e ->
        Timeline.tl_end e = sumOf (map Timeline.tl_duration tl))) /\
  (forall (segments : list (StreamSegment Q)) (realDurations : nat -> option Q),
     let tl := Timeline.timeline segments realDurations in
     Timeline.totalDuration tl == sumOf (map Timeline.tl_duration tl) /\
     (forall i e, nth_error tl i = Some e -> 0 <= Timeline.tl_duration e) /\
     (Forall (fun seg => 0 < duration seg) segments ->
        map Timeline.tl_duration tl = map duration segments)).
Proof.
  split.
  - intros T N segments realDurations tl. unfold tl, Timeline.timeline.
    split; [apply timelineFrom_length|].
    split; [intros e; apply timelineFrom_head|].
    split; [intros i e e'; apply timelineFrom_contiguous|].
    split; [intros i e; apply timelineFrom_span|].
    intros e; apply timelineFrom_last.
  - intros segments realDurations tl. unfold tl, Timeline.timeline.
    split; [|split].
    + unfold Timeline.totalDuration.
      destruct (lastElem (Timeline.timelineFrom realDurations num_zero 0 segments))
        as [e|] eqn:He.
      * simpl option_map. rational_ops. rewrite orNumber_Some_0.
        rewrite (timelineFrom_last _ _ _ _ _ He). reflexivity.
      * destruct segments as [|seg rest]; [reflexivity|].
        exfalso. unfold lastElem in He. apply nth_error_None in He.
        rewrite timelineFrom_length in He. simpl in He. lia.
    + intros i e. apply timelineFrom_nonneg.
    + apply timelineFrom_declared.
Qed.

(** The end-to-end scenario: starts 0, 1800 and 3620, total 5120. *)
Example timeline_threeSegments :
  map Timeline.tl_start (Timeline.timeline Examples.threeSegments Examples.noRealDurations)
    = [0; 0 + 1800; 0 + 1800 + inject_Z (3620000 - 1800000) / 1000] /\
  Timeline.totalDuration (Timeline.timeline Examples.threeSegments Examples.noRealDurations)
    == 5120.
Proof. split; reflexivity. Qed.

(** ** Global time and local time *)

Lemma containsTime_iff (t : Q) (e : Timeline.TimelineEntry Q) :
  Timeline.containsTime t e = true <->
  Timeline.tl_start e <= t /\ t < Timeline.tl_end e.
Proof.
  unfold Timeline.containsTime. rational_ops.
  rewrite andb_true_iff, geb_ge, ltb_lt. tauto.
Qed.

(** A time between the accumulator and the end of the last entry lies in
    some entry, and [findIndex] stops at one. *)
Lemma findEntry_exists (realDurations : nat -> option Q) acc idx segs t last :
  lastElem (Timeline.timelineFrom realDurations acc idx segs) = Some last ->
  acc <= t -> t < Timeline.tl_end last ->
  exists i e,
    Timeline.findEntry (Timeline.timelineFrom realDurations acc idx segs) t = Some i /\
    nth_error (Timeline.timelineFrom realDurations acc idx segs) i = Some e /\
    Timeline.tl_start e <= t /\ t < Timeline.tl_end e.
Proof.
  revert acc idx. induction segs as [|seg rest IH]; intros acc idx Hlast Hlo Hhi.
  - discriminate.
  - unfold Timeline.findEntry. simpl.
    set (dur := Timeline.entryDuration realDurations seg (hd_error rest) idx) in *.
    rational_ops.
    destruct (Timeline.containsTime t (Timeline.mkEntry acc (acc + dur) dur)) eqn:Hc.
    + exists O, (Timeline.mkEntry acc (acc + dur) dur).
      apply containsTime_iff in Hc. simpl in Hc. simpl. tauto.
    + assert (Hge : acc + dur <= t).
      { unfold Timeline.containsTime in Hc. simpl in Hc. rational_ops.
        apply andb_false_iff in Hc. destruct Hc as [Hc|Hc].
        - apply geb_lt in Hc. exfalso. apply (Qlt_not_le _ _ Hc Hlo).
        - apply ltb_ge in Hc. exact Hc. }
      destruct rest as [|seg' rest'].
      * simpl in Hlast. inversion Hlast; subst last. simpl in Hhi.
        exfalso. apply (Qlt_not_le _ _ Hhi Hge).
      * rewrite timelineFrom_cons2 in Hlast. simpl hd_error in dur. fold dur in Hlast.
        rational_ops.
        destruct (timelineFrom_nonempty realDurations (acc + dur) (S idx) seg' rest')
          as (x & tl & Hx).
        rewrite Hx in Hlast. rewrite lastElem_cons in Hlast. rewrite <- Hx in Hlast.
        destruct (IH (acc + dur) (S idx) Hlast Hge Hhi) as (i & e & Hf & Hn & H1 & H2).
        exists (S i), e. unfold Timeline.findEntry in Hf. rewrite Hf.
        simpl. tauto.
Qed.

(** C2. Round trip between global and local time, in exact arithmetic: a
    global time in [0, totalDuration) lies in the entry [findIndex]
    reports, and that entry's start plus the offset into it is the global
    time again; when the entry is the segment being played,
    [handleGlobalSeekChange] stores that offset as the local time and
    [globalCurrentTime] reads the global time back. *)
Theorem global_local_round_trip (segments : list (StreamSegment Q))
    (realDurations : nat -> option Q) (st : Timeline.PlayerState Q) (t : Q) :
  let tl := Timeline.timeline segments realDurations in
  0 <= t -> t < Timeline.totalDuration tl ->
  exists i e,
    Timeline.findEntry tl t = Some i /\ nth_error tl i = Some e /\
    Timeline.tl_start e <= t /\ t < Timeline.tl_end e /\
    Timeline.globalCurrentTime tl i (t - Timeline.tl_start e) == t /\
    (Timeline.currentSegmentIndex st = i ->
     let st' := Timeline.handleGlobalSeekChange tl st t in
     Timeline.currentSegmentIndex st' = i /\
     Timeline.currentTime st' == t - Timeline.tl_start e /\
     Timeline.dragGlobalTime st' = Some t /\
     Timeline.globalCurrentTime tl (Timeline.currentSegmentIndex st')
       (Timeline.currentTime st') == t).
Proof.
  intros tl Hlo Hhi.
  assert (Hlast : exists last, lastElem tl = Some last /\ t < Timeline.tl_end last).
  { unfold Timeline.totalDuration in Hhi.
    destruct (lastElem tl) as [last|] eqn:Hl.
    - exists last. split; [reflexivity|].
      simpl option_map in Hhi. rational_ops. rewrite orNumber_Some_0 in Hhi. exact Hhi.
    - simpl in Hhi. exfalso. apply (Qlt_not_le _ _ Hhi Hlo). }
  destruct Hlast as (last & Hl & Hlt).
  destruct (findEntry_exists realDurations 0 O segments t last Hl Hlo Hlt)
    as (i & e & Hf & Hn & H1 & H2).
  change (Timeline.timelineFrom realDurations 0 0 segments) with tl in Hf, Hn.
  exists i, e.
  assert (Hback : Timeline.globalCurrentTime tl i (t - Timeline.tl_start e) == t).
  { unfold Timeline.globalCurrentTime. rewrite Hn. simpl option_map. rational_ops.
    rewrite orNumber_Some_0. ring. }
  repeat (split; [assumption|]).
  intros Hcur st'.
  unfold st', Timeline.handleGlobalSeekChange. rewrite Hf. simpl.
  rewrite Hcur, Nat.eqb_refl, Hn. simpl.
  split; [reflexivity|].
  assert (Hloc : t - (if Qeq_bool (Timeline.tl_start e) 0 then 0 else Timeline.tl_start e)
                 == t - Timeline.tl_start e).
  { destruct (Qeq_bool (Timeline.tl_start e) 0) eqn:E; [|reflexivity].
    apply Qeq_bool_iff in E. rewrite E. reflexivity. }
  split; [exact Hloc|].
  split; [reflexivity|].
  unfold Timeline.globalCurrentTime. rewrite Hn. simpl option_map. rational_ops.
  rewrite orNumber_Some_0, Hloc. ring.
Qed.

(** The scenario's seek: global time 1850 falls in segment 1, 50 seconds in. *)
Lemma global_local_round_trip_witness :
  let tl := Timeline.timeline Examples.threeSegments Examples.noRealDurations in
  let st := Timeline.mkPlayerState 1 (0 : Q) None in
  exists i e,
    Timeline.findEntry tl 1850 = Some i /\ nth_error tl i = Some e /\
    Timeline.tl_start e <= 1850 /\ 1850 < Timeline.tl_end e /\
    Timeline.globalCurrentTime tl i (1850 - Timeline.tl_start e) == 1850 /\
    (Timeline.currentSegmentIndex st = i ->
     let st' := Timeline.handleGlobalSeekChange tl st 1850 in
     Timeline.currentSegmentIndex st' = i /\
     Timeline.currentTime st' == 1850 - Timeline.tl_start e /\
     Timeline.dragGlobalTime st' = Some 1850 /\
     Timeline.globalCurrentTime tl (Timeline.currentSegmentIndex st')
       (Timeline.currentTime st') == 1850).
Proof.
  apply (global_local_round_trip Examples.threeSegments Examples.noRealDurations
           (Timeline.mkPlayerState 1 (0 : Q) None) 1850).
  - vm_compute. discriminate.
  - vm_compute. reflexivity.
Defined.

Example seek_1850 :
  let tl := Timeline.timeline Examples.threeSegments Examples.noRealDurations in
  Timeline.findEntry tl 1850 = Some 1%nat /\
  Timeline.currentTime
    (Timeline.handleGlobalSeekChange tl (Timeline.mkPlayerState 1 (0 : Q) None) 1850) == 50.
Proof. split; reflexivity. Qed.

(** In the code's doubles the way back can miss by a rounding: with
    segments of 1524.16 and 3000 seconds, the global time 3603.1 falls in
    segment 1, the local time stored is the double nearest to
    3603.1 - 1524.16, and the start plus that local time is the double
    below 3603.1, not 3603.1. *)
Lemma round_trip_rounds_in_binary64 :
  let tl := Timeline.timeline Examples.twoSegments64 Examples.noRealDurations in
  let t := decimal 36031 10 in
  let st' := Timeline.handleGlobalSeekChange tl
               (Timeline.mkPlayerState 1 PrimFloat.zero None) t in
  map Timeline.tl_start tl = [PrimFloat.zero; decimal 152416 100] /\
  Timeline.findEntry tl t = Some 1%nat /\
  Timeline.currentSegmentIndex st' = 1%nat /\
  PrimFloat.ltb PrimFloat.zero t = true /\
  PrimFloat.ltb t (Timeline.totalDuration tl) = true /\
  PrimFloat.eqb
    (Timeline.globalCurrentTime tl (Timeline.currentSegmentIndex st')
       (Timeline.currentTime st')) t = false /\
  PrimFloat.ltb
    (Timeline.globalCurrentTime tl (Timeline.currentSegmentIndex st')
       (Timeline.currentTime st')) t = true.
Proof. vm_compute. repeat split; reflexivity. Qed.

(** ** The content filters *)

Section FilterFacts.

Variable toLowerCase : string -> string.

(** An event passes the filters when the medal filter, if on, finds its
    level high enough, and no blocked keyword occurs in its text. *)
Lemma passesFilters_iff {T : Type} (fs : FilterSettings) (d : DanmakuItemOf T) :
  passesFilters toLowerCase fs d = true <->
  (medalFilterEnabled fs = true ->
     (minMedalLevel fs <= match medalLevel d with Some l => l | None => 0 end)%Z) /\
  (forall k, In k (blockedKeywords fs) ->
     includes (toLowerCase (content d)) (toLowerCase k) = false).
Proof.
  unfold passesFilters, belowMedalLevel, matchesBlockedKeyword.
  destruct (medalFilterEnabled fs); simpl.
  - destruct (Z.ltb_spec (match medalLevel d with Some l => l | None => 0%Z end)
                         (minMedalLevel fs)) as [Hlt|Hge].
    + split; [discriminate|]. intros [H _]. specialize (H eq_refl). lia.
    + destruct (blockedKeywords fs) as [|k ks] eqn:Hk.
      * simpl. split; [|reflexivity]. intros _. split; [auto|]. intros k [].
      * change (0 <? length (k :: ks))%nat with true. cbv iota.
        rewrite negb_true_iff. split.
        -- intros H. split; [auto|]. intros k' Hin.
           destruct (includes (toLowerCase (content d)) (toLowerCase k')) eqn:E; [|reflexivity].
           assert (Hex : existsb (fun k0 => includes (toLowerCase (content d)) (toLowerCase k0))
                                 (k :: ks) = true).
           { apply existsb_exists. exists k'. split; assumption. }
           congruence.
        -- intros [_ H].
           destruct (existsb (fun k0 => includes (toLowerCase (content d)) (toLowerCase k0))
                             (k :: ks)) eqn:E; [|reflexivity].
           apply existsb_exists in E. destruct E as (k' & Hin & Hinc).
           rewrite (H k' Hin) in Hinc. discriminate.
  - destruct (blockedKeywords fs) as [|k ks] eqn:Hk.
    + simpl. split; [|reflexivity]. intros _. split; [discriminate|]. intros k [].
    + change (0 <? length (k :: ks))%nat with true. cbv iota.
      rewrite negb_true_iff. split.
      * intros H. split; [discriminate|]. intros k' Hin.
        destruct (includes (toLowerCase (content d)) (toLowerCase k')) eqn:E; [|reflexivity].
        assert (Hex : existsb (fun k0 => includes (toLowerCase (content d)) (toLowerCase k0))
                              (k :: ks) = true).
        { apply existsb_exists. exists k'. split; assumption. }
        congruence.
      * intros [_ H].
        destruct (existsb (fun k0 => includes (toLowerCase (content d)) (toLowerCase k0))
                          (k :: ks)) eqn:E; [|reflexivity].
        apply existsb_exists in E. destruct E as (k' & Hin & Hinc).
        rewrite (H k' Hin) in Hinc. discriminate.
Qed.

(** ** The chat list *)

Lemma keep_eq (currentTime : Q) (fs : FilterSettings) (d : DanmakuItem) :
  ChatList.keep toLowerCase currentTime fs d
  = leb (time d) currentTime && passesFilters toLowerCase fs d.
Proof.
  unfold ChatList.keep. cbn [num_ltb rationals]. unfold ltb, leb.
  destruct (Qle_bool (time d) currentTime); reflexivity.
Qed.

(** The callback of the filter applies the three tests of the statement. *)
Lemma eligible_iff {T : Type} {N : JsNumber T} (currentTime : T)
    (fs : FilterSettings) (d : DanmakuItemOf T) :
  ChatList.eligible toLowerCase currentTime fs d = true <->
  num_ltb currentTime (time d) = false /\
  (medalFilterEnabled fs = true ->
     (minMedalLevel fs <= match medalLevel d with Some l => l | None => 0 end)%Z) /\
  (forall k, In k (blockedKeywords fs) ->
     includes (toLowerCase (content d)) (toLowerCase k) = false).
Proof.
  unfold ChatList.eligible, ChatList.notAfter, ChatList.medalHighEnough,
    ChatList.freeOfKeywords.
  rewrite !andb_true_iff, negb_true_iff, forallb_forall.
  split.
  - intros [[Ht Hm] Hk]. split; [exact Ht|]. split.
    + intros He. rewrite He in Hm. apply Z.leb_le in Hm. exact Hm.
    + intros k Hin. apply negb_true_iff. apply Hk. exact Hin.
  - intros (Ht & Hm & Hk). split; [split; [exact Ht|]|].
    + destruct (medalFilterEnabled fs); [|reflexivity].
      apply Z.leb_le. apply Hm. reflexivity.
    + intros k Hin. apply negb_true_iff. apply Hk. exact Hin.
Qed.

Lemma keep_eligible {T : Type} {N : JsNumber T} (currentTime : T)
    (fs : FilterSettings) (d : DanmakuItemOf T) :
  ChatList.keep toLowerCase currentTime fs d
  = ChatList.eligible toLowerCase currentTime fs d.
Proof.
  destruct (ChatList.eligible toLowerCase currentTime fs d) eqn:E.
  - apply eligible_iff in E. destruct E as (Ht & Hm & Hk).
    unfold ChatList.keep. rewrite Ht. apply passesFilters_iff. split; assumption.
  - destruct (ChatList.keep toLowerCase currentTime fs d) eqn:K; [|reflexivity].
    unfold ChatList.keep in K.
    destruct (num_ltb currentTime (time d)) eqn:Ht; [discriminate|].
    apply passesFilters_iff in K. destruct K as [Hm Hk].
    assert (E' : ChatList.eligible toLowerCase currentTime fs d = true).
    { apply eligible_iff. split; [exact Ht|]. split; assumption. }
    congruence.
Qed.

(** C10. The chat list holds at most 200 events, for events and a current
    time of any number type: the events that pass the three tests (the
    time is not after [currentTime], the medal level is high enough, no
    blocked keyword occurs), in sequence order, cut down to the last 200
    of them when there are more.  The time test is that
    [d.time > currentTime] is false: for numbers it is
    [time <= currentTime], and an event whose time is [NaN] passes it at
    every moment. *)
Theorem visibleChatList_last_200 :
  (forall (T : Type) (N : JsNumber T) (danmakuData : list (DanmakuItemOf T))
          (currentTime : T) (fs : FilterSettings),
     let passing := filter (ChatList.eligible toLowerCase currentTime fs) danmakuData in
     let shown := ChatList.visibleChatList toLowerCase danmakuData currentTime fs in
     (length shown <= 200)%nat /\
     length shown = Nat.min 200 (length passing) /\
     (exists older, passing = older ++ shown) /\
     shown = skipn (length passing - 200) passing /\
     (forall d, In d passing <->
        In d danmakuData /\ num_ltb currentTime (time d) = false /\
        (medalFilterEnabled fs = true ->
           (minMedalLevel fs <= match medalLevel d with Some l => l | None => 0 end)%Z) /\
        (forall k, In k (blockedKeywords fs) ->
           includes (toLowerCase (content d)) (toLowerCase k) = false))) /\
  (forall (currentTime : Q) (d : DanmakuItem),
     num_ltb currentTime (time d) = false <-> time d <= currentTime) /\
  (forall (currentTime : number) (d : DanmakuItemOf number),
     (num_ltb currentTime (time d) = false <->
      leN (time d) currentTime = true \/ time d = None \/ currentTime = None)).
Proof.
  split; [|split].
  - intros T N danmakuData currentTime fs passing shown.
    assert (Hfilt : filter (ChatList.keep toLowerCase currentTime fs) danmakuData = passing).
    { unfold passing. apply filter_ext. intros d. apply keep_eligible. }
    assert (Hshown : shown = skipn (length passing - 200) passing).
    { unfold shown, ChatList.visibleChatList. rewrite Hfilt.
      destruct (Nat.ltb_spec 200 (length passing)) as [Hgt|Hle]; [reflexivity|].
      replace (length passing - 200)%nat with O by lia. reflexivity. }
    assert (Hlen : length shown = Nat.min 200 (length passing)).
    { rewrite Hshown, length_skipn. lia. }
    split; [lia|]. split; [exact Hlen|].
    split.
    { exists (firstn (length passing - 200) passing).
      rewrite Hshown. symmetry. apply firstn_skipn. }
    split; [exact Hshown|].
    intros d. unfold passing. rewrite filter_In, eligible_iff. tauto.
  - intros currentTime d. cbn [num_ltb rationals]. rewrite ltb_ge. tauto.
  - intros currentTime d. cbn [num_ltb withNaN]. unfold ltN, leN.
    destruct currentTime as [c|], (time d) as [t|].
    + rewrite ltb_ge, leb_le. split.
      * intros H. left. exact H.
      * intros [H|[H|H]]; [exact H|discriminate|discriminate].
    + split; [intros _; right; left; reflexivity|reflexivity].
    + split; [intros _; right; right; reflexivity|reflexivity].
    + split; [intros _; right; left; reflexivity|reflexivity].
Qed.

End FilterFacts.

(** ** The overlay window *)

Section OverlayFacts.

Import VisibilityWindow.

Variable toLowerCase : string -> string.

Lemma clampedLen_clamp (d : DanmakuItem) :
  clampedLen d = Z.max 1 (Z.min 10 (Z.of_nat (String.length (content d)))).
Proof.
  unfold clampedLen.
  destruct (Z.eqb_spec (Z.of_nat (String.length (content d))) 0) as [E|E].
  - rewrite E. reflexivity.
  - destruct (Z.gtb_spec (Z.of_nat (String.length (content d))) 10);
      destruct (Z.ltb_spec (Z.of_nat (String.length (content d))) 1); lia.
Qed.

Lemma clampedLen_range (d : DanmakuItem) : (1 <= clampedLen d <= 10)%Z.
Proof. rewrite clampedLen_clamp. lia. Qed.

Lemma intrinsicFactor_range (d : DanmakuItem) :
  0.75 < intrinsicFactor d /\ intrinsicFactor d <= 1.
Proof.
  unfold intrinsicFactor.
  destruct (clampedLen_range d) as [Hlo Hhi].
  rewrite Zle_Qle in Hlo. rewrite Zle_Qle in Hhi.
  change (inject_Z 1) with 1 in Hlo. change (inject_Z 10) with 10 in Hhi.
  split; lra.
Qed.

(** No event is rendered for longer than the bound the window start is
    computed from. *)
Lemma actualDuration_le_max (speed : Q) (d : DanmakuItem) :
  0 < speed -> actualDuration speed d <= BASE_DURATION / (speed * 0.75).
Proof.
  intros Hs. unfold actualDuration, BASE_DURATION.
  destruct (intrinsicFactor_range d) as [Hlo Hhi].
  set (f := intrinsicFactor d) in *.
  assert (Hsf : 0 < speed * f).
  { apply Qmult_lt_0_compat; [exact Hs|lra]. }
  assert (Hs75 : 0 < speed * 0.75).
  { apply Qmult_lt_0_compat; [exact Hs|lra]. }
  apply Qle_shift_div_r; [exact Hsf|].
  assert (E : 16 / (speed * 0.75) * (speed * f) == 16 * f * (4 # 3)).
  { field. intros H0. rewrite H0 in Hs. apply (Qlt_irrefl 0 Hs). }
  rewrite E. lra.
Qed.

Lemma scan_In (speed : Q) (fs : FilterSettings) (smoothTime endTimeWindow : Q)
    (suffix : list DanmakuItem) (d : DanmakuItem) (dur : Q) :
  In (d, dur) (scan toLowerCase speed fs smoothTime endTimeWindow suffix) ->
  In d suffix /\ dur = actualDuration speed d.
Proof.
  induction suffix as [|x rest IH]; simpl; intros H; [contradiction|].
  destruct (gtb (time x) endTimeWindow); [contradiction|].
  destruct (geb (time x) (smoothTime - actualDuration speed x)).
  - destruct (passesFilters toLowerCase fs x).
    + destruct H as [H|H].
      * inversion H; subst. auto.
      * destruct (IH H). auto.
    + destruct (IH H). auto.
  - destruct (IH H). auto.
Qed.

Lemma visibleSet_nil_of (speed : Q) (fs : FilterSettings) (now : Q)
    (l : list DanmakuItem) :
  Forall (fun d => visibleAt toLowerCase speed fs now d = false) l ->
  visibleSet toLowerCase speed fs now l = [].
Proof.
  unfold visibleSet. induction 1 as [|d l Hd Hl IH]; simpl; [reflexivity|].
  rewrite Hd. exact IH.
Qed.

Lemma visibleSet_app (speed : Q) (fs : FilterSettings) (now : Q)
    (l1 l2 : list DanmakuItem) :
  visibleSet toLowerCase speed fs now (l1 ++ l2)
  = visibleSet toLowerCase speed fs now l1 ++ visibleSet toLowerCase speed fs now l2.
Proof. unfold visibleSet. rewrite filter_app, map_app. reflexivity. Qed.

(** On a sorted array the [break] loses nothing: the loop from the start
    of [suffix] collects the events of [suffix] that pass the tests. *)
Lemma scan_sorted (speed : Q) (fs : FilterSettings) (now : Q)
    (suffix : list DanmakuItem) :
  sortedByTime suffix ->
  scan toLowerCase speed fs now (now + 0.5) suffix
  = visibleSet toLowerCase speed fs now suffix.
Proof.
  induction 1 as [|d rest Hsorted IH Hall]; [reflexivity|].
  simpl scan. destruct (gtb (time d) (now + 0.5)) eqn:Hlate.
  - symmetry. apply visibleSet_nil_of.
    apply gtb_gt in Hlate.
    assert (Hd : forall x, time d <= time x ->
                 visibleAt toLowerCase speed fs now x = false).
    { intros x Hx. unfold visibleAt.
      assert (Hl : leb (time x) (now + 0.5) = false).
      { apply leb_gt. eapply Qlt_le_trans; eassumption. }
      rewrite Hl. reflexivity. }
    constructor.
    + apply Hd. apply Qle_refl.
    + eapply Forall_impl; [|exact Hall]. intros x Hx. apply Hd. exact Hx.
  - apply gtb_le in Hlate. apply leb_le in Hlate.
    unfold visibleSet in *. simpl filter. unfold visibleAt at 1. rewrite Hlate.
    simpl andb.
    destruct (geb (time d) (now - actualDuration speed d)); simpl andb.
    + destruct (passesFilters toLowerCase fs d); simpl; rewrite IH; reflexivity.
    + exact IH.
Qed.

Lemma sortedByTime_skipn (n : nat) (l : list DanmakuItem) :
  sortedByTime l -> sortedByTime (skipn n l).
Proof.
  revert l. induction n as [|n IH]; intros l H; [exact H|].
  destruct l as [|d rest]; [exact H|].
  simpl. apply IH. inversion H; assumption.
Qed.

(** The [while] loop moves the start index over events older than the
    window start, and over nothing else. *)
Lemma advance_spec (startTimeWindow : Q) (suffix : list DanmakuItem) (idx : nat) :
  exists n,
    advance startTimeWindow suffix idx = (idx + n)%nat /\
    (n <= length suffix)%nat /\
    Forall (fun d => time d < startTimeWindow) (firstn n suffix).
Proof.
  revert idx. induction suffix as [|d rest IH]; intros idx.
  - exists O. simpl. repeat split; auto with arith.
  - simpl. destruct rest as [|d' rest'].
    + exists O. simpl. repeat split; auto with arith.
    + destruct (ltb (time d) startTimeWindow) eqn:Hold.
      * destruct (IH (S idx)) as (n & Hn & Hlen & Hall).
        exists (S n). rewrite Hn. split; [lia|]. split; [simpl in *; lia|].
        simpl firstn. constructor; [|exact Hall]. apply ltb_lt. exact Hold.
      * exists O. simpl. repeat split; auto with arith.
Qed.

(** Events older than the window start have left the screen. *)
Lemma older_not_visible (speed : Q) (fs : FilterSettings) (now : Q) (d : DanmakuItem) :
  0 < speed ->
  time d < now - BASE_DURATION / (speed * 0.75) ->
  visibleAt toLowerCase speed fs now d = false.
Proof.
  intros Hs Hold. unfold visibleAt.
  assert (Hg : geb (time d) (now - actualDuration speed d) = false).
  { apply geb_lt. pose proof (actualDuration_le_max speed d Hs). lra. }
  rewrite Hg. rewrite andb_false_r. reflexivity.
Qed.

Lemma visibleSet_skip_older (speed : Q) (fs : FilterSettings) (now : Q)
    (n : nat) (l : list DanmakuItem) :
  0 < speed ->
  Forall (fun d => time d < now - BASE_DURATION / (speed * 0.75)) (firstn n l) ->
  visibleSet toLowerCase speed fs now (skipn n l)
  = visibleSet toLowerCase speed fs now l.
Proof.
  intros Hs Hall.
  transitivity (visibleSet toLowerCase speed fs now (firstn n l ++ skipn n l));
    [|rewrite firstn_skipn; reflexivity].
  rewrite visibleSet_app.
  rewrite (visibleSet_nil_of speed fs now (firstn n l)); [reflexivity|].
  eapply Forall_impl; [|exact Hall].
  intros d Hd. apply older_not_visible; assumption.
Qed.

(** What a frame renders from any cursor: the visible events from the
    start index on. *)
Lemma overlay_from_cursor (danmakuData : list DanmakuItem) (speed : Q)
    (fs : FilterSettings) (now : Q) (cursor : nat) :
  sortedByTime danmakuData ->
  fst (activeOverlayDanmaku toLowerCase true danmakuData speed fs now cursor)
  = visibleSet toLowerCase speed fs now
      (skipn (startIndexFor danmakuData speed now cursor) danmakuData).
Proof.
  intros Hsorted. unfold activeOverlayDanmaku.
  destruct danmakuData as [|d rest].
  - simpl. rewrite skipn_nil. reflexivity.
  - change (negb true || (length (d :: rest) =? 0)%nat) with false. cbv iota.
    simpl fst. apply scan_sorted. apply sortedByTime_skipn. exact Hsorted.
Qed.

(** While the playback time does not go back, the cursor stays behind the
    window and the frame renders the whole visible set. *)
Lemma overlay_cursor_behind (danmakuData : list DanmakuItem) (speed : Q)
    (fs : FilterSettings) (now : Q) (cursor : nat) :
  0 < speed -> sortedByTime danmakuData ->
  cursorBehindWindow danmakuData speed now cursor ->
  fst (activeOverlayDanmaku toLowerCase true danmakuData speed fs now cursor)
    = visibleSet toLowerCase speed fs now danmakuData /\
  forall later, now <= later ->
    cursorBehindWindow danmakuData speed later
      (snd (activeOverlayDanmaku toLowerCase true danmakuData speed fs now cursor)).
Proof.
  intros Hs Hsorted Hbehind.
  assert (Hk : cursorBehindWindow danmakuData speed now
                 (startIndexFor danmakuData speed now cursor)).
  { unfold startIndexFor.
    set (stw := now - BASE_DURATION / (speed * 0.75)).
    set (c := match nth_error danmakuData cursor with
              | Some d => if gtb (time d) (stw + 10) then O else cursor
              | None => cursor
              end).
    assert (Hc : cursorBehindWindow danmakuData speed now c).
    { unfold c. destruct (nth_error danmakuData cursor); [|exact Hbehind].
      destruct (gtb _ _); [constructor|exact Hbehind]. }
    destruct (advance_spec stw (skipn c danmakuData) c) as (n & Hn & _ & Hall).
    rewrite Hn. unfold cursorBehindWindow.
    rewrite firstn_plus. apply Forall_app. split; assumption. }
  split.
  - rewrite overlay_from_cursor by exact Hsorted.
    apply visibleSet_skip_older; assumption.
  - intros later Hlater.
    assert (Hsnd : cursorBehindWindow danmakuData speed now
                     (snd (activeOverlayDanmaku toLowerCase true danmakuData speed fs now cursor))).
    { unfold activeOverlayDanmaku.
      destruct (negb true || (length danmakuData =? 0)%nat); [exact Hbehind|exact Hk]. }
    unfold cursorBehindWindow in *.
    eapply Forall_impl; [|exact Hsnd]. simpl. intros x Hx. lra.
Qed.

(** Playback that does not go back: from a cursor behind the window of
    the first frame, every frame of the run renders the visible set. *)
Lemma renderFrames_forward (danmakuData : list DanmakuItem) (speed : Q)
    (fs : FilterSettings) (frames : list Q) :
  0 < speed -> sortedByTime danmakuData ->
  forall (cursor : nat) (now : Q),
    cursorBehindWindow danmakuData speed now cursor ->
    StronglySorted Qle (now :: frames) ->
    renderFrames toLowerCase true danmakuData speed fs cursor frames
    = map (fun t => visibleSet toLowerCase speed fs t danmakuData) frames.
Proof.
  intros Hs Hsorted. induction frames as [|t rest IH]; intros cursor now Hb Hmono.
  - reflexivity.
  - inversion Hmono as [|? ? Hrest Hall]; subst.
    inversion Hall as [|? ? Hnt Hall']; subst.
    assert (Hbt : cursorBehindWindow danmakuData speed t cursor).
    { unfold cursorBehindWindow in *. eapply Forall_impl; [|exact Hb].
      simpl. intros x Hx. lra. }
    destruct (overlay_cursor_behind danmakuData speed fs t cursor Hs Hsorted Hbt)
      as [Hr Hc].
    cbn [renderFrames map].
    destruct (activeOverlayDanmaku toLowerCase true danmakuData speed fs t cursor)
      as [rendered cursor'] eqn:E.
    simpl fst in Hr. simpl snd in Hc. rewrite Hr. f_equal.
    apply (IH cursor' t); [apply Hc; apply Qle_refl|exact Hrest].
Qed.

(** C3. The overlay window, with its lookahead: on a time-sorted
    sequence, with a positive speed and a cursor that is behind the window
    (a fresh one, or one left by playback that did not go back), a frame
    renders the events with [time <= now + 0.5] and [time >= now - duration]
    that pass the filters, each with its own duration, and no others. *)
Theorem overlay_window_with_lookahead (danmakuData : list DanmakuItem)
    (speed : Q) (fs : FilterSettings) (now : Q) (cursor : nat) :
  0 < speed -> sortedByTime danmakuData ->
  cursorBehindWindow danmakuData speed now cursor ->
  let rendered :=
    fst (activeOverlayDanmaku toLowerCase true danmakuData speed fs now cursor) in
  rendered = visibleSet toLowerCase speed fs now danmakuData /\
  forall d dur,
    In (d, dur) rendered <->
    (In d danmakuData /\ dur = actualDuration speed d /\
     time d <= now + 0.5 /\ now - dur <= time d /\
     passesFilters toLowerCase fs d = true).
Proof.
  intros Hs Hsorted Hbehind rendered.
  assert (Heq : rendered = visibleSet toLowerCase speed fs now danmakuData).
  { apply (overlay_cursor_behind danmakuData speed fs now cursor Hs Hsorted Hbehind). }
  split; [exact Heq|].
  intros d dur. rewrite Heq. unfold visibleSet. rewrite in_map_iff. split.
  - intros (x & Hx & Hin). inversion Hx; subst.
    apply filter_In in Hin. destruct Hin as [Hin Hv].
    unfold visibleAt in Hv. apply andb_true_iff in Hv. destruct Hv as [Hv Hp].
    apply andb_true_iff in Hv. destruct Hv as [Hl Hg].
    apply leb_le in Hl. apply geb_ge in Hg. auto.
  - intros (Hin & Hdur & Hl & Hg & Hp). exists d. subst dur. split; [reflexivity|].
    apply filter_In. split; [exact Hin|].
    unfold visibleAt. apply leb_le in Hl. apply geb_ge in Hg.
    rewrite Hl, Hg, Hp. reflexivity.
Qed.

(** C9. The duration of an event, which the window tests it with and a
    rendered event carries: 16 over the speed times the factor, the
    factor falling by 0.25 x 0.1111 per character past the first, up to
    ten characters. *)
Theorem rendered_duration :
  (forall (speed : Q) (d : DanmakuItem),
     let clampedLen := Z.max 1 (Z.min 10 (Z.of_nat (String.length (content d)))) in
     let intrinsicFactor := 1 - 0.25 * ((inject_Z clampedLen - 1) * 0.1111) in
     actualDuration speed d == 16 / (speed * intrinsicFactor)) /\
  (forall (show : bool) (danmakuData : list DanmakuItem) (speed : Q)
          (fs : FilterSettings) (smoothTime : Q) (cursor : nat)
          (d : DanmakuItem) (dur : Q),
     In (d, dur)
        (fst (activeOverlayDanmaku toLowerCase show danmakuData speed fs
                smoothTime cursor)) ->
     dur = actualDuration speed d /\ smoothTime - dur <= time d).
Proof.
  split.
  - intros speed d clamped factor.
    unfold actualDuration, BASE_DURATION, intrinsicFactor.
    rewrite clampedLen_clamp. fold clamped.
    apply Qdiv_comp; [reflexivity|]. unfold factor. ring.
  - intros show danmakuData speed fs smoothTime cursor d dur Hin.
    unfold activeOverlayDanmaku in Hin.
    destruct (negb show || (length danmakuData =? 0)%nat); [contradiction|].
    simpl fst in Hin.
    split; [apply scan_In in Hin; tauto|].
    revert Hin.
    generalize (skipn (startIndexFor danmakuData speed smoothTime cursor) danmakuData).
    intros suffix. induction suffix as [|x rest IH]; simpl; [contradiction|].
    destruct (gtb (time x) (smoothTime + 0.5)); [contradiction|].
    destruct (geb (time x) (smoothTime - actualDuration speed x)) eqn:Hg; [|exact IH].
    destruct (passesFilters toLowerCase fs x); [|exact IH].
    intros [H|H]; [|exact (IH H)].
    inversion H; subst. apply geb_ge in Hg. exact Hg.
Qed.

End OverlayFacts.

(** *** The window on one event: time 5.0, one character, speed 8, so
    that its duration is 2.0 *)

Example eventAt5_duration :
  VisibilityWindow.actualDuration 8 (Examples.textItem 5.0 "a") == 2.0.
Proof. reflexivity. Qed.

(** Rendered at 6.9 and, ahead of its arrival, at 4.9; not rendered at
    7.1, nor at 4.4. *)
Example eventAt5_frames :
  let d := Examples.textItem 5.0 "a" in
  let frame now :=
    fst (VisibilityWindow.activeOverlayDanmaku asciiLower true [d] 8
           Examples.noFilters now 0) in
  frame 6.9 = [(d, VisibilityWindow.actualDuration 8 d)] /\
  frame 7.1 = [] /\
  frame 4.9 = [(d, VisibilityWindow.actualDuration 8 d)] /\
  frame 4.4 = [].
Proof. repeat split; reflexivity. Qed.

Lemma overlay_window_with_lookahead_witness :
  let d := Examples.textItem 5.0 "a" in
  let rendered :=
    fst (VisibilityWindow.activeOverlayDanmaku asciiLower true [d] 8
           Examples.noFilters 6.9 0) in
  rendered = VisibilityWindow.visibleSet asciiLower 8 Examples.noFilters 6.9 [d] /\
  forall d' dur,
    In (d', dur) rendered <->
    (In d' [d] /\ dur = VisibilityWindow.actualDuration 8 d' /\
     time d' <= 6.9 + 0.5 /\ 6.9 - dur <= time d' /\
     passesFilters asciiLower Examples.noFilters d' = true).
Proof.
  apply (overlay_window_with_lookahead asciiLower
           [Examples.textItem 5.0 "a"] 8 Examples.noFilters 6.9 0).
  - reflexivity.
  - repeat constructor.
  - constructor.
Defined.

(** At 4.9 the event has not arrived, and the frame renders it. *)
Lemma overlay_renders_before_arrival :
  let d := Examples.textItem 5.0 "a" in
  VisibilityWindow.actualDuration 8 d == 2.0 /\
  VisibilityWindow.arrivedNotExited 4.9 d 2.0 = false /\
  fst (VisibilityWindow.activeOverlayDanmaku asciiLower true [d] 8
         Examples.noFilters 4.9 0)
    = [(d, VisibilityWindow.actualDuration 8 d)].
Proof. repeat split; reflexivity. Qed.

(** *** The duration of a ten-character event at speed 1 *)

Lemma rendered_duration_witness :
  let d := Examples.textItem 0 "0123456789" in
  let dur := 16 / (1 * (1 - (inject_Z 10 - 1) * 0.1111 * 0.25)) in
  dur = VisibilityWindow.actualDuration 1 d /\ 0 - dur <= time d.
Proof.
  apply (proj2 (rendered_duration asciiLower) true
           [Examples.textItem 0 "0123456789"] 1 Examples.noFilters 0 0%nat).
  left. reflexivity.
Defined.

(** The factor of ten characters is 0.750025, not 0.75: the rendered
    duration is 16 / 0.750025, not 16 / 0.75. *)
Lemma rendered_duration_not_ninth :
  let d := Examples.textItem 0 "0123456789" in
  exists dur,
    fst (VisibilityWindow.activeOverlayDanmaku asciiLower true [d] 1
           Examples.noFilters 0 0) = [(d, dur)] /\
    dur == 16 / 0.750025 /\
    VisibilityWindow.ninthDuration 1 d == 16 / 0.75 /\
    ~ dur == VisibilityWindow.ninthDuration 1 d.
Proof.
  exists (VisibilityWindow.actualDuration 1 (Examples.textItem 0 "0123456789")).
  repeat split; try reflexivity.
  intros H. vm_compute in H. discriminate H.
Qed.

(** *** The cursor after a short seek backward *)

(** C4, at the failing input.  Two one-character events at 26 and 29
    seconds, speed 1, no filters.  The frame at 50 leaves the cursor at
    index 1.  After a seek back to 41 the cursor's event (29) is not more
    than 10 seconds past the window start (41 - 16/0.75), so the cursor is
    kept, and the frame renders the event at 29 alone; scanned from index
    0 the frame renders both events: the one at 26 is 15 seconds old and
    lasts 16. *)
Lemma cursor_drops_event_after_short_seek_back :
  let e26 := Examples.textItem 26 "a" in
  let e29 := Examples.textItem 29 "b" in
  let data := [e26; e29] in
  let frame := VisibilityWindow.activeOverlayDanmaku asciiLower true data 1
                 Examples.noFilters in
  let cursor := VisibilityWindow.cursorAfter asciiLower true data 1
                  Examples.noFilters 0 [50] in
  VisibilityWindow.sortedByTime data /\
  cursor = 1%nat /\
  snd (frame 41 cursor) = 1%nat /\
  fst (frame 41 cursor) = [(e29, VisibilityWindow.actualDuration 1 e29)] /\
  fst (frame 41 0%nat) = [(e26, VisibilityWindow.actualDuration 1 e26);
                          (e29, VisibilityWindow.actualDuration 1 e29)] /\
  VisibilityWindow.visibleSet asciiLower 1 Examples.noFilters 41 data
    = fst (frame 41 0%nat).
Proof.
  split.
  - repeat constructor. simpl. vm_compute. discriminate.
  - repeat split; reflexivity.
Qed.

(** ** The playback clock *)

Section ClockFacts.

Import PlaybackClock.

(** A frame while the video plays: a position that differs from the last
    sample becomes the new base and the output. *)
Lemma update_snap (v : Video) (now : Q) (st : ClockState) :
  paused v = false -> (3 <= readyState v)%Z ->
  ~ v_currentTime v == lastVideoTimeRef st ->
  update (Some v) now st = mkClock (v_currentTime v) now (v_currentTime v) true.
Proof.
  intros Hp Hr Hne. unfold update. rewrite Hp.
  assert (Hr' : (3 <=? readyState v)%Z = true) by (apply Z.leb_le; exact Hr).
  rewrite Hr'. simpl.
  destruct (Qeq_bool (v_currentTime v) (lastVideoTimeRef st)) eqn:E; [|reflexivity].
  apply Qeq_bool_iff in E. contradiction.
Qed.

(** A frame while the video plays and reports the position of the last
    sample: the output runs ahead of it by the elapsed wall time at the
    playback rate, a rate of 0 counting as 1; the base is kept. *)
Lemma update_extrapolate (v : Video) (now : Q) (st : ClockState) :
  paused v = false -> (3 <= readyState v)%Z ->
  v_currentTime v == lastVideoTimeRef st ->
  update (Some v) now st
  = mkClock (v_currentTime v
             + (now - lastUpdateRef st) / 1000
               * (if Qeq_bool (playbackRate v) 0 then 1 else playbackRate v))
            (lastUpdateRef st) (lastVideoTimeRef st) true.
Proof.
  intros Hp Hr He. unfold update. rewrite Hp.
  assert (Hr' : (3 <=? readyState v)%Z = true) by (apply Z.leb_le; exact Hr).
  rewrite Hr'. simpl.
  apply Qeq_bool_iff in He. rewrite He. reflexivity.
Qed.

(** C8. The clock.  On a frame while the video plays (not paused, ready
    state at least 3): when the reported position differs from the last
    sampled one, forward or backward, the output is exactly that position;
    otherwise it is the last sampled position plus the elapsed wall
    seconds times the playback rate, a rate of 0 counting as 1.  For the
    samples (0 s, 1.0), (0.5 s, 1.0), (1.0 s, 2.0) at rate 1.0 the outputs
    are 1.5 and 2.0.  While not playing the output is the raw position,
    and frames do not move it. *)
Theorem clock_snap_or_extrapolate :
  (forall (v : Video) (now : Q) (st : ClockState),
     paused v = false -> (3 <= readyState v)%Z ->
     let st' := update (Some v) now st in
     let rate := if Qeq_bool (playbackRate v) 0 then 1 else playbackRate v in
     (~ v_currentTime v == lastVideoTimeRef st ->
        smoothTime st' = v_currentTime v /\
        lastVideoTimeRef st' = v_currentTime v /\ lastUpdateRef st' = now) /\
     (v_currentTime v == lastVideoTimeRef st ->
        smoothTime st'
          == lastVideoTimeRef st + (now - lastUpdateRef st) / 1000 * rate /\
        lastVideoTimeRef st' = lastVideoTimeRef st /\
        lastUpdateRef st' = lastUpdateRef st)) /\
  (let playing pos := Some (mkVideo false 4 pos 1.0) in
   let out := outputs (mount 1.0 0)
                [ RunEffect true 1.0 (playing 1.0) 0;
                  Frame (playing 1.0) 500;
                  Frame (playing 2.0) 1000 ] in
   Forall2 Qeq out [1.0; 1.5; 2.0] /\ nth 2 out 0 = 2.0) /\
  (forall (currentTime : Q) (video : option Video) (now : Q) (st : ClockState),
     let st' := effect false currentTime video now st in
     smoothTime st' = currentTime /\
     (forall video' later, step st' (Frame video' later) = st') /\
     (forall v later st0, paused v = true ->
        smoothTime (update (Some v) later st0) = smoothTime st0)).
Proof.
  split; [|split].
  - intros v now st Hp Hr st' rate. split.
    + intros Hne. unfold st'. rewrite (update_snap v now st Hp Hr Hne).
      simpl. auto.
    + intros He. unfold st'. rewrite (update_extrapolate v now st Hp Hr He).
      simpl. fold rate. split; [|auto]. rewrite He. reflexivity.
  - simpl. split; [|reflexivity].
    repeat constructor; reflexivity.
  - intros currentTime video now st st'. split; [reflexivity|]. split.
    + intros video' later. reflexivity.
    + intros v later st0 Hp. unfold update. rewrite Hp. reflexivity.
Qed.

End ClockFacts.

(** The rule at the second sample of the sequence: the position is still
    1.0 after half a second at rate 1.0. *)
Lemma clock_snap_or_extrapolate_witness :
  let v := PlaybackClock.mkVideo false 4 1.0 1.0 in
  let st := PlaybackClock.mkClock 1.0 0 1.0 true in
  let st' := PlaybackClock.update (Some v) 500 st in
  (~ 1.0 == 1.0 ->
     PlaybackClock.smoothTime st' = 1.0 /\
     PlaybackClock.lastVideoTimeRef st' = 1.0 /\
     PlaybackClock.lastUpdateRef st' = 500) /\
  (1.0 == 1.0 ->
     PlaybackClock.smoothTime st' == 1.0 + (500 - 0) / 1000 * 1.0 /\
     PlaybackClock.lastVideoTimeRef st' = 1.0 /\
     PlaybackClock.lastUpdateRef st' = 0).
Proof.
  apply (proj1 clock_snap_or_extrapolate
           (PlaybackClock.mkVideo false 4 1.0 1.0) 500
           (PlaybackClock.mkClock 1.0 0 1.0 true)).
  - reflexivity.
  - vm_compute. discriminate.
Defined.

(** A playback rate of 0 is not multiplied in, and a position that went
    back is snapped to: after half a second the output is 1.5 where the
    product with the rate gives 1.0, and 0.5 where extrapolation from the
    last sample gives 1.5. *)
Lemma clock_rate_zero_and_seek_back :
  let st := PlaybackClock.mkClock 1.0 0 1.0 true in
  let stalled := PlaybackClock.mkVideo false 4 1.0 0 in
  let wentBack := PlaybackClock.mkVideo false 4 0.5 1.0 in
  (PlaybackClock.smoothTime (PlaybackClock.update (Some stalled) 500 st) == 1.5 /\
   ~ PlaybackClock.smoothTime (PlaybackClock.update (Some stalled) 500 st)
     == 1.0 + (500 - 0) / 1000 * 0) /\
  (PlaybackClock.smoothTime (PlaybackClock.update (Some wentBack) 500 st) == 0.5 /\
   ~ PlaybackClock.smoothTime (PlaybackClock.update (Some wentBack) 500 st)
     == 1.0 + (500 - 0) / 1000 * 1.0).
Proof.
  repeat split; try reflexivity; intros H; vm_compute in H; discriminate H.
Qed.

(** ** The decoder's order *)

Lemma insertBy_perm {A : Type} (le : A -> A -> bool) (x : A) (l : list A) :
  Permutation (insertBy le x l) (x :: l).
Proof.
  induction l as [|y rest IH]; simpl; [apply Permutation_refl|].
  destruct (le x y); [apply Permutation_refl|].
  eapply Permutation_trans; [apply perm_skip; exact IH|]. apply perm_swap.
Qed.

Lemma sortBy_perm {A : Type} (le : A -> A -> bool) (l : list A) :
  Permutation (sortBy le l) l.
Proof.
  induction l as [|x rest IH]; simpl; [constructor|].
  eapply Permutation_trans; [apply insertBy_perm|]. apply perm_skip. exact IH.
Qed.

Section DecoderFacts.

Import LogDecoder VisibilityWindow.

Lemma byTime_le (a b : DanmakuItem) : byTime a b = true <-> time a <= time b.
Proof.
  unfold byTime. rewrite negb_true_iff, gtb_le. split; intros H; lra.
Qed.

Lemma byTime_gt (a b : DanmakuItem) : byTime a b = false <-> time b < time a.
Proof.
  unfold byTime. rewrite negb_false_iff, gtb_gt. split; intros H; lra.
Qed.

Lemma insertBy_byTime_sorted (x : DanmakuItem) (l : list DanmakuItem) :
  sortedByTime l -> sortedByTime (insertBy byTime x l).
Proof.
  unfold sortedByTime.
  induction 1 as [|y rest Hsorted IH Hall]; simpl.
  - repeat constructor.
  - destruct (byTime x y) eqn:Hle.
    + apply byTime_le in Hle. constructor; [constructor; assumption|].
      constructor; [exact Hle|].
      eapply Forall_impl; [|exact Hall]. simpl. intros z Hz.
      eapply Qle_trans; eassumption.
    + apply byTime_gt in Hle. constructor; [exact IH|].
      eapply Permutation_Forall; [apply Permutation_sym, insertBy_perm|].
      constructor; [apply Qlt_le_weak; exact Hle|exact Hall].
Qed.

Lemma sortBy_byTime_sorted (l : list DanmakuItem) : sortedByTime (sortBy byTime l).
Proof.
  induction l as [|x rest IH]; simpl.
  - constructor.
  - apply insertBy_byTime_sorted. exact IH.
Qed.

(** The sort is stable, and leaves a sorted array as it is: the player's
    own [items.sort] on the decoder's output changes nothing. *)
Lemma insertBy_byTime_before (x : DanmakuItem) (l : list DanmakuItem) :
  Forall (fun y => time x <= time y) l -> insertBy byTime x l = x :: l.
Proof.
  intros H. destruct H as [|y rest Hy Hrest]; simpl; [reflexivity|].
  apply byTime_le in Hy. rewrite Hy. reflexivity.
Qed.

Lemma sortBy_byTime_sorted_id (l : list DanmakuItem) :
  sortedByTime l -> sortBy byTime l = l.
Proof.
  induction 1 as [|x rest Hsorted IH Hall]; simpl; [reflexivity|].
  rewrite IH. apply insertBy_byTime_before. exact Hall.
Qed.

(** Lane assignment writes [trackIndex] and nothing else. *)
Lemma assignTracksFrom_times (free : list Q) (items : list DanmakuItem) :
  map time (assignTracksFrom free items) = map time items.
Proof.
  revert free. induction items as [|x rest IH]; intros free; simpl; [reflexivity|].
  rewrite IH. reflexivity.
Qed.

Lemma assignTracksFrom_untracked (free : list Q) (items : list DanmakuItem) :
  map (fun d => setTrackIndex d 0) (assignTracksFrom free items)
  = map (fun d => setTrackIndex d 0) items.
Proof.
  revert free. induction items as [|x rest IH]; intros free; simpl; [reflexivity|].
  rewrite IH. reflexivity.
Qed.

Lemma sortedByTime_times (l l' : list DanmakuItem) :
  map time l = map time l' -> sortedByTime l -> sortedByTime l'.
Proof.
  unfold sortedByTime. revert l'.
  induction l as [|x rest IH]; intros l' Hmap Hsorted.
  - destruct l'; [constructor|discriminate].
  - destruct l' as [|x' rest']; [discriminate|].
    simpl in Hmap. injection Hmap as Hx Hrest.
    inversion Hsorted as [|? ? Hs Hall]; subst.
    constructor; [apply IH; assumption|].
    rewrite <- Hx.
    apply Forall_forall. intros y Hy.
    assert (Hin : In (time y) (map time rest)).
    { rewrite Hrest. apply in_map. exact Hy. }
    apply in_map_iff in Hin. destruct Hin as (z & Hz & Hzin).
    rewrite <- Hz. rewrite Forall_forall in Hall. apply Hall. exact Hzin.
Qed.

(** *** Events whose times are numbers, among the events the decoder builds *)

Lemma numeric_finite (d : DanmakuItemOf number) :
  time d <> None -> numeric (finite d) = d.
Proof.
  destruct d as [t ? ? ? ? ? ? ? ? ? ? ? ? ? ? ?]. simpl. intros H.
  destruct t as [t|]; [reflexivity|contradiction].
Qed.

Lemma map_numeric_finite (l : list (DanmakuItemOf number)) :
  Forall (fun d => time d <> None) l -> map numeric (map finite l) = l.
Proof.
  induction 1 as [|d rest Hd Hrest IH]; simpl; [reflexivity|].
  rewrite IH, numeric_finite by exact Hd. reflexivity.
Qed.

Lemma nondecreasing_numeric (l : list DanmakuItem) :
  sortedByTime l -> nondecreasing (map numeric l).
Proof.
  unfold sortedByTime, nondecreasing.
  induction 1 as [|x rest Hs IH Hall]; simpl; [constructor|].
  constructor; [exact IH|].
  apply Forall_map. eapply Forall_impl; [|exact Hall].
  intros y Hy. simpl. apply leb_le. exact Hy.
Qed.

(** A sequence of two events or more that is in order holds no event
    whose time is [NaN]. *)
Lemma nondecreasing_no_NaN (l : list (DanmakuItemOf number)) :
  nondecreasing l -> (2 <= length l)%nat -> Forall (fun d => time d <> None) l.
Proof.
  unfold nondecreasing. intros Hs Hlen.
  destruct Hs as [|x rest Hrest Hall]; [simpl in Hlen; lia|].
  destruct rest as [|y rest]; [simpl in Hlen; lia|].
  assert (Hx : time x <> None).
  { inversion Hall as [|? ? Hy _]; subst. unfold leN in Hy.
    destruct (time x); [discriminate|discriminate Hy]. }
  constructor; [exact Hx|].
  eapply Forall_impl; [|exact Hall]. intros z Hz. cbv beta in Hz |- *.
  unfold leN in Hz. destruct (time x); [|discriminate Hz].
  destruct (time z); [discriminate|discriminate Hz].
Qed.

Lemma nondecreasing_nth (l : list (DanmakuItemOf number)) :
  nondecreasing l ->
  forall i a b, nth_error l i = Some a -> nth_error l (S i) = Some b ->
    leN (time a) (time b) = true.
Proof.
  unfold nondecreasing.
  induction 1 as [|x rest Hs IH Hall]; intros i a b Ha Hb.
  - destruct i; discriminate.
  - destruct i as [|i]; simpl in Ha, Hb.
    + inversion Ha; subst. rewrite Forall_forall in Hall. apply Hall.
      destruct rest; [discriminate|]. simpl in Hb. inversion Hb. left. reflexivity.
    + eapply IH; eassumption.
Qed.

(** *** The sort and the lanes on such events *)

Lemma byTimeN_numeric (a b : DanmakuItem) : byTimeN (numeric a) (numeric b) = byTime a b.
Proof. reflexivity. Qed.

Lemma insertBy_map {A B : Type} (f : A -> B) (le : A -> A -> bool)
    (le' : B -> B -> bool) :
  (forall a b, le' (f a) (f b) = le a b) ->
  forall x l, insertBy le' (f x) (map f l) = map f (insertBy le x l).
Proof.
  intros Hle x l. induction l as [|y rest IH]; simpl; [reflexivity|].
  rewrite Hle. destruct (le x y); simpl; [reflexivity|]. rewrite IH. reflexivity.
Qed.

Lemma sortBy_map {A B : Type} (f : A -> B) (le : A -> A -> bool)
    (le' : B -> B -> bool) :
  (forall a b, le' (f a) (f b) = le a b) ->
  forall l, sortBy le' (map f l) = map f (sortBy le l).
Proof.
  intros Hle l. unfold sortBy. induction l as [|x rest IH]; simpl; [reflexivity|].
  rewrite IH. apply insertBy_map. exact Hle.
Qed.

Lemma firstFitN_numeric (free : list Q) (tm : Q) (n t : nat) :
  firstFitN (map Some free) (Some tm) t n = firstFit free tm t n.
Proof.
  revert t. induction n as [|n IH]; intros t; simpl; [reflexivity|].
  rewrite nth_error_map. destruct (nth_error free t) as [f|]; simpl.
  - destruct (leb f tm); [reflexivity|apply IH].
  - apply IH.
Qed.

Lemma leastBusyN_numeric (free : list Q) (n t : nat) (minTime : option Q) (best : Z) :
  leastBusyN (map Some free) t n (option_map Some minTime) best
  = leastBusy free t n minTime best.
Proof.
  revert t minTime best. induction n as [|n IH]; intros t minTime best; simpl;
    [reflexivity|].
  rewrite nth_error_map. destruct (nth_error free t) as [f|]; simpl.
  - destruct minTime as [m|]; simpl.
    + destruct (ltb f m).
      * apply (IH (S t) (Some f)).
      * apply (IH (S t) (Some m)).
    + apply (IH (S t) (Some f)).
  - apply IH.
Qed.

Lemma leastBusyN_numeric_start (free : list Q) (n t : nat) (best : Z) :
  leastBusyN (map Some free) t n None best = leastBusy free t n None best.
Proof. exact (leastBusyN_numeric free n t None best). Qed.

Lemma chooseTrackN_numeric (free : list Q) (item : DanmakuItem) :
  chooseTrackN (map Some free) (numeric item) = chooseTrack free item.
Proof.
  unfold chooseTrackN, chooseTrack.
  replace (time (numeric item)) with (Some (time item)) by reflexivity.
  rewrite firstFitN_numeric, leastBusyN_numeric_start.
  destruct item; reflexivity.
Qed.

Lemma setAt_map {A B : Type} (f : A -> B) (l : list A) (k : nat) (v : A) :
  setAt (map f l) k (f v) = map f (setAt l k v).
Proof.
  revert k. induction l as [|x rest IH]; intros k; simpl; [reflexivity|].
  destruct k as [|k]; simpl; [reflexivity|]. rewrite IH. reflexivity.
Qed.

Lemma assignTrackN_numeric (free : list Q) (item : DanmakuItem) :
  assignTrackN (map Some free) (numeric item)
  = (numeric (fst (assignTrack free item)), map Some (snd (assignTrack free item))).
Proof.
  unfold assignTrackN, assignTrack. rewrite chooseTrackN_numeric.
  generalize (chooseTrack free item). intros bestTrack. cbn [fst snd].
  destruct (0 <=? bestTrack)%Z; [|reflexivity].
  replace (addN (time (numeric item)) (Some 3.0)) with (Some (time item + 3.0))
    by reflexivity.
  rewrite setAt_map. reflexivity.
Qed.

Lemma assignTracksFromN_numeric (items : list DanmakuItem) :
  forall free : list Q,
    assignTracksFromN (map Some free) (map numeric items)
    = map numeric (assignTracksFrom free items).
Proof.
  induction items as [|x rest IH]; intros free; [reflexivity|].
  cbn [map assignTracksFromN assignTracksFrom].
  rewrite assignTrackN_numeric.
  destruct (assignTrack free x) as [item' free']. cbn [fst snd map].
  rewrite IH. reflexivity.
Qed.

(** On events whose times are numbers the decoder's lanes are the lanes
    of [assignTracks]. *)
Lemma assignTracksN_numeric (items : list DanmakuItem) :
  assignTracksN (map numeric items) = map numeric (assignTracks items).
Proof.
  unfold assignTracksN, assignTracks.
  rewrite <- (assignTracksFromN_numeric items (repeat 0 TOTAL_TRACKS)).
  rewrite map_repeat. reflexivity.
Qed.

(** Lane assignment writes [trackIndex] and nothing else, whatever the
    times. *)
Lemma assignTracksFromN_untracked (free : list number)
    (items : list (DanmakuItemOf number)) :
  map (fun d => setTrackIndex d 0) (assignTracksFromN free items)
  = map (fun d => setTrackIndex d 0) items.
Proof.
  revert free. induction items as [|x rest IH]; intros free; simpl; [reflexivity|].
  rewrite IH. reflexivity.
Qed.

Variable parseFloat : string -> number.
Variable parseInt : string -> Z.
Variable decodeRaw : option string -> option string -> RawMeta.

Lemma rawItems_untracked (dElements : list DElement) :
  map (fun d => setTrackIndex d 0) (rawItems parseFloat parseInt decodeRaw dElements)
  = rawItems parseFloat parseInt decodeRaw dElements.
Proof.
  induction dElements as [|e rest IH]; simpl; [reflexivity|].
  destruct (decodeElement parseFloat parseInt decodeRaw e) as [item|] eqn:E; [|exact IH].
  simpl. rewrite IH. f_equal.
  unfold decodeElement in E. destruct (pAttr e) as [[|c p]|]; try discriminate.
  inversion E. reflexivity.
Qed.

Lemma rawItems_numeric (dElements : list DElement) :
  numericLog parseFloat dElements ->
  Forall (fun d => time d <> None) (rawItems parseFloat parseInt decodeRaw dElements).
Proof.
  induction 1 as [|e rest He Hrest IH]; simpl; [constructor|].
  destruct (decodeElement parseFloat parseInt decodeRaw e) as [item|] eqn:E; [|exact IH].
  constructor; [|exact IH].
  unfold decodeElement in E. unfold timeField in He.
  destruct (pAttr e) as [[|c p]|]; try discriminate.
  inversion E; subst item. simpl. exact He.
Qed.

(** On a log whose times are all numbers the decoder is the stable sort
    and the lanes of the events read as numbers. *)
Lemma decoder_on_numeric_log (dElements : list DElement) :
  numericLog parseFloat dElements ->
  let items := map finite (rawItems parseFloat parseInt decodeRaw dElements) in
  rawItems parseFloat parseInt decodeRaw dElements = map numeric items /\
  parseDanmakuXml parseFloat parseInt decodeRaw dElements
  = map numeric (assignTracks (sortBy byTime items)).
Proof.
  intros Hlog items.
  assert (Hraw : rawItems parseFloat parseInt decodeRaw dElements = map numeric items).
  { unfold items. symmetry. apply map_numeric_finite. apply rawItems_numeric. exact Hlog. }
  split; [exact Hraw|].
  unfold parseDanmakuXml. rewrite Hraw.
  rewrite (sortBy_map numeric byTime byTimeN byTimeN_numeric).
  apply assignTracksN_numeric.
Qed.

Lemma decoder_sorted_on_numeric_log (dElements : list DElement) :
  numericLog parseFloat dElements ->
  exists items : list DanmakuItem,
    parseDanmakuXml parseFloat parseInt decodeRaw dElements = map numeric items /\
    sortedByTime items.
Proof.
  intros Hlog. destruct (decoder_on_numeric_log dElements Hlog) as [_ Hout].
  eexists. split; [exact Hout|].
  unfold assignTracks.
  eapply sortedByTime_times; [symmetry; apply assignTracksFrom_times|].
  apply sortBy_byTime_sorted.
Qed.

(** C6. Whatever the order of the records in a chat log whose records
    all have a number for their time, the decoder's output is in
    non-decreasing order of time; it holds the decoded records, each
    once, with a lane written into it (this for any log). *)
Theorem parseDanmakuXml_sorted (dElements : list DElement) :
  numericLog parseFloat dElements ->
  let out := parseDanmakuXml parseFloat parseInt decodeRaw dElements in
  nondecreasing out /\
  (forall i a b, nth_error out i = Some a -> nth_error out (S i) = Some b ->
     leN (time a) (time b) = true) /\
  Permutation (map (fun d => setTrackIndex d 0) out)
              (rawItems parseFloat parseInt decodeRaw dElements) /\
  (exists items : list DanmakuItem, out = map numeric items /\ sortedByTime items).
Proof.
  intros Hlog out.
  destruct (decoder_sorted_on_numeric_log dElements Hlog) as (items & Hout & Hsorted).
  fold out in Hout.
  assert (Hnd : nondecreasing out).
  { rewrite Hout. apply nondecreasing_numeric. exact Hsorted. }
  split; [exact Hnd|]. split; [apply nondecreasing_nth; exact Hnd|]. split.
  - unfold out, parseDanmakuXml, assignTracksN.
    rewrite assignTracksFromN_untracked.
    rewrite <- (rawItems_untracked dElements) at 2.
    apply Permutation_map. apply sortBy_perm.
  - exists items. split; assumption.
Qed.

End DecoderFacts.

(** A log with records at 7, 2 and 3 seconds and one record without a
    position: the output has the three events in the order 2, 3, 7. *)
Example parse_shuffledLog :
  map (fun d => (time d, content d))
      (LogDecoder.parseDanmakuXml Examples.readTime Examples.readInt
         Examples.plainMeta Examples.shuffledLog)
  = [(Some (inject_Z 2), "first"%string); (Some (inject_Z 3), "second"%string);
     (Some (inject_Z 7), "third"%string)].
Proof. reflexivity. Qed.

Lemma parseDanmakuXml_sorted_witness :
  let out := LogDecoder.parseDanmakuXml Examples.readTime Examples.readInt
               Examples.plainMeta Examples.shuffledLog in
  LogDecoder.nondecreasing out /\
  (forall i a b, nth_error out i = Some a -> nth_error out (S i) = Some b ->
     leN (time a) (time b) = true) /\
  Permutation (map (fun d => setTrackIndex d 0) out)
              (LogDecoder.rawItems Examples.readTime Examples.readInt
                 Examples.plainMeta Examples.shuffledLog) /\
  (exists items : list DanmakuItem,
     out = map numeric items /\ VisibilityWindow.sortedByTime items).
Proof.
  apply (parseDanmakuXml_sorted Examples.readTime Examples.readInt Examples.plainMeta
           Examples.shuffledLog).
  repeat constructor; vm_compute; discriminate.
Defined.

(** A record whose time field holds no number is kept, with [NaN] for its
    time: with records at 5, [abc] and 3 the output has the three events,
    it is not in order, and no arrangement of them is. *)
Lemma decoder_keeps_a_record_without_a_time :
  let out := LogDecoder.parseDanmakuXml Examples.readTime Examples.readInt
               Examples.plainMeta Examples.logWithoutATime in
  map (fun d => (time d, content d)) out
  = [(Some 5, "first"%string); (None, "second"%string); (Some 3, "third"%string)] /\
  ~ LogDecoder.nondecreasing out /\
  (exists i a b, nth_error out i = Some a /\ nth_error out (S i) = Some b /\
                 leN (time a) (time b) = false) /\
  (forall arrangement, Permutation arrangement out ->
     ~ LogDecoder.nondecreasing arrangement).
Proof.
  intros out.
  assert (Htimes : map time out = [Some 5; None; Some 3])
    by (vm_compute; reflexivity).
  assert (Hno : forall arrangement, Permutation arrangement out ->
                  ~ LogDecoder.nondecreasing arrangement).
  { intros arrangement Hperm Hnd.
    assert (Hlen : (2 <= length arrangement)%nat).
    { rewrite (Permutation_length Hperm), <- (length_map time), Htimes. simpl. lia. }
    pose proof (nondecreasing_no_NaN arrangement Hnd Hlen) as Hall.
    assert (Hin : In None (map time arrangement)).
    { eapply Permutation_in; [apply Permutation_map, Permutation_sym; exact Hperm|].
      rewrite Htimes. right. left. reflexivity. }
    apply in_map_iff in Hin. destruct Hin as (d & Ht & Hd).
    rewrite Forall_forall in Hall. apply (Hall d Hd). exact Ht. }
  split; [vm_compute; reflexivity|].
  split; [apply Hno; apply Permutation_refl|]. split.
  - destruct out as [|a [|b rest]] eqn:E; try discriminate Htimes.
    exists O, a, b. split; [reflexivity|]. split; [reflexivity|].
    simpl in Htimes. injection Htimes as Ha Hb _. rewrite Ha, Hb. reflexivity.
  - exact Hno.
Qed.

(** On such a log the chat list shows, at time 0, the record whose time
    is [NaN], and [time <= currentTime] is false of it. *)
Lemma chat_list_shows_a_record_without_a_time :
  let danmakuData := LogDecoder.parseDanmakuXml Examples.readTime Examples.readInt
                       Examples.plainMeta Examples.logWithoutATime in
  let shown := ChatList.visibleChatList asciiLower danmakuData (Some 0)
                 Examples.noFilters in
  map (fun d => (time d, content d)) shown = [(None, "second"%string)] /\
  exists d, In d shown /\ leN (time d) (Some 0) = false.
Proof.
  intros danmakuData shown.
  assert (Hshown : map (fun d => (time d, content d)) shown = [(None, "second"%string)])
    by (vm_compute; reflexivity).
  split; [exact Hshown|].
  destruct shown as [|d rest]; [discriminate Hshown|].
  exists d. split; [left; reflexivity|].
  simpl in Hshown. injection Hshown as Ht _ _. rewrite Ht. reflexivity.
Qed.

(** ** Lane assignment *)

Lemma setAt_length {A : Type} (l : list A) (k : nat) (v : A) :
  (k < length l)%nat -> length (setAt l k v) = length l.
Proof.
  revert k. induction l as [|x rest IH]; intros k Hk; simpl in *; [lia|].
  destruct k as [|k]; simpl; [reflexivity|].
  rewrite IH by lia. reflexivity.
Qed.

Lemma nth_error_setAt_eq {A : Type} (l : list A) (k : nat) (v : A) :
  (k < length l)%nat -> nth_error (setAt l k v) k = Some v.
Proof.
  revert k. induction l as [|x rest IH]; intros k Hk; simpl in *; [lia|].
  destruct k as [|k]; simpl; [reflexivity|]. apply IH. lia.
Qed.

Lemma nth_error_setAt_ne {A : Type} (l : list A) (k t : nat) (v : A) :
  (k < length l)%nat -> t <> k -> nth_error (setAt l k v) t = nth_error l t.
Proof.
  revert k t. induction l as [|x rest IH]; intros k t Hk Hne; simpl in *; [lia|].
  destruct k as [|k]; destruct t as [|t]; simpl; try reflexivity; try lia.
  apply IH; lia.
Qed.

Lemma StronglySorted_snoc {A : Type} (R : A -> A -> Prop) (l : list A) (x : A) :
  StronglySorted R l -> Forall (fun a => R a x) l -> StronglySorted R (l ++ [x]).
Proof.
  induction 1 as [|a rest Hs IH Hall]; intros Hx; simpl.
  - repeat constructor.
  - inversion Hx; subst. constructor; [apply IH; assumption|].
    apply Forall_app. split; [exact Hall|]. constructor; [assumption|constructor].
Qed.

Lemma StronglySorted_app_head {A : Type} (R : A -> A -> Prop) (l1 l2 : list A) (x : A) :
  StronglySorted R (l1 ++ x :: l2) -> Forall (fun a => R a x) l1.
Proof.
  induction l1 as [|a rest IH]; simpl; intros H; [constructor|].
  inversion H as [|? ? Hs Hall]; subst. constructor.
  - rewrite Forall_forall in Hall. apply Hall. apply in_or_app. right. left. reflexivity.
  - apply IH. exact Hs.
Qed.

Lemma StronglySorted_nth {A : Type} (R : A -> A -> Prop) (l : list A) :
  StronglySorted R l ->
  forall i j a b, (i < j)%nat -> nth_error l i = Some a -> nth_error l j = Some b -> R a b.
Proof.
  induction 1 as [|x rest Hs IH Hall]; intros i j a b Hij Ha Hb.
  - destruct i; discriminate.
  - destruct j as [|j]; [lia|]. simpl in Hb. destruct i as [|i]; simpl in Ha.
    + inversion Ha; subst. rewrite Forall_forall in Hall. apply Hall.
      eapply nth_error_In. exact Hb.
    + apply (IH i j); [lia|assumption|assumption].
Qed.

Section LaneFacts.

Import LogDecoder VisibilityWindow.

(** The first loop either finds every lane it looks at busy, or stops at
    a lane that is free. *)
Lemma firstFit_cases (free : list Q) (tm : Q) (n t : nat) :
  (firstFit free tm t n = (-1)%Z /\
   forall k f, (t <= k < t + n)%nat -> nth_error free k = Some f -> tm < f) \/
  (exists k f, firstFit free tm t n = Z.of_nat k /\ (t <= k < t + n)%nat /\
               nth_error free k = Some f /\ f <= tm).
Proof.
  revert t. induction n as [|n IH]; intros t; simpl.
  - left. split; [reflexivity|]. intros; lia.
  - destruct (nth_error free t) as [f|] eqn:Ef.
    + destruct (leb f tm) eqn:Hle.
      * right. exists t, f. apply leb_le in Hle. repeat split; auto; lia.
      * apply leb_gt in Hle.
        destruct (IH (S t)) as [[Hnone Hall]|(k & f' & Hk & Hr & Hn & Hf)].
        -- left. split; [exact Hnone|]. intros k f' Hk Hn.
           destruct (Nat.eq_dec k t) as [->|Hne].
           ++ rewrite Ef in Hn. inversion Hn; subst. exact Hle.
           ++ apply (Hall k f'); [lia|exact Hn].
        -- right. exists k, f'. repeat split; auto; lia.
    + destruct (IH (S t)) as [[Hnone Hall]|(k & f' & Hk & Hr & Hn & Hf)].
      * left. split; [exact Hnone|]. intros k f' Hk Hn.
        destruct (Nat.eq_dec k t) as [->|Hne]; [congruence|].
        apply (Hall k f'); [lia|exact Hn].
      * right. exists k, f'. repeat split; auto; lia.
Qed.

Lemma leastBusy_range (free : list Q) (n t : nat) (minTime : option Q) (best : Z) :
  leastBusy free t n minTime best = best \/
  exists k, (t <= k < t + n)%nat /\ leastBusy free t n minTime best = Z.of_nat k.
Proof.
  revert t minTime best. induction n as [|n IH]; intros t minTime best; simpl.
  - left. reflexivity.
  - destruct (nth_error free t) as [f|].
    + destruct (match minTime with None => true | Some m => ltb f m end).
      * right. destruct (IH (S t) (Some f) (Z.of_nat t)) as [H|(k & Hk & H)].
        -- exists t. split; [lia|exact H].
        -- exists k. split; [lia|exact H].
      * destruct (IH (S t) minTime best) as [H|(k & Hk & H)].
        -- left. exact H.
        -- right. exists k. split; [lia|exact H].
    + destruct (IH (S t) minTime best) as [H|(k & Hk & H)].
      * left. exact H.
      * right. exists k. split; [lia|exact H].
Qed.

Lemma leastBusy_first (free : list Q) (n t : nat) (f : Q) (best : Z) :
  nth_error free t = Some f ->
  leastBusy free t (S n) None best = leastBusy free (S t) n (Some f) (Z.of_nat t).
Proof. intros H. simpl. rewrite H. reflexivity. Qed.

(** With 16 lanes every event gets one of them: when none is free the
    second loop settles on a lane, and the fallback on the server
    timestamp is never reached. *)
Lemma chooseTrack_range (free : list Q) (item : DanmakuItem) :
  length free = TOTAL_TRACKS ->
  exists k, (k < TOTAL_TRACKS)%nat /\ chooseTrack free item = Z.of_nat k.
Proof.
  intros Hlen. unfold chooseTrack.
  destruct (firstFit_cases free (time item) TOTAL_TRACKS 0)
    as [[Hnone _]|(k & f & Hk & Hr & _)].
  - rewrite Hnone. change ((-1 =? -1)%Z) with true. cbv iota.
    assert (Hk : exists k, (k < TOTAL_TRACKS)%nat /\
                 leastBusy free 0 TOTAL_TRACKS None (-1)%Z = Z.of_nat k).
    { destruct free as [|f0 rest]; [discriminate|].
      change TOTAL_TRACKS with (S 15).
      rewrite (leastBusy_first (f0 :: rest) 15 0 f0 (-1)%Z eq_refl).
      destruct (leastBusy_range (f0 :: rest) 15 1 (Some f0) (Z.of_nat 0))
        as [H|(k & Hk & H)].
      - exists O. split; [lia|exact H].
      - exists k. split; [lia|exact H]. }
    destruct Hk as (k & Hk & Hbest). rewrite Hbest.
    assert (Hneq : (Z.of_nat k =? -1)%Z = false) by (apply Z.eqb_neq; lia).
    rewrite Hneq. exists k. auto.
  - rewrite Hk.
    assert (Hneq : (Z.of_nat k =? -1)%Z = false) by (apply Z.eqb_neq; lia).
    rewrite Hneq. cbv iota. rewrite Hneq. exists k. split; [lia|reflexivity].
Qed.

(** The chosen lane is held until the event's time plus 3.0. *)
Lemma assignTrack_holds (free : list Q) (item : DanmakuItem) :
  length free = TOTAL_TRACKS ->
  exists k, (k < TOTAL_TRACKS)%nat /\
    chooseTrack free item = Z.of_nat k /\
    assignTrack free item
      = (setTrackIndex item (Z.of_nat k), setAt free k (time item + 3.0)) /\
    nth_error (snd (assignTrack free item)) k = Some (time item + 3.0).
Proof.
  intros Hlen. destruct (chooseTrack_range free item Hlen) as (k & Hk & Hc).
  exists k. split; [exact Hk|]. split; [exact Hc|].
  assert (Ha : assignTrack free item
               = (setTrackIndex item (Z.of_nat k), setAt free k (time item + 3.0))).
  { unfold assignTrack. rewrite Hc.
    assert (Hnn : (0 <=? Z.of_nat k)%Z = true) by (apply Z.leb_le; lia).
    rewrite Hnn, Nat2Z.id. reflexivity. }
  split; [exact Ha|]. rewrite Ha. simpl.
  apply nth_error_setAt_eq. lia.
Qed.

(** The count of active events looks at the times only. *)
Lemma activeCount_times (tau : Q) (l l' : list DanmakuItem) :
  map time l = map time l' -> activeCount tau l = activeCount tau l'.
Proof.
  unfold activeCount. revert l'. induction l as [|x rest IH]; intros l' H.
  - destruct l'; [reflexivity|discriminate].
  - destruct l' as [|x' rest']; [discriminate|].
    simpl in H. injection H as Hx Hrest. simpl.
    assert (E : activeAt tau x = activeAt tau x').
    { unfold activeAt. rewrite Hx. reflexivity. }
    rewrite E. pose proof (IH rest' Hrest) as Hlen.
    destruct (activeAt tau x'); simpl; lia.
Qed.

(** When the first [n] lanes are all busy at [tau], [n] different events
    given lanes so far are active at [tau]. *)
Lemma busy_lanes_hold (done : list DanmakuItem) (free : list Q) (tau : Q) (n : nat) :
  laneInvariant done free -> (n <= TOTAL_TRACKS)%nat -> 0 <= tau ->
  Forall (fun d => time d <= tau) done ->
  (forall k f, (k < n)%nat -> nth_error free k = Some f -> tau < f) ->
  exists W, length W = n /\ NoDup W /\ incl W (filter (activeAt tau) done) /\
            Forall (fun d => (trackIndex d < Z.of_nat n)%Z) W.
Proof.
  intros (Hlen & Hdone & Hfree) Hn Htau Hold.
  induction n as [|n IH]; intros Hbusy.
  - exists []. simpl. repeat split; [constructor|intros x []|constructor].
  - destruct IH as (W & HW & Hnd & Hincl & Hlt);
      [lia|intros k f Hk Hf; apply (Hbusy k f); [lia|exact Hf]|].
    destruct (nth_error free n) as [f|] eqn:Ef.
    2:{ apply nth_error_None in Ef. lia. }
    assert (Hf : tau < f) by (apply (Hbusy n f); [lia|exact Ef]).
    destruct (Hfree n f Ef) as (d & Hd & Htrack & Hfd); [lra|].
    exists (d :: W). simpl. split; [lia|]. split; [|split].
    + constructor; [|exact Hnd]. intros Hin. rewrite Forall_forall in Hlt.
      specialize (Hlt d Hin). lia.
    + intros x [<-|Hx]; [|apply Hincl; exact Hx].
      apply filter_In. split; [exact Hd|].
      unfold activeAt. rewrite Forall_forall in Hold.
      apply andb_true_iff. split.
      * apply leb_le. apply Hold. exact Hd.
      * apply ltb_lt. rewrite <- Hfd. exact Hf.
    + constructor; [lia|]. eapply Forall_impl; [|exact Hlt]. simpl. intros a Ha. lia.
Qed.

(** One turn of the loop, when fewer than 16 of the events before [x] are
    still active at its time: [x] gets a lane that is free, and the
    invariant goes on. *)
Lemma assignTrack_free_lane (done : list DanmakuItem) (free : list Q) (x : DanmakuItem) :
  laneInvariant done free ->
  Forall (fun d => time d <= time x) done -> 0 <= time x ->
  (length (filter (activeAt (time x)) done) < TOTAL_TRACKS)%nat ->
  exists k, (k < TOTAL_TRACKS)%nat /\
    assignTrack free x = (setTrackIndex x (Z.of_nat k), setAt free k (time x + 3.0)) /\
    laneInvariant (done ++ [setTrackIndex x (Z.of_nat k)]) (setAt free k (time x + 3.0)) /\
    Forall (fun d => heldApart d (setTrackIndex x (Z.of_nat k))) done.
Proof.
  intros Hinv Hold Hpos Hcount.
  destruct (firstFit_cases free (time x) TOTAL_TRACKS 0)
    as [[_ Hbusy]|(k & f & Hk & Hr & Hn & Hf)].
  - exfalso.
    destruct (busy_lanes_hold done free (time x) TOTAL_TRACKS Hinv (Nat.le_refl _) Hpos Hold)
      as (W & HW & Hnd & Hincl & _).
    { intros k f Hk. apply Hbusy. lia. }
    pose proof (NoDup_incl_length Hnd Hincl). lia.
  - destruct Hinv as (Hlen & Hdone & Hfree).
    assert (Hk16 : (k < TOTAL_TRACKS)%nat) by lia.
    assert (Hneq : (Z.of_nat k =? -1)%Z = false) by (apply Z.eqb_neq; lia).
    assert (Hc : chooseTrack free x = Z.of_nat k).
    { unfold chooseTrack. rewrite Hk, Hneq. cbv iota. rewrite Hneq. reflexivity. }
    exists k. split; [exact Hk16|]. split; [|split].
    + unfold assignTrack. rewrite Hc.
      assert (Hnn : (0 <=? Z.of_nat k)%Z = true) by (apply Z.leb_le; lia).
      rewrite Hnn, Nat2Z.id. reflexivity.
    + split; [|split].
      * rewrite setAt_length; [exact Hlen|lia].
      * intros d Hin. apply in_app_or in Hin. destruct Hin as [Hin|[<-|[]]].
        -- destruct (Hdone d Hin) as (k0 & f0 & Ht & Hn0 & Hle).
           destruct (Nat.eq_dec k0 k) as [->|Hne].
           ++ exists k, (time x + 3.0). split; [exact Ht|].
              split; [apply nth_error_setAt_eq; lia|].
              rewrite Forall_forall in Hold. specialize (Hold d Hin). lra.
           ++ exists k0, f0. split; [exact Ht|].
              split; [rewrite nth_error_setAt_ne; [exact Hn0|lia|exact Hne]|exact Hle].
        -- exists k, (time x + 3.0). split; [reflexivity|].
           split; [apply nth_error_setAt_eq; lia|apply Qle_refl].
      * intros k0 f0 Hn0 Hf0. destruct (Nat.eq_dec k0 k) as [->|Hne].
        -- rewrite nth_error_setAt_eq in Hn0 by lia. inversion Hn0; subst.
           exists (setTrackIndex x (Z.of_nat k)).
           split; [apply in_or_app; right; left; reflexivity|]. split; reflexivity.
        -- rewrite nth_error_setAt_ne in Hn0; [|lia|exact Hne].
           destruct (Hfree k0 f0 Hn0 Hf0) as (d & Hd & Ht & He).
           exists d. split; [apply in_or_app; left; exact Hd|]. split; assumption.
    + apply Forall_forall. intros d Hin Hsame. simpl in Hsame.
      destruct (Hdone d Hin) as (k0 & f0 & Ht & Hn0 & Hle).
      assert (k0 = k) by lia. subst k0.
      rewrite Hn in Hn0. inversion Hn0; subst f0.
      simpl. lra.
Qed.

Lemma assignTracksFrom_cons (free : list Q) (x : DanmakuItem) (rest : list DanmakuItem) :
  assignTracksFrom free (x :: rest)
  = fst (assignTrack free x) :: assignTracksFrom (snd (assignTrack free x)) rest.
Proof.
  cbn [assignTracksFrom]. destruct (assignTrack free x) as [item' free'].
  reflexivity.
Qed.

(** The loop on a sequence in which never more than 16 events are active:
    events on one lane are held apart, and every lane is one of the 16. *)
Lemma assignTracksFrom_lanes (rest : list DanmakuItem) :
  forall (done : list DanmakuItem) (free : list Q),
    laneInvariant done free ->
    StronglySorted heldApart done ->
    sortedByTime (done ++ rest) ->
    Forall (fun d => 0 <= time d) rest ->
    (forall tau, (activeCount tau (done ++ rest) <= TOTAL_TRACKS)%nat) ->
    StronglySorted heldApart (done ++ assignTracksFrom free rest) /\
    Forall (fun d => (0 <= trackIndex d < Z.of_nat TOTAL_TRACKS)%Z)
           (assignTracksFrom free rest).
Proof.
  induction rest as [|x rest IH]; intros done free Hinv Hheld Hsorted Hpos Hcount.
  - simpl. rewrite app_nil_r. split; [exact Hheld|constructor].
  - inversion Hpos as [|? ? Hx Hrest]; subst.
    assert (Hold : Forall (fun d => time d <= time x) done).
    { apply (StronglySorted_app_head _ done rest x Hsorted). }
    assert (Hfew : (length (filter (activeAt (time x)) done) < TOTAL_TRACKS)%nat).
    { specialize (Hcount (time x)). unfold activeCount in Hcount.
      rewrite filter_app, length_app in Hcount. simpl in Hcount.
      assert (Hself : activeAt (time x) x = true).
      { unfold activeAt. apply andb_true_iff. split.
        - apply leb_le. apply Qle_refl.
        - apply ltb_lt. lra. }
      rewrite Hself in Hcount. simpl in Hcount. lia. }
    destruct (assignTrack_free_lane done free x Hinv Hold Hx Hfew)
      as (k & Hk & Hassign & Hinv' & Happart).
    rewrite assignTracksFrom_cons, Hassign. cbn [fst snd].
    set (x' := setTrackIndex x (Z.of_nat k)) in *.
    assert (Htimes : map time ((done ++ [x']) ++ rest) = map time (done ++ x :: rest)).
    { rewrite <- app_assoc. rewrite !map_app. reflexivity. }
    destruct (IH (done ++ [x']) (setAt free k (time x + 3.0))) as [Hs Hr].
    + exact Hinv'.
    + apply StronglySorted_snoc; assumption.
    + eapply sortedByTime_times; [symmetry; exact Htimes|exact Hsorted].
    + exact Hrest.
    + intros tau. rewrite (activeCount_times tau _ _ Htimes). apply Hcount.
    + rewrite <- app_assoc in Hs. simpl in Hs. split; [exact Hs|].
      constructor; [|exact Hr]. unfold x'. simpl. unfold TOTAL_TRACKS in *. lia.
Qed.

(** C5. On a time-sorted sequence of events with times from 0 on, in
    which at most 16 events are active at any moment (an event is active
    from its time for 3.0 seconds), the lanes assigned are among the 16,
    no two simultaneously active events share a lane, and a lane is not
    given to a later event before the earlier event's time plus 3.0, the
    time its free-at entry is set to. *)
Theorem lanes_do_not_overlap (items : list DanmakuItem) :
  sortedByTime items ->
  Forall (fun d => 0 <= time d) items ->
  (forall tau, (activeCount tau items <= 16)%nat) ->
  let out := assignTracks items in
  map (fun d => setTrackIndex d 0) out = map (fun d => setTrackIndex d 0) items /\
  (forall d, In d out -> (0 <= trackIndex d < 16)%Z) /\
  (forall i j a b, (i < j)%nat -> nth_error out i = Some a -> nth_error out j = Some b ->
     (simultaneouslyActive a b -> trackIndex a <> trackIndex b) /\
     (trackIndex a = trackIndex b -> time a + 3.0 <= time b)) /\
  (forall tracksFreeTime item, length tracksFreeTime = 16%nat ->
     exists k, (k < 16)%nat /\ chooseTrack tracksFreeTime item = Z.of_nat k /\
       nth_error (snd (assignTrack tracksFreeTime item)) k = Some (time item + 3.0)).
Proof.
  intros Hsorted Hpos Hcount out.
  split; [apply assignTracksFrom_untracked|].
  destruct (assignTracksFrom_lanes items [] (repeat 0 TOTAL_TRACKS)) as [Hheld Hrange].
  - split; [apply repeat_length|]. split; [intros d []|].
    intros k f Hn Hf. apply nth_error_In in Hn. apply repeat_spec in Hn.
    subst f. exfalso. apply (Qlt_irrefl 0 Hf).
  - constructor.
  - exact Hsorted.
  - exact Hpos.
  - exact Hcount.
  - simpl app in Hheld. fold (assignTracks items) in Hheld, Hrange. fold out in Hheld, Hrange.
    split; [|split].
    + intros d Hin. rewrite Forall_forall in Hrange. apply (Hrange d Hin).
    + intros i j a b Hij Ha Hb.
      pose proof (StronglySorted_nth _ _ Hheld i j a b Hij Ha Hb) as Hab.
      split; [|exact Hab].
      intros (tau & Hact_a & Hact_b) Hsame.
      specialize (Hab Hsame). unfold activeAt in *.
      apply andb_true_iff in Hact_a. destruct Hact_a as [_ Ha2].
      apply andb_true_iff in Hact_b. destruct Hact_b as [Hb1 _].
      apply ltb_lt in Ha2. apply leb_le in Hb1. lra.
    + intros free item Hlen.
      destruct (assignTrack_holds free item Hlen) as (k & Hk & Hc & _ & Hn).
      exists k. auto.
Qed.

End LaneFacts.

Lemma activeCount_le_length (tau : Q) (items : list DanmakuItem) :
  (LogDecoder.activeCount tau items <= length items)%nat.
Proof. apply filter_length_le. Qed.

(** Events at 0, 1 and 5 seconds: the second cannot share lane 0, the
    third can. *)
Example lanes_of_three :
  map trackIndex
      (LogDecoder.assignTracks
         [Examples.textItem 0 "a"; Examples.textItem 1 "b"; Examples.textItem 5 "c"])
  = [0; 1; 0]%Z.
Proof. reflexivity. Qed.

Lemma lanes_do_not_overlap_witness :
  let items := [Examples.textItem 0 "a"; Examples.textItem 1 "b"; Examples.textItem 5 "c"] in
  let out := LogDecoder.assignTracks items in
  map (fun d => setTrackIndex d 0) out = map (fun d => setTrackIndex d 0) items /\
  (forall d, In d out -> (0 <= trackIndex d < 16)%Z) /\
  (forall i j a b, (i < j)%nat -> nth_error out i = Some a -> nth_error out j = Some b ->
     (LogDecoder.simultaneouslyActive a b -> trackIndex a <> trackIndex b) /\
     (trackIndex a = trackIndex b -> time a + 3.0 <= time b)) /\
  (forall tracksFreeTime item, length tracksFreeTime = 16%nat ->
     exists k, (k < 16)%nat /\ LogDecoder.chooseTrack tracksFreeTime item = Z.of_nat k /\
       nth_error (snd (LogDecoder.assignTrack tracksFreeTime item)) k
         = Some (time item + 3.0)).
Proof.
  apply (lanes_do_not_overlap
           [Examples.textItem 0 "a"; Examples.textItem 1 "b"; Examples.textItem 5 "c"]).
  - repeat constructor; vm_compute; discriminate.
  - repeat constructor; vm_compute; discriminate.
  - intros tau. eapply Nat.le_trans; [apply activeCount_le_length|]. simpl. lia.
Defined.

(** Before time 0 every lane counts as busy: two events at -10 and -9,
    both active at -9, are both forced onto lane 0. *)
Lemma lanes_overlap_before_time_zero :
  let a := Examples.textItem (-10) "a" in
  let b := Examples.textItem (-9) "b" in
  VisibilityWindow.sortedByTime [a; b] /\
  (forall tau, (LogDecoder.activeCount tau [a; b] <= 16)%nat) /\
  LogDecoder.activeAt (-9) a = true /\ LogDecoder.activeAt (-9) b = true /\
  map trackIndex (LogDecoder.assignTracks [a; b]) = [0; 0]%Z.
Proof.
  split; [repeat constructor; vm_compute; discriminate|].
  split.
  - intros tau. eapply Nat.le_trans; [apply activeCount_le_length|]. simpl. lia.
  - repeat split; reflexivity.
Qed.

(** ** Session grouping *)

Section GroupingFacts.

Import SessionGrouping.

Variable coverOf : StreamFile -> option string.
Variable xmlOf : StreamFile -> option string.
Variable scanXmlMetadata : string -> option (Z * Q).

#[local] Abbreviation segmentOf := (segmentOf coverOf xmlOf scanXmlMetadata).
#[local] Abbreviation groupLoop := (groupLoop coverOf xmlOf scanXmlMetadata).
#[local] Abbreviation buildSessions := (buildSessions coverOf xmlOf scanXmlMetadata).

Lemma segmentOf_file (f : StreamFile) : file (segmentOf f) = f.
Proof.
  unfold SessionGrouping.segmentOf.
  destruct (xmlOf f) as [k|]; [destruct (scanXmlMetadata k) as [[c d]|]|]; reflexivity.
Qed.

Lemma sessionIndexFrom_app (k : nat) (l1 l2 : list StreamSession) :
  sessionIndexFrom k (l1 ++ l2)
  = sessionIndexFrom k l1 ++ sessionIndexFrom (k + length l1) l2.
Proof.
  revert k. induction l1 as [|s rest IH]; intros k.
  - simpl. rewrite Nat.add_0_r. reflexivity.
  - replace (k + length (s :: rest))%nat with (S k + length rest)%nat by (simpl; lia).
    simpl. rewrite IH, <- app_assoc. reflexivity.
Qed.

Lemma sessionIndex_snoc (sessions : list StreamSession) (s : StreamSession) :
  sessionIndex (sessions ++ [s])
  = sessionIndex sessions ++ repeat (length sessions) (length (segments s)).
Proof.
  unfold sessionIndex. rewrite sessionIndexFrom_app. simpl.
  rewrite app_nil_r. reflexivity.
Qed.

Lemma sessionFiles_snoc (sessions : list StreamSession) (s : StreamSession) :
  sessionFiles (sessions ++ [s]) = sessionFiles sessions ++ map file (segments s).
Proof.
  unfold sessionFiles. rewrite flat_map_app. simpl. rewrite app_nil_r. reflexivity.
Qed.

Lemma repeat_snoc {A : Type} (x : A) (n : nat) : repeat x (n + 1) = repeat x n ++ [x].
Proof. rewrite repeat_app. reflexivity. Qed.

(** While the current session's title and end time are those of the file
    before, the loop's test is the rule between the two files. *)
Lemma isNewSession_continues (s : StreamSession) (prev f : StreamFile) :
  s_title s = title prev -> endTime s = timestamp prev ->
  isNewSession (Some s) f = negb (continues prev f).
Proof.
  intros Ht He. unfold isNewSession, continues. rewrite Ht, He.
  rewrite negb_andb. f_equal.
  rewrite Z.gtb_ltb, Z.ltb_antisym. reflexivity.
Qed.

Lemma groupLoop_from (files : list StreamFile) :
  forall (sessions : list StreamSession) (s : StreamSession) (prev : StreamFile),
    s_title s = title prev -> endTime s = timestamp prev ->
    sessionIndex (finish (groupLoop sessions (Some s) files))
      = sessionIndex (sessions ++ [s]) ++ expectedIndexFrom prev (length sessions) files /\
    sessionFiles (finish (groupLoop sessions (Some s) files))
      = sessionFiles (sessions ++ [s]) ++ files.
Proof.
  induction files as [|f rest IH]; intros sessions s prev Ht He.
  - simpl. rewrite !app_nil_r. split; reflexivity.
  - cbn [SessionGrouping.groupLoop].
    rewrite (isNewSession_continues s prev f Ht He).
    cbn [expectedIndexFrom].
    destruct (continues prev f) eqn:Hc; cbn [negb].
    + destruct (IH sessions (extendSession s f (segmentOf f)) f) as [Hi Hf].
      * simpl. rewrite Ht. unfold continues in Hc.
        apply andb_true_iff in Hc. destruct Hc as [Hc _].
        apply String.eqb_eq in Hc. symmetry. exact Hc.
      * reflexivity.
      * rewrite Hi, Hf. rewrite !sessionIndex_snoc, !sessionFiles_snoc.
        simpl segments. rewrite length_app, map_app. simpl length. simpl map.
        rewrite repeat_snoc, segmentOf_file, <- !app_assoc. split; reflexivity.
    + destruct (IH (pushCurrent sessions (Some s)) (newSession f (segmentOf f)) f) as [Hi Hf].
      * reflexivity.
      * reflexivity.
      * rewrite Hi, Hf. simpl pushCurrent.
        rewrite (sessionIndex_snoc (sessions ++ [s])), (sessionFiles_snoc (sessions ++ [s])).
        simpl segments. simpl length at 2. simpl map.
        rewrite segmentOf_file, length_app, <- !app_assoc. simpl.
        replace (length sessions + 1)%nat with (S (length sessions)) by lia.
        split; reflexivity.
Qed.

Lemma buildSessions_index (files : list StreamFile) :
  sessionIndex (buildSessions files) = expectedIndex files /\
  sessionFiles (buildSessions files) = files.
Proof.
  destruct files as [|f rest]; [split; reflexivity|].
  unfold SessionGrouping.buildSessions.
  cbn [SessionGrouping.groupLoop isNewSession pushCurrent].
  destruct (groupLoop_from rest [] (newSession f (segmentOf f)) f eq_refl eq_refl)
    as [Hi Hf].
  unfold finish in Hi, Hf.
  destruct (groupLoop [] (Some (newSession f (segmentOf f))) rest) as [sessions cur].
  simpl fst in *. simpl snd in *. rewrite Hi, Hf.
  simpl. rewrite segmentOf_file. split; reflexivity.
Qed.

(** Two neighbouring files get the same session number exactly when the
    rule holds between them. *)
Lemma expectedIndexFrom_neighbours (files : list StreamFile) :
  forall (prev : StreamFile) (k i : nat) (a b : StreamFile),
    nth_error (prev :: files) i = Some a ->
    nth_error (prev :: files) (S i) = Some b ->
    (nth_error (k :: expectedIndexFrom prev k files) i
     = nth_error (k :: expectedIndexFrom prev k files) (S i)
     <-> continues a b = true).
Proof.
  induction files as [|f rest IH]; intros prev k i a b Ha Hb.
  - destruct i; simpl in Hb; [discriminate|destruct i; discriminate].
  - destruct i as [|i].
    + simpl in Ha, Hb. inversion Ha; inversion Hb; subst. simpl.
      destruct (continues a b); split; intros H; try reflexivity; try discriminate.
      inversion H. lia.
    + simpl in Ha, Hb. cbn [expectedIndexFrom].
      change (nth_error (k :: ?x :: ?l) (S i)) with (nth_error (x :: l) i).
      change (nth_error (k :: ?x :: ?l) (S (S i))) with (nth_error (x :: l) (S i)).
      apply IH; assumption.
Qed.

Lemma expectedIndex_length (files : list StreamFile) :
  length (expectedIndex files) = length files.
Proof.
  destruct files as [|f rest]; [reflexivity|]. simpl. f_equal.
  generalize f O. induction rest as [|g rest IH]; intros prev k; simpl; [reflexivity|].
  rewrite IH. reflexivity.
Qed.

(** C7. The files of one room, in the order the loop takes them: the
    sessions hold exactly these files, in order, and two consecutive files
    are in the same session if and only if their titles are equal and the
    second starts at most 3600 seconds (3 600 000 ms) after the first
    starts; otherwise the second opens a new session. *)
Theorem sessions_split_on_title_or_start_gap (files : list StreamFile) :
  let sessions := buildSessions files in
  sessionFiles sessions = files /\
  length (sessionIndex sessions) = length files /\
  forall i a b,
    nth_error files i = Some a -> nth_error files (S i) = Some b ->
    (nth_error (sessionIndex sessions) i = nth_error (sessionIndex sessions) (S i)
     <-> title b = title a /\ (timestamp b - timestamp a <= 3600 * 1000)%Z).
Proof.
  intros sessions. destruct (buildSessions_index files) as [Hi Hf].
  fold sessions in Hi, Hf.
  split; [exact Hf|]. split; [rewrite Hi; apply expectedIndex_length|].
  intros i a b Ha Hb. rewrite Hi.
  assert (Hc : continues a b = true <->
               title b = title a /\ (timestamp b - timestamp a <= 3600 * 1000)%Z).
  { unfold continues. rewrite andb_true_iff, String.eqb_eq, Z.leb_le. tauto. }
  rewrite <- Hc.
  destruct files as [|f rest]; [destruct i; discriminate|].
  apply (expectedIndexFrom_neighbours rest f O i a b); assumption.
Qed.

(** The sessions listed for a room are those the loop builds from the
    room's files in timestamp order, newest first. *)
Lemma streamerSessions_perm (parsedFiles : list StreamFile) (room : string) :
  Permutation
    (streamerSessions coverOf xmlOf scanXmlMetadata parsedFiles room)
    (buildSessions
       (filter (fun f => String.eqb (roomId f) room)
               (sortBy (fun a b => (timestamp a - timestamp b <=? 0)%Z) parsedFiles))).
Proof. unfold streamerSessions. apply sortBy_perm. Qed.

End GroupingFacts.

(** A two-hour recording and the next one, started a minute after it
    ends, with the same title: the gap from end to start is 60 seconds,
    the gap from start to start is 7260 seconds, and the loop opens a new
    session. *)
Lemma sessions_split_inside_end_gap :
  let a := Examples.fileAt 0 "t" in
  let b := Examples.fileAt 7260000 "t" in
  let coverOf := fun _ : StreamFile => @None string in
  let xmlOf := fun f : StreamFile => Some (name f) in
  let scan := fun _ : string => Some (1%Z, 7200) in
  SessionGrouping.continuesFromEnd
    (SessionGrouping.segmentOf coverOf xmlOf scan a)
    (SessionGrouping.segmentOf coverOf xmlOf scan b) = true /\
  SessionGrouping.sessionIndex
    (SessionGrouping.buildSessions coverOf xmlOf scan [a; b]) = [0; 1]%nat.
Proof. split; reflexivity. Qed.

(** Three recordings of one title, half an hour apart, then one with a
    new title. *)
Example sessions_of_four :
  let files := [Examples.fileAt 0 "t"; Examples.fileAt 1800000 "t";
                Examples.fileAt 3600000 "t"; Examples.fileAt 5400000 "u"] in
  SessionGrouping.sessionIndex
    (SessionGrouping.buildSessions (fun _ => None) (fun _ => None) (fun _ => None) files)
  = [0; 0; 0; 1]%nat.
Proof. reflexivity. Qed.

(** * Further properties: the player, the scans and the panels *)

(** ** [Math.max], [Math.min], [Math.abs] and [||] *)

Lemma mathMax_spec (a b : Q) :
  (a < b /\ mathMax a b = b) \/ (b <= a /\ mathMax a b = a).
Proof.
  unfold mathMax. destruct (ltb a b) eqn:E.
  - left. apply ltb_lt in E. auto.
  - right. apply ltb_ge in E. auto.
Qed.

Lemma mathMin_spec (a b : Q) :
  (b < a /\ mathMin a b = b) \/ (a <= b /\ mathMin a b = a).
Proof.
  unfold mathMin. destruct (ltb b a) eqn:E.
  - left. apply ltb_lt in E. auto.
  - right. apply ltb_ge in E. auto.
Qed.

Lemma mathAbs_spec (a : Q) :
  (a < 0 /\ mathAbs a = - a) \/ (0 <= a /\ mathAbs a = a).
Proof.
  unfold mathAbs. destruct (ltb a 0) eqn:E.
  - left. apply ltb_lt in E. auto.
  - right. apply ltb_ge in E. auto.
Qed.

Lemma orElse_Some (x y : Q) :
  (x == 0 /\ orElse (Some x) y = y) \/ (~ x == 0 /\ orElse (Some x) y = x).
Proof.
  simpl. destruct (Qeq_bool x 0) eqn:E.
  - left. apply Qeq_bool_iff in E. auto.
  - right. split; [|reflexivity]. intros H. apply Qeq_bool_iff in H. congruence.
Qed.


(** ** [findIndex] *)

Lemma findIndex_Some {A : Type} (p : A -> bool) (l : list A) (j : nat) :
  findIndex p l = Some j -> exists x, nth_error l j = Some x /\ p x = true.
Proof.
  revert j. induction l as [|y l IH]; intros j H; [discriminate|].
  simpl in H. destruct (p y) eqn:Hp.
  - inversion H; subst j. exists y. auto.
  - destruct (findIndex p l) as [i|]; [|discriminate].
    inversion H; subst j. apply IH. reflexivity.
Qed.

Lemma findIndex_lt {A : Type} (p : A -> bool) (l : list A) (j : nat) :
  findIndex p l = Some j -> (j < length l)%nat.
Proof.
  intros H. destruct (findIndex_Some p l j H) as (x & Hx & _).
  apply nth_error_Some. congruence.
Qed.

(** ** Sorting with a total and transitive comparator *)

Section SortFacts.

Context {A : Type} (le : A -> A -> bool).

Hypothesis le_total : forall a b, le a b = false -> le b a = true.
Hypothesis le_trans : forall a b c, le a b = true -> le b c = true -> le a c = true.

Lemma insertBy_sorted (x : A) (l : list A) :
  StronglySorted (fun a b => le a b = true) l ->
  StronglySorted (fun a b => le a b = true) (insertBy le x l).
Proof.
  induction 1 as [|y l Hs IH Hall]; simpl.
  - constructor; constructor.
  - destruct (le x y) eqn:E.
    + constructor; [constructor; assumption|].
      constructor; [exact E|].
      rewrite Forall_forall in Hall |- *. intros z Hz.
      apply (le_trans x y z E). apply Hall. exact Hz.
    + constructor; [exact IH|].
      rewrite Forall_forall in Hall |- *. intros z Hz.
      apply (Permutation_in _ (insertBy_perm le x l)) in Hz.
      destruct Hz as [Hz|Hz]; [subst z; apply le_total; exact E|apply Hall; exact Hz].
Qed.

Lemma sortBy_sorted (l : list A) :
  StronglySorted (fun a b => le a b = true) (sortBy le l).
Proof.
  induction l as [|x l IH]; simpl; [constructor|].
  apply insertBy_sorted. exact IH.
Qed.

End SortFacts.


Lemma StronglySorted_impl {A : Type} (R R' : A -> A -> Prop) (l : list A) :
  (forall a b, R a b -> R' a b) -> StronglySorted R l -> StronglySorted R' l.
Proof.
  intros Himp. induction 1 as [|a l Hl IHl Hall]; constructor; [exact IHl|].
  rewrite Forall_forall in Hall |- *. intros b Hb. apply Himp. apply Hall. exact Hb.
Qed.

(** ** The order of the timeline's entries, in exact arithmetic *)

Section TimelineOrder.

Import Timeline.

Variable realDurations : nat -> option Q.

Lemma timelineFrom_start_ge acc idx segs i e :
  nth_error (timelineFrom realDurations acc idx segs) i = Some e ->
  acc <= tl_start e.
Proof.
  revert acc idx i. induction segs as [|seg rest IH]; intros acc idx i He.
  - destruct i; discriminate.
  - destruct i as [|i]; simpl in He.
    + inversion He; subst e. simpl. apply Qle_refl.
    + apply IH in He. rational_ops.
      pose proof (entryDuration_nonneg realDurations seg (hd_error rest) idx) as Hd.
      lra.
Qed.

Lemma timelineFrom_end_eq acc idx segs i e :
  nth_error (timelineFrom realDurations acc idx segs) i = Some e ->
  tl_end e = tl_start e + tl_duration e /\ 0 <= tl_duration e.
Proof.
  intros He. split.
  - apply (timelineFrom_span realDurations) in He. exact He.
  - apply (timelineFrom_nonneg realDurations) in He. exact He.
Qed.



(** No entry ends after the last one. *)
Lemma timelineFrom_end_le_last acc idx segs i e last :
  nth_error (timelineFrom realDurations acc idx segs) i = Some e ->
  lastElem (timelineFrom realDurations acc idx segs) = Some last ->
  tl_end e <= tl_end last.
Proof.
  revert acc idx i e. induction segs as [|seg rest IH]; intros acc idx i e He Hl.
  - destruct i; discriminate.
  - destruct rest as [|seg' rest'].
    + destruct i as [|[|i]]; simpl in He; try discriminate.
      simpl in Hl. inversion He; inversion Hl; subst. apply Qle_refl.
    + rewrite timelineFrom_cons2 in He, Hl.
      destruct (timelineFrom_nonempty realDurations
                  (num_add acc (entryDuration realDurations seg (Some seg') idx))
                  (S idx) seg' rest') as (x & tl & Hx).
      rewrite Hx in Hl. rewrite lastElem_cons in Hl. rewrite <- Hx in Hl.
      destruct i as [|i]; cbn [nth_error] in He.
      * inversion He; subst e. cbn [tl_end].
        assert (H0 : nth_error
                       (timelineFrom realDurations
                          (num_add acc (entryDuration realDurations seg (Some seg') idx))
                          (S idx) (seg' :: rest')) 0 = Some x).
        { rewrite Hx. reflexivity. }
        pose proof (timelineFrom_start_ge _ _ _ _ _ H0) as Hs.
        pose proof (timelineFrom_end_eq _ _ _ _ _ H0) as [He1 He2].
        pose proof (IH _ _ _ _ H0 Hl) as Hle.
        rational_ops. rewrite He1 in Hle. lra.
      * apply (IH _ _ _ _ He Hl).
Qed.

End TimelineOrder.

(** ** Measured durations and the timeline, in any arithmetic *)

Section TimelineMeasured.

Import Timeline.

Context {T : Type} {N : JsNumber T}.

(** Two maps of measured durations give the same timeline as soon as they
    give the last segment the same duration. *)
Lemma timelineFrom_last_duration (rd rd' : nat -> option T) acc idx segs :
  (forall last, lastElem segs = Some last ->
     entryDuration rd last None (idx + length segs - 1)%nat
     = entryDuration rd' last None (idx + length segs - 1)%nat) ->
  timelineFrom rd acc idx segs = timelineFrom rd' acc idx segs.
Proof.
  revert acc idx. induction segs as [|seg rest IH]; intros acc idx H; [reflexivity|].
  destruct rest as [|seg' rest'].
  - specialize (H seg eq_refl). simpl in H.
    replace (idx + 1 - 1)%nat with idx in H by lia.
    simpl. rewrite H. reflexivity.
  - rewrite !timelineFrom_cons2.
    change (entryDuration rd' seg (Some seg') idx) with (entryDuration rd seg (Some seg') idx).
    f_equal. apply IH. intros last Hl.
    replace (S idx + length (seg' :: rest') - 1)%nat
      with (idx + length (seg :: seg' :: rest') - 1)%nat by (simpl; lia).
    apply H. rewrite lastElem_cons. exact Hl.
Qed.

Lemma timelineFrom_measured (rd rd' : nat -> option T) acc idx segs :
  rd (idx + length segs - 1)%nat = rd' (idx + length segs - 1)%nat ->
  timelineFrom rd acc idx segs = timelineFrom rd' acc idx segs.
Proof.
  intros H. apply timelineFrom_last_duration. intros last _.
  unfold entryDuration. rewrite H. reflexivity.
Qed.

Lemma timelineFrom_prefix (rd rd' : nat -> option T) acc idx segs i e :
  nth_error (timelineFrom rd acc idx segs) i = Some e ->
  (S i < length segs)%nat ->
  nth_error (timelineFrom rd' acc idx segs) i = Some e.
Proof.
  revert acc idx i. induction segs as [|seg rest IH]; intros acc idx i He Hlt.
  - destruct i; discriminate.
  - destruct rest as [|seg' rest']; [simpl in Hlt; lia|].
    rewrite timelineFrom_cons2 in He |- *.
    change (entryDuration rd' seg (Some seg') idx) with (entryDuration rd seg (Some seg') idx).
    destruct i as [|i]; [exact He|].
    cbn [nth_error] in He |- *. apply IH; [exact He|simpl in Hlt |- *; lia].
Qed.

Lemma timelineFrom_same_start (rd rd' : nat -> option T) acc idx segs i e e' :
  nth_error (timelineFrom rd acc idx segs) i = Some e ->
  nth_error (timelineFrom rd' acc idx segs) i = Some e' ->
  tl_start e = tl_start e'.
Proof.
  revert acc idx i. induction segs as [|seg rest IH]; intros acc idx i He He'.
  - destruct i; discriminate.
  - destruct rest as [|seg' rest'].
    + destruct i as [|[|i]]; simpl in He, He'; try discriminate.
      inversion He; inversion He'; subst. reflexivity.
    + rewrite timelineFrom_cons2 in He, He'.
      change (entryDuration rd' seg (Some seg') idx)
        with (entryDuration rd seg (Some seg') idx) in He'.
      destruct i as [|i].
      * inversion He; inversion He'; subst. reflexivity.
      * cbn [nth_error] in He, He'. apply (IH _ _ _ He He').
Qed.

End TimelineMeasured.

(** A declared duration that is not zero is the segment's anchor: nothing
    measured enters its entry. *)
Lemma entryDuration_anchored (rd rd' : nat -> option Q) (seg : StreamSegment Q)
    (next next' : option (StreamSegment Q)) (idx idx' : nat) :
  ~ duration seg == 0 ->
  Timeline.entryDuration rd seg next idx = Timeline.entryDuration rd' seg next' idx'.
Proof.
  intros Hne. unfold Timeline.entryDuration, orNumber.
  change (num_falsy (duration seg)) with (Qeq_bool (duration seg) 0).
  assert (E : Qeq_bool (duration seg) 0 = false).
  { destruct (Qeq_bool (duration seg) 0) eqn:E; [|reflexivity].
    apply Qeq_bool_iff in E. contradiction. }
  rewrite E. rational_ops. rewrite E. reflexivity.
Qed.

(** X1. The timeline and the measured durations.  In any arithmetic:
    two maps of measured durations give the same entry for every segment
    but the last, and the same start for the last; they give the same
    timeline when they agree on the last segment.  In exact arithmetic: a
    last segment whose declared duration is not zero makes the timeline
    independent of every measurement. *)
Theorem measured_duration_reaches_only_the_last_entry :
  (forall (T : Type) (N : JsNumber T) (segments : list (StreamSegment T))
          (rd rd' : nat -> option T),
     (forall i e, nth_error (Timeline.timeline segments rd) i = Some e ->
        (S i < length segments)%nat ->
        nth_error (Timeline.timeline segments rd') i = Some e) /\
     (forall i e e', nth_error (Timeline.timeline segments rd) i = Some e ->
        nth_error (Timeline.timeline segments rd') i = Some e' ->
        Timeline.tl_start e = Timeline.tl_start e') /\
     (rd (length segments - 1)%nat = rd' (length segments - 1)%nat ->
      Timeline.timeline segments rd = Timeline.timeline segments rd')) /\
  (forall (segments : list (StreamSegment Q)) (rd rd' : nat -> option Q)
          (last : StreamSegment Q),
     lastElem segments = Some last -> ~ duration last == 0 ->
     Timeline.timeline segments rd = Timeline.timeline segments rd').
Proof.
  split.
  - intros T N segments rd rd'. unfold Timeline.timeline.
    split; [intros i e; apply timelineFrom_prefix|].
    split; [intros i e e'; apply timelineFrom_same_start|].
    intros H. apply timelineFrom_measured. exact H.
  - intros segments rd rd' last Hl Hne. unfold Timeline.timeline.
    apply timelineFrom_last_duration. intros last' Hl'.
    rewrite Hl in Hl'. inversion Hl'; subst last'.
    apply entryDuration_anchored. exact Hne.
Qed.

(** The declared durations 1800, 0 and 1500: a measurement of segment 1
    (the one without metadata) changes nothing, since the next file's
    timestamp anchors it. *)
Example measured_middle_segment :
  Timeline.timeline Examples.threeSegments
    (Measured.handleLoadedMetadata 1795 1 Examples.noRealDurations)
  = Timeline.timeline Examples.threeSegments Examples.noRealDurations.
Proof. reflexivity. Qed.

(** X2. [handleLoadedMetadata] on the map of measured durations: a second
    event with the same duration changes nothing more; no other segment's
    value is touched; after an event with a positive duration the stored
    value is within 0.01 of it; and an event for a segment that is not
    the last one leaves the timeline as it was. *)
Theorem loaded_metadata_updates_one_duration (videoDuration : Q) (idx : nat)
    (prev : nat -> option Q) :
  let next := Measured.handleLoadedMetadata videoDuration idx prev in
  Measured.handleLoadedMetadata videoDuration idx next = next /\
  (forall j, j <> idx -> next j = prev j) /\
  (0 < videoDuration -> mathAbs (orElse (next idx) 0 - videoDuration) <= 0.01) /\
  (forall segments : list (StreamSegment Q), (S idx < length segments)%nat ->
     Timeline.timeline segments next = Timeline.timeline segments prev).
Proof.
  intros next.
  assert (Hother : forall j, j <> idx -> next j = prev j).
  { intros j Hj. unfold next, Measured.handleLoadedMetadata.
    destruct (negb (Qeq_bool videoDuration 0) && gtb videoDuration 0); [|reflexivity].
    destruct (gtb (mathAbs (orElse (prev idx) 0 - videoDuration)) 0.01); [|reflexivity].
    unfold Measured.withDuration. apply Nat.eqb_neq in Hj. rewrite Hj. reflexivity. }
  split; [|split; [exact Hother|split]].
  - unfold next, Measured.handleLoadedMetadata.
    destruct (negb (Qeq_bool videoDuration 0) && gtb videoDuration 0) eqn:Hpos;
      [|reflexivity].
    destruct (gtb (mathAbs (orElse (prev idx) 0 - videoDuration)) 0.01) eqn:Hfar;
      [|rewrite Hfar; reflexivity].
    assert (Hnear : gtb (mathAbs (orElse (Measured.withDuration prev idx videoDuration idx) 0
                                  - videoDuration)) 0.01 = false).
    { unfold Measured.withDuration. rewrite Nat.eqb_refl.
      apply andb_true_iff in Hpos. destruct Hpos as [Hne _].
      apply negb_true_iff in Hne. simpl orElse. rewrite Hne.
      apply gtb_le.
      destruct (mathAbs_spec (videoDuration - videoDuration)) as [[H E]|[H E]];
        rewrite E; lra. }
    rewrite Hnear. reflexivity.
  - intros Hpos. unfold next, Measured.handleLoadedMetadata.
    assert (Hc : negb (Qeq_bool videoDuration 0) && gtb videoDuration 0 = true).
    { apply andb_true_iff. split.
      - apply negb_true_iff. destruct (Qeq_bool videoDuration 0) eqn:E; [|reflexivity].
        apply Qeq_bool_iff in E. lra.
      - apply gtb_gt. exact Hpos. }
    rewrite Hc.
    destruct (gtb (mathAbs (orElse (prev idx) 0 - videoDuration)) 0.01) eqn:Hfar.
    + unfold Measured.withDuration. rewrite Nat.eqb_refl.
      apply andb_true_iff in Hc. destruct Hc as [Hne _].
      apply negb_true_iff in Hne. simpl orElse. rewrite Hne.
      destruct (mathAbs_spec (videoDuration - videoDuration)) as [[H E]|[H E]];
        rewrite E; lra.
    + apply gtb_le in Hfar. exact Hfar.
  - intros segments Hlt. unfold Timeline.timeline.
    apply timelineFrom_measured. apply Hother. simpl. lia.
Qed.

(** ** The history object *)



Section HistoryFacts.

Import PlayerHistory.














End HistoryFacts.

Section HistoryTheorems.

Import PlayerHistory.



End HistoryTheorems.


(** ** Resuming and seeking on the timeline *)

Section ResumeAndSeek.

Import Timeline PlayerHistory.

Lemma timeline_nth_length (segments : list (StreamSegment Q)) (rd : nat -> option Q)
    (i : nat) :
  (i < length segments)%nat -> exists e, nth_error (timeline segments rd) i = Some e.
Proof.
  intros Hlt. destruct (nth_error (timeline segments rd) i) as [e|] eqn:E; [eauto|].
  apply nth_error_None in E. unfold timeline in E.
  rewrite timelineFrom_length in E. lia.
Qed.





Import Navigation.

Lemma targetIndex_lt (segments : list (StreamSegment Q)) (rd : nat -> option Q)
    (seekPoint : Q) :
  segments <> [] ->
  (targetIndex (timeline segments rd) seekPoint < length segments)%nat.
Proof.
  intros Hne. unfold targetIndex.
  destruct (findEntry (timeline segments rd) seekPoint) as [i|] eqn:Hf.
  - apply findIndex_lt in Hf. unfold timeline in Hf.
    rewrite timelineFrom_length in Hf. exact Hf.
  - unfold timeline. rewrite timelineFrom_length.
    destruct segments; [contradiction|].
    destruct (geb seekPoint _); simpl; lia.
Qed.

Lemma targetLocal_nonneg (segInfo : TimelineEntry Q) (seekPoint : Q) :
  0 <= targetLocal segInfo seekPoint.
Proof.
  unfold targetLocal.
  match goal with |- 0 <= mathMax 0 ?x => destruct (mathMax_spec 0 x) as [[H E]|[H E]] end;
    rewrite E; lra.
Qed.

(** X5. The segment index stays inside the session.  For a session with
    at least one segment: [handleGlobalSeekEnd] does not throw, and
    leaves an index inside the session and a local time that is not
    negative; [handleEnded] keeps an index that is inside the session
    inside it, and stops playback exactly at the last segment; and the
    restoring effect selects an index inside the session and a local time
    that is not negative. *)
Theorem segment_index_stays_in_session (segments : list (StreamSegment Q))
    (rd : nat -> option Q) :
  segments <> [] ->
  let tl := timeline segments rd in
  (forall sessionId now st,
     (currentSegmentIndex (Navigation.player st) < length segments)%nat ->
     0 <= currentTime (Navigation.player st) ->
     exists st', handleGlobalSeekEnd sessionId now tl st = Some st' /\
       (currentSegmentIndex (Navigation.player st') < length segments)%nat /\
       0 <= currentTime (Navigation.player st') /\
       (forall t, Navigation.initialSeekTimeRef st' = Some t ->
          Navigation.initialSeekTimeRef st = Some t \/ 0 <= t)) /\
  (forall st,
     (currentSegmentIndex (Navigation.player st) < length segments)%nat ->
     let st' := handleEnded (length segments) st in
     (currentSegmentIndex (Navigation.player st') < length segments)%nat /\
     (isPlaying st' = false <->
      currentSegmentIndex (Navigation.player st) = (length segments - 1)%nat)) /\
  (forall raw sessionId st,
     (0 <= segmentIndex st < Z.of_nat (length segments))%Z ->
     let st' := loadHistory raw sessionId tl st in
     (0 <= segmentIndex st' < Z.of_nat (length segments))%Z /\
     (forall t, PlayerHistory.initialSeekTimeRef st' = Some t ->
        PlayerHistory.initialSeekTimeRef st = Some t \/ 0 <= t)).
Proof.
  intros Hne tl. split; [|split].
  - intros sessionId now st Hidx Htime. unfold handleGlobalSeekEnd.
    destruct (dragGlobalTime (Navigation.player st)) as [seekPoint|] eqn:Hdrag.
    + pose proof (targetIndex_lt segments rd seekPoint Hne) as Hlt. fold tl in Hlt.
      destruct (timeline_nth_length segments rd _ Hlt) as (segInfo & Hseg).
      fold tl in Hseg. rewrite Hseg.
      pose proof (targetLocal_nonneg segInfo seekPoint) as Hloc.
      destruct (negb (targetIndex tl seekPoint
                      =? currentSegmentIndex (Navigation.player st))%nat).
      * eexists. split; [reflexivity|]. simpl.
        split; [exact Hlt|]. split; [exact Hloc|].
        intros t Ht. inversion Ht; subst t. right. exact Hloc.
      * destruct (videoTime st).
        -- eexists. split; [reflexivity|]. simpl.
           split; [exact Hidx|]. split; [exact Hloc|]. intros t Ht. left. exact Ht.
        -- eexists. split; [reflexivity|]. simpl.
           split; [exact Hidx|]. split; [exact Htime|]. intros t Ht. left. exact Ht.
    + exists st. split; [reflexivity|]. split; [exact Hidx|].
      split; [exact Htime|]. intros t Ht. left. exact Ht.
  - intros st Hidx st'. unfold st', handleEnded.
    destruct (currentSegmentIndex (Navigation.player st) <? length segments - 1)%nat
      eqn:Hlt; simpl.
    + apply Nat.ltb_lt in Hlt. split; [lia|]. split; [discriminate|lia].
    + apply Nat.ltb_ge in Hlt. split; [exact Hidx|]. split; [lia|reflexivity].
  - intros raw sessionId st Hidx st'. unfold st', loadHistory.
    destruct (hasLoadedHistoryRef st); [split; [exact Hidx|auto]|].
    destruct raw as [history|]; [|simpl; split; [exact Hidx|auto]].
    destruct (lookup history sessionId) as [record|]; [|simpl; split; [exact Hidx|auto]].
    cbv zeta. simpl segmentIndex. simpl PlayerHistory.initialSeekTimeRef.
    split.
    + destruct (findEntry tl (globalTime record)) as [i|] eqn:Hf.
      * apply findIndex_lt in Hf. unfold tl, timeline in Hf.
        rewrite timelineFrom_length in Hf. lia.
      * unfold tl, timeline. rewrite timelineFrom_length.
        destruct segments; [contradiction|]. simpl length. lia.
    + intros t Ht. inversion Ht; subst t. right.
      match goal with |- 0 <= mathMax 0 ?x => destruct (mathMax_spec 0 x) as [[H E]|[H E]] end;
        rewrite E; lra.
Qed.

Lemma segment_index_stays_in_session_witness :
  let tl := timeline Examples.threeSegments Examples.noRealDurations in
  (forall sessionId now st,
     (currentSegmentIndex (Navigation.player st) < 3)%nat ->
     0 <= currentTime (Navigation.player st) ->
     exists st', handleGlobalSeekEnd sessionId now tl st = Some st' /\
       (currentSegmentIndex (Navigation.player st') < 3)%nat /\
       0 <= currentTime (Navigation.player st') /\
       (forall t, Navigation.initialSeekTimeRef st' = Some t ->
          Navigation.initialSeekTimeRef st = Some t \/ 0 <= t)) /\
  (forall st,
     (currentSegmentIndex (Navigation.player st) < 3)%nat ->
     let st' := handleEnded 3 st in
     (currentSegmentIndex (Navigation.player st') < 3)%nat /\
     (isPlaying st' = false <->
      currentSegmentIndex (Navigation.player st) = (3 - 1)%nat)) /\
  (forall raw sessionId st,
     (0 <= segmentIndex st < Z.of_nat 3)%Z ->
     let st' := loadHistory raw sessionId tl st in
     (0 <= segmentIndex st' < Z.of_nat 3)%Z /\
     (forall t, PlayerHistory.initialSeekTimeRef st' = Some t ->
        PlayerHistory.initialSeekTimeRef st = Some t \/ 0 <= t)).
Proof.
  apply (segment_index_stays_in_session Examples.threeSegments Examples.noRealDurations).
  discriminate.
Defined.

Lemma findIndex_None {A : Type} (p : A -> bool) (l : list A) :
  (forall x, In x l -> p x = false) -> findIndex p l = None.
Proof.
  induction l as [|y l IH]; intros H; [reflexivity|].
  simpl. rewrite (H y (or_introl eq_refl)). rewrite IH; [reflexivity|].
  intros x Hx. apply H. right. exact Hx.
Qed.

Lemma totalDuration_last (tl : list (TimelineEntry Q)) (last : TimelineEntry Q) :
  lastElem tl = Some last -> totalDuration tl == tl_end last.
Proof.
  intros Hl. unfold totalDuration. rewrite Hl. simpl option_map.
  rational_ops. apply orNumber_Some_0.
Qed.


(** A time at or after the end of the timeline lies in no entry. *)
Lemma findEntry_beyond (segments : list (StreamSegment Q)) (rd : nat -> option Q)
    (t : Q) (last : TimelineEntry Q) :
  lastElem (timeline segments rd) = Some last -> tl_end last <= t ->
  findEntry (timeline segments rd) t = None.
Proof.
  intros Hl Ht. unfold findEntry. apply findIndex_None. intros e He.
  apply In_nth_error in He. destruct He as (i & He).
  pose proof (timelineFrom_end_le_last rd _ _ _ _ _ _ He Hl) as Hle.
  destruct (containsTime t e) eqn:Hc; [|reflexivity].
  apply containsTime_iff in Hc. lra.
Qed.


(** X7. Dropping the seek handle at or past the end.  For a seek point at
    or after the total duration the handler selects the last segment; its
    local time is 0.1 seconds before the end of that segment when the
    segment lasts 0.1 seconds or more, 0 when it is shorter, and, for a
    last segment of duration 0, the distance from its start, capped at
    9999.9. *)
Theorem seek_to_the_end_stops_short_of_it (segments : list (StreamSegment Q))
    (rd : nat -> option Q) (sessionId : string * Z) (now : Z)
    (st : NavState) (seekPoint v : Q) (last : TimelineEntry Q) :
  let tl := timeline segments rd in
  dragGlobalTime (Navigation.player st) = Some seekPoint ->
  videoTime st = Some v ->
  lastElem tl = Some last -> totalDuration tl <= seekPoint ->
  exists st',
    handleGlobalSeekEnd sessionId now tl st = Some st' /\
    currentSegmentIndex (Navigation.player st') = (length segments - 1)%nat /\
    nth_error tl (length segments - 1) = Some last /\
    let localTime := currentTime (Navigation.player st') in
    (0.1 <= tl_duration last -> localTime == tl_duration last - 0.1) /\
    (0 < tl_duration last -> tl_duration last < 0.1 -> localTime == 0) /\
    (tl_duration last == 0 ->
     localTime == mathMin (seekPoint - tl_start last) 9999.9 /\ 0 <= localTime).
Proof.
  intros tl Hdrag Hvideo Hl Hge.
  assert (Hlen : length tl = length segments).
  { unfold tl, timeline. apply timelineFrom_length. }
  assert (Hn : nth_error tl (length segments - 1) = Some last).
  { unfold lastElem in Hl. rewrite Hlen in Hl. exact Hl. }
  rewrite (totalDuration_last _ _ Hl) in Hge.
  pose proof (findEntry_beyond segments rd seekPoint last Hl Hge) as Hf. fold tl in Hf.
  destruct (timelineFrom_end_eq rd _ _ _ _ _ Hn) as [Hend Hnn].
  assert (Hidx : targetIndex tl seekPoint = (length segments - 1)%nat).
  { unfold targetIndex. rewrite Hf.
    assert (Hg : geb seekPoint (totalDuration tl) = true).
    { apply geb_ge. rewrite (totalDuration_last _ _ Hl). exact Hge. }
    rewrite Hg, Hlen. reflexivity. }
  assert (Hloc : let localTime := targetLocal last seekPoint in
            (0.1 <= tl_duration last -> localTime == tl_duration last - 0.1) /\
            (0 < tl_duration last -> tl_duration last < 0.1 -> localTime == 0) /\
            (tl_duration last == 0 ->
             localTime == mathMin (seekPoint - tl_start last) 9999.9 /\ 0 <= localTime)).
  { cbv zeta. unfold targetLocal. rewrite Hend in Hge.
    destruct (orElse_Some (tl_duration last) 10000) as [[Hz Eo]|[Hz Eo]]; rewrite Eo.
    - split; [intros; lra|]. split; [intros; lra|]. intros _.
      assert (E9 : mathMin (seekPoint - tl_start last) (10000 - 0.1)
                   == mathMin (seekPoint - tl_start last) 9999.9).
      { destruct (mathMin_spec (seekPoint - tl_start last) (10000 - 0.1)) as [[Ha Ea]|[Ha Ea]];
        destruct (mathMin_spec (seekPoint - tl_start last) 9999.9) as [[Hb Eb]|[Hb Eb]];
        rewrite Ea, Eb; lra. }
      rewrite <- E9.
      destruct (mathMin_spec (seekPoint - tl_start last) (10000 - 0.1)) as [[Ha Ea]|[Ha Ea]];
        rewrite Ea;
      match goal with
      | |- context [mathMax 0 ?x] => destruct (mathMax_spec 0 x) as [[Hx Ex]|[Hx Ex]]
      end; rewrite Ex; split; lra.
    - destruct (mathMin_spec (seekPoint - tl_start last) (tl_duration last - 0.1))
        as [[Ha Ea]|[Ha Ea]]; rewrite Ea;
      match goal with
      | |- context [mathMax 0 ?x] => destruct (mathMax_spec 0 x) as [[Hx Ex]|[Hx Ex]]
      end; rewrite Ex; repeat split; intros; try lra; contradiction. }
  cbv zeta in Hloc.
  unfold handleGlobalSeekEnd. rewrite Hdrag, Hidx, Hn.
  destruct (negb (length segments - 1 =? currentSegmentIndex (Navigation.player st))%nat)
    eqn:Hi.
  - eexists. split; [reflexivity|]. simpl.
    split; [reflexivity|]. split; [reflexivity|]. exact Hloc.
  - apply negb_false_iff in Hi. apply Nat.eqb_eq in Hi. rewrite Hvideo.
    eexists. split; [reflexivity|]. simpl.
    split; [symmetry; exact Hi|]. split; [reflexivity|]. exact Hloc.
Qed.



Example seek_1850_from_segment_0 :
  let tl := timeline Examples.threeSegments Examples.noRealDurations in
  let st := mkNav (mkPlayerState 0 0 (Some 1850)) true None (Some 0) None in
  option_map (fun st' => (currentSegmentIndex (Navigation.player st'),
                          Navigation.initialSeekTimeRef st'))
             (handleGlobalSeekEnd ("27183290"%string, 1000%Z) 9 tl st)
  = Some (1%nat, Some (1850 - (0 + 1800))).
Proof. reflexivity. Qed.

Lemma seek_to_the_end_stops_short_of_it_witness :
  let tl := timeline Examples.threeSegments Examples.noRealDurations in
  let sessionId := ("27183290"%string, 1000%Z) in
  let st := mkNav (mkPlayerState 2 10 (Some 5120)) true None (Some 10) None in
  let last := mkEntry (0 + 1800 + inject_Z (3620000 - 1800000) / 1000)
                      (0 + 1800 + inject_Z (3620000 - 1800000) / 1000 + 1500) 1500 in
  exists st',
    handleGlobalSeekEnd sessionId 9 tl st = Some st' /\
    currentSegmentIndex (Navigation.player st') = (3 - 1)%nat /\
    nth_error tl (3 - 1) = Some last /\
    let localTime := currentTime (Navigation.player st') in
    (0.1 <= tl_duration last -> localTime == tl_duration last - 0.1) /\
    (0 < tl_duration last -> tl_duration last < 0.1 -> localTime == 0) /\
    (tl_duration last == 0 ->
     localTime == mathMin (5120 - tl_start last) 9999.9 /\ 0 <= localTime).
Proof.
  apply (seek_to_the_end_stops_short_of_it Examples.threeSegments Examples.noRealDurations
           ("27183290"%string, 1000%Z) 9
           (mkNav (mkPlayerState 2 10 (Some 5120)) true None (Some 10) None) 5120 10).
  - reflexivity.
  - reflexivity.
  - reflexivity.
  - vm_compute. discriminate.
Defined.

End ResumeAndSeek.

(** ** Stall detection *)

Section StallFacts.

Import PlaybackClock StallWatch.

Lemma checks_snoc (n : nat) (isPlaying : bool) (st : option Video * Watch) :
  checks (S n) isPlaying st
  = checkStall isPlaying (fst (checks n isPlaying st)) (snd (checks n isPlaying st)).
Proof.
  revert st. induction n as [|n IH]; intros st; [reflexivity|].
  change (checks (S (S n)) isPlaying st)
    with (checks (S n) isPlaying (checkStall isPlaying (fst st) (snd st))).
  rewrite IH. reflexivity.
Qed.

Lemma mathAbs_self (x : Q) : ltb (mathAbs (x - x)) 0.1 = true.
Proof.
  apply ltb_lt. destruct (mathAbs_spec (x - x)) as [[H E]|[H E]]; rewrite E; lra.
Qed.

(** A run of checks on a playing video that does not move, while the
    counter stays below 7. *)
Lemma checks_stalled (v : Video) (n : nat) :
  paused v = false ->
  forall w,
    ltb (mathAbs (v_currentTime v - lastTimeRef w)) 0.1 = true ->
    (stallCountRef w + Z.of_nat n <= 6)%Z ->
    exists w',
      checks n true (Some v, w) = (Some v, w') /\
      stallCountRef w' = (stallCountRef w + Z.of_nat n)%Z /\
      ltb (mathAbs (v_currentTime v - lastTimeRef w')) 0.1 = true /\
      ((1 <= n)%nat -> lastTimeRef w' = v_currentTime v) /\
      ((1 <= n)%nat -> (3 <= stallCountRef w + Z.of_nat n)%Z -> isLoading w' = true).
Proof.
  intros Hplay. induction n as [|n IH]; intros w Hnear Hcount.
  - exists w. simpl. split; [reflexivity|]. split; [lia|]. split; [exact Hnear|].
    split; intros; lia.
  - cbn [checks fst snd]. unfold checkStall at 1. rewrite Hplay. simpl negb. simpl andb.
    rewrite Hnear.
    assert (H6 : (6 <? stallCountRef w + 1)%Z = false) by (apply Z.ltb_ge; lia).
    rewrite H6.
    set (w1 := mkWatch (v_currentTime v) (stallCountRef w + 1)
                 (if (2 <? stallCountRef w + 1)%Z then true else isLoading w)).
    destruct (IH w1) as (w' & Hrun & Hc & Hn & Hlast & Hload).
    + simpl. apply mathAbs_self.
    + simpl. lia.
    + exists w'. split; [exact Hrun|]. simpl in Hc. split; [lia|]. split; [exact Hn|].
      split.
      * intros _. destruct n as [|n]; [|apply Hlast; lia].
        simpl in Hrun. inversion Hrun. reflexivity.
      * intros _ H3. destruct n as [|n].
        -- simpl in Hrun. inversion Hrun. simpl.
           assert (H2 : (2 <? stallCountRef w + 1)%Z = true) by (apply Z.ltb_lt; lia).
           rewrite H2. reflexivity.
        -- apply Hload; [lia|]. simpl. lia.
Qed.

(** X8. Stall recovery.  The counter never leaves 0..6.  A playing video
    that stays where it was at the last check (within 0.1 seconds) is
    left alone for six checks, the counter going up by one at each and
    the loading indicator showing from the third; the seventh check moves
    the video forward by one second and clears the counter; and the
    check after that, seeing the video one second further, starts
    counting from 0 again. *)
Theorem stalled_video_skips_ahead_at_the_seventh_check :
  (forall (isPlaying : bool) (video : option Video) (w : Watch),
     (0 <= stallCountRef w <= 6)%Z ->
     (0 <= stallCountRef (snd (checkStall isPlaying video w)) <= 6)%Z) /\
  (forall (v : Video) (w : Watch),
     paused v = false -> stallCountRef w = 0%Z ->
     mathAbs (v_currentTime v - lastTimeRef w) < 0.1 ->
     (forall n, (n <= 6)%nat ->
        fst (checks n true (Some v, w)) = Some v /\
        stallCountRef (snd (checks n true (Some v, w))) = Z.of_nat n /\
        ((3 <= n)%nat -> isLoading (snd (checks n true (Some v, w))) = true)) /\
     checks 7 true (Some v, w)
       = (Some (skipOneSecond v), mkWatch (v_currentTime v) 0 true) /\
     checks 8 true (Some v, w)
       = (Some (skipOneSecond v),
          mkWatch (v_currentTime v + 1) 0
            (if (2 <? readyState v)%Z then false else true))).
Proof.
  split.
  - intros isPlaying video w Hw. unfold checkStall.
    destruct video as [v|]; [|exact Hw].
    destruct (negb (paused v) && isPlaying); [|exact Hw].
    destruct (ltb (mathAbs (v_currentTime v - lastTimeRef w)) 0.1).
    + destruct (6 <? stallCountRef w + 1)%Z eqn:E; simpl; [lia|].
      apply Z.ltb_ge in E. lia.
    + simpl. lia.
  - intros v w Hplay Hzero Hnear. apply ltb_lt in Hnear.
    assert (Hrun : forall n, (n <= 6)%nat ->
              exists w', checks n true (Some v, w) = (Some v, w') /\
                stallCountRef w' = Z.of_nat n /\
                ltb (mathAbs (v_currentTime v - lastTimeRef w')) 0.1 = true /\
                ((1 <= n)%nat -> lastTimeRef w' = v_currentTime v) /\
                ((3 <= n)%nat -> isLoading w' = true)).
    { intros n Hn.
      destruct (checks_stalled v n Hplay w Hnear) as (w' & H1 & H2 & H3 & H4 & H5);
        [lia|].
      exists w'. split; [exact H1|]. split; [lia|]. split; [exact H3|].
      split; [exact H4|]. intros Hn3. apply H5; lia. }
    assert (H7 : checks 7 true (Some v, w)
                 = (Some (skipOneSecond v), mkWatch (v_currentTime v) 0 true)).
    { rewrite checks_snoc.
      destruct (Hrun 6%nat (Nat.le_refl 6)) as (w6 & H1 & H2 & H3 & H4 & H5).
      rewrite H1. cbn [fst snd]. unfold checkStall. rewrite Hplay. simpl negb. simpl andb.
      rewrite H3, H2. simpl. reflexivity. }
    split; [|split; [exact H7|]].
    + intros n Hn. destruct (Hrun n Hn) as (w' & H1 & H2 & H3 & H4 & H5).
      rewrite H1. simpl. auto.
    + rewrite checks_snoc, H7. cbn [fst snd]. unfold checkStall, skipOneSecond.
      cbn [paused v_currentTime readyState lastTimeRef stallCountRef isLoading].
      rewrite Hplay. simpl negb. simpl andb.
      assert (Hfar : ltb (mathAbs (v_currentTime v + 1 - v_currentTime v)) 0.1 = false).
      { apply ltb_ge.
        destruct (mathAbs_spec (v_currentTime v + 1 - v_currentTime v)) as [[H E]|[H E]];
          rewrite E; lra. }
      rewrite Hfar. reflexivity.
Qed.

End StallFacts.

(** ** Time labels *)

Lemma Qfloor_unique (x : Q) (z : Z) :
  inject_Z z <= x -> x < inject_Z (z + 1) -> Qfloor x = z.
Proof.
  intros Hlo Hhi.
  pose proof (Qfloor_le x) as H1. pose proof (Qlt_floor x) as H2.
  assert (Ha : (z < Qfloor x + 1)%Z).
  { rewrite Zlt_Qlt. apply (Qle_lt_trans _ x); assumption. }
  assert (Hb : (Qfloor x < z + 1)%Z).
  { rewrite Zlt_Qlt. apply (Qle_lt_trans _ x); assumption. }
  lia.
Qed.

Lemma Qfloor_spec (x : Q) (z : Z) :
  Qfloor x = z <-> inject_Z z <= x /\ x < inject_Z (z + 1).
Proof.
  split.
  - intros <-. split; [apply Qfloor_le|apply Qlt_floor].
  - intros [H1 H2]. apply Qfloor_unique; assumption.
Qed.

Lemma inject_Z_plus1 (z : Z) : inject_Z (z + 1) == inject_Z z + 1.
Proof. rewrite inject_Z_plus. reflexivity. Qed.

(** The floor of a quotient by a positive whole number. *)
Lemma Qfloor_div (x : Q) (k : Z) :
  (0 < k)%Z -> Qfloor (x / inject_Z k) = (Qfloor x / k)%Z.
Proof.
  intros Hk.
  pose proof (Qfloor_le x) as H1. pose proof (Qlt_floor x) as H2.
  pose proof (Z.div_mod (Qfloor x) k ltac:(lia)) as Hdm.
  pose proof (Z.mod_pos_bound (Qfloor x) k Hk) as Hmod.
  set (F := Qfloor x) in *. set (q := (F / k)%Z) in *. set (r := (F mod k)%Z) in *.
  assert (HkQ : 0 < inject_Z k).
  { change 0 with (inject_Z 0). rewrite <- Zlt_Qlt. exact Hk. }
  apply Qfloor_unique.
  - apply Qle_shift_div_l; [exact HkQ|].
    apply (Qle_trans _ (inject_Z F)); [|exact H1].
    rewrite <- inject_Z_mult. rewrite <- Zle_Qle. lia.
  - apply Qlt_shift_div_r; [exact HkQ|].
    apply (Qlt_le_trans _ (inject_Z (F + 1))); [exact H2|].
    rewrite <- inject_Z_mult. rewrite <- Zle_Qle. lia.
Qed.

(** The floor after taking a whole number away. *)
Lemma Qfloor_minus (x : Q) (n : Z) : Qfloor (x - inject_Z n) = (Qfloor x - n)%Z.
Proof.
  pose proof (Qfloor_le x) as H1. pose proof (Qlt_floor x) as H2.
  apply Qfloor_unique.
  - unfold Zminus. rewrite inject_Z_plus, inject_Z_opp. lra.
  - replace (Qfloor x - n + 1)%Z with (Qfloor x + 1 - n)%Z by lia.
    unfold Zminus at 1. rewrite inject_Z_plus, inject_Z_opp. lra.
Qed.

Lemma truncate_nonneg (x : Q) : 0 <= x -> truncate x = Qfloor x.
Proof.
  intros H. unfold truncate.
  assert (E : ltb x 0 = false) by (apply ltb_ge; exact H).
  rewrite E. reflexivity.
Qed.

(** [a % k] for a number that is not negative and a positive whole [k]. *)
Lemma remainder_nonneg (x : Q) (k : Z) :
  0 <= x -> (0 < k)%Z ->
  remainder x (inject_Z k) = x - inject_Z k * inject_Z (Qfloor x / k).
Proof.
  intros Hx Hk. unfold remainder. rewrite truncate_nonneg.
  - rewrite Qfloor_div by exact Hk. reflexivity.
  - assert (HkQ : 0 < inject_Z k).
    { change 0 with (inject_Z 0). rewrite <- Zlt_Qlt. exact Hk. }
    apply Qle_shift_div_l; [exact HkQ|]. lra.
Qed.

Lemma string_length_append (s1 s2 : string) :
  String.length (s1 ++ s2) = (String.length s1 + String.length s2)%nat.
Proof.
  induction s1 as [|c s1 IH]; simpl; [reflexivity|]. rewrite IH. reflexivity.
Qed.

Section TimeLabelFacts.

Import TimeLabels.

Lemma hours_floor (t : Q) : hours t = (Qfloor t / 3600)%Z.
Proof. unfold hours, mathFloor. apply (Qfloor_div t 3600). lia. Qed.

Lemma minutes_floor (t : Q) : 0 <= t -> minutes t = ((Qfloor t mod 3600) / 60)%Z.
Proof.
  intros Ht. unfold minutes, mathFloor.
  change 3600 with (inject_Z 3600). rewrite (remainder_nonneg t 3600 Ht) by lia.
  change 60 with (inject_Z 60). rewrite (Qfloor_div _ 60) by lia.
  rewrite <- inject_Z_mult, Qfloor_minus.
  f_equal. pose proof (Z.div_mod (Qfloor t) 3600 ltac:(lia)). lia.
Qed.

Lemma seconds_floor (t : Q) : 0 <= t -> seconds t = (Qfloor t mod 60)%Z.
Proof.
  intros Ht. unfold seconds, mathFloor.
  change 60 with (inject_Z 60). rewrite (remainder_nonneg t 60 Ht) by lia.
  rewrite <- inject_Z_mult, Qfloor_minus.
  pose proof (Z.div_mod (Qfloor t) 60 ltac:(lia)). lia.
Qed.

Lemma padStart2_length (n : Z) :
  (0 <= n < 60)%Z -> String.length (padStart2 (showNumber n)) = 2%nat.
Proof.
  intros Hn. rewrite <- (Z2Nat.id n) by lia.
  assert (Hlt : (Z.to_nat n < 60)%nat) by lia.
  generalize dependent (Z.to_nat n). clear Hn. intros k Hk.
  do 60 (destruct k as [|k]; [reflexivity|]). lia.
Qed.

(** X9. The time labels.  For a time [t] that is not negative, the
    hours, minutes and seconds that [formatTime] and [formatDuration]
    print are whole numbers with the minutes and the seconds in 0..59,
    and they add up to the whole seconds of [t]; [formatTime] prints the
    hours only when there are some, and minutes and seconds in two
    digits, so that a time under an hour gives a label of five
    characters; [formatDuration] prints hours and minutes from one hour
    on, and minutes and seconds below. *)
Theorem time_labels_split_the_whole_seconds (t : Q) :
  0 <= t ->
  let h := hours t in
  let m := minutes t in
  let s := seconds t in
  (0 <= h)%Z /\ (0 <= m < 60)%Z /\ (0 <= s < 60)%Z /\
  (3600 * h + 60 * m + s = Qfloor t)%Z /\
  formatTime (Some t)
    = ((if (0 <? h)%Z then showNumber h ++ ":" else EmptyString)
       ++ padStart2 (showNumber m) ++ ":" ++ padStart2 (showNumber s))%string /\
  (t < 3600 -> String.length (formatTime (Some t)) = 5%nat) /\
  formatDuration t
    = (if (0 <? h)%Z then showNumber h ++ "h " ++ showNumber m ++ "m"
       else showNumber m ++ "m " ++ showNumber s ++ "s")%string.
Proof.
  intros Ht h m s.
  assert (HF : (0 <= Qfloor t)%Z).
  { change 0%Z with (Qfloor 0). apply Qfloor_resp_le. exact Ht. }
  assert (Hh : h = (Qfloor t / 3600)%Z) by apply hours_floor.
  assert (Hm : m = ((Qfloor t mod 3600) / 60)%Z) by (apply minutes_floor; exact Ht).
  assert (Hs : s = (Qfloor t mod 60)%Z) by (apply seconds_floor; exact Ht).
  pose proof (Z.div_mod (Qfloor t) 3600 ltac:(lia)) as D1.
  pose proof (Z.mod_pos_bound (Qfloor t) 3600 ltac:(lia)) as B1.
  pose proof (Z.div_mod (Qfloor t mod 3600) 60 ltac:(lia)) as D2.
  pose proof (Z.mod_pos_bound (Qfloor t mod 3600) 60 ltac:(lia)) as B2.
  pose proof (Z.mod_pos_bound (Qfloor t) 60 ltac:(lia)) as B3.
  assert (Hmm : ((Qfloor t mod 3600) mod 60 = Qfloor t mod 60)%Z).
  { apply Z.mod_mod_divide. exists 60%Z. reflexivity. }
  assert (Hh0 : (0 <= h)%Z) by (rewrite Hh; apply Z.div_pos; lia).
  assert (Hm0 : (0 <= m < 60)%Z).
  { rewrite Hm. split; [apply Z.div_pos; lia|].
    apply Z.div_lt_upper_bound; lia. }
  assert (Hs0 : (0 <= s < 60)%Z) by (rewrite Hs; exact B3).
  split; [exact Hh0|]. split; [exact Hm0|]. split; [exact Hs0|].
  split; [rewrite Hh, Hm, Hs; lia|].
  split; [reflexivity|]. split; [|reflexivity].
  intros Hlt. unfold formatTime. fold h m s.
  assert (Hz : h = 0%Z).
  { rewrite Hh. apply Z.div_small. split; [exact HF|].
    assert (H : (Qfloor t < 3600)%Z).
    { rewrite Zlt_Qlt. apply (Qle_lt_trans _ t); [apply Qfloor_le|exact Hlt]. }
    exact H. }
  rewrite Hz. simpl. rewrite string_length_append. simpl.
  rewrite !padStart2_length by assumption. reflexivity.
Qed.

End TimeLabelFacts.

Lemma time_labels_split_the_whole_seconds_witness :
  let t := 3725.5 in
  let h := TimeLabels.hours t in
  let m := TimeLabels.minutes t in
  let s := TimeLabels.seconds t in
  (0 <= h)%Z /\ (0 <= m < 60)%Z /\ (0 <= s < 60)%Z /\
  (3600 * h + 60 * m + s = Qfloor t)%Z /\
  TimeLabels.formatTime (Some t)
    = ((if (0 <? h)%Z then TimeLabels.showNumber h ++ ":" else EmptyString)
       ++ TimeLabels.padStart2 (TimeLabels.showNumber m) ++ ":"
       ++ TimeLabels.padStart2 (TimeLabels.showNumber s))%string /\
  (t < 3600 -> String.length (TimeLabels.formatTime (Some t)) = 5%nat) /\
  TimeLabels.formatDuration t
    = (if (0 <? h)%Z
       then TimeLabels.showNumber h ++ "h " ++ TimeLabels.showNumber m ++ "m"
       else TimeLabels.showNumber m ++ "m " ++ TimeLabels.showNumber s ++ "s")%string.
Proof.
  apply (time_labels_split_the_whole_seconds 3725.5). vm_compute. discriminate.
Defined.

(** One hour, two minutes and five and a half seconds. *)
Example labels_of_3725 :
  TimeLabels.formatTime (Some 3725.5) = "1:02:05"%string /\
  TimeLabels.formatDuration 3725.5 = "1h 2m"%string /\
  TimeLabels.formatTime (Some 59.9) = "00:59"%string /\
  TimeLabels.formatDuration 125 = "2m 5s"%string /\
  TimeLabels.formatTime None = "--:--"%string.
Proof. repeat split; reflexivity. Qed.

(** ** Where the overlay draws an event *)

Section RenderFacts.

Import VisibilityWindow OverlayRender LogDecoder.

Variable toLowerCase : string -> string.

(** What the scan has tested of an element it returns. *)
Lemma scan_bounds (speed : Q) (fs : FilterSettings) (smoothTime endTimeWindow : Q)
    (suffix : list DanmakuItem) (d : DanmakuItem) (dur : Q) :
  In (d, dur) (scan toLowerCase speed fs smoothTime endTimeWindow suffix) ->
  dur = actualDuration speed d /\
  time d <= endTimeWindow /\ smoothTime - dur <= time d.
Proof.
  induction suffix as [|x rest IH]; simpl; [contradiction|].
  destruct (gtb (time x) endTimeWindow) eqn:Hend; [contradiction|].
  destruct (geb (time x) (smoothTime - actualDuration speed x)) eqn:Hg; [|exact IH].
  destruct (passesFilters toLowerCase fs x); [|exact IH].
  intros [H|H]; [|exact (IH H)].
  inversion H; subst. apply geb_ge in Hg. apply gtb_le in Hend. auto.
Qed.

Lemma actualDuration_bounds (speed : Q) (d : DanmakuItem) :
  0 < speed ->
  0 < actualDuration speed d /\ 16 <= speed * actualDuration speed d.
Proof.
  intros Hs. destruct (intrinsicFactor_range d) as [Hlo Hhi].
  unfold actualDuration, BASE_DURATION.
  assert (Hpos : 0 < speed * intrinsicFactor d) by nra.
  split.
  - apply Qlt_shift_div_l; [exact Hpos|]. lra.
  - assert (E : speed * (16 / (speed * intrinsicFactor d)) == 16 / intrinsicFactor d).
    { field. split; lra. }
    rewrite E. apply Qle_shift_div_l; [lra|]. lra.
Qed.

(** X10. The position of a rendered event.  Every element of the overlay
    memo has a positive duration; its horizontal position
    [100 - progress * 140] is at least -40 (it is not drawn past its
    exit) and at most [100 + 4.375 * speed]; it is right of the start
    position 100 exactly when the event has not arrived yet, which is
    the case of the events the memo collects up to half a second ahead;
    and, for any event, the position is 100 at the event's time and -40
    one duration later. *)
Theorem rendered_event_position :
  (forall (show : bool) (danmakuData : list DanmakuItem) (speed : Q)
          (fs : FilterSettings) (smoothTime : Q) (cursor : nat)
          (d : DanmakuItem) (dur : Q),
     0 < speed ->
     In (d, dur)
        (fst (activeOverlayDanmaku toLowerCase show danmakuData speed fs
                smoothTime cursor)) ->
     let x := currentX smoothTime (d, dur) in
     0 < dur /\ endX <= x /\ x <= startX + 4.375 * speed /\
     (startX < x <-> smoothTime < time d)) /\
  (forall (d : DanmakuItem) (dur : Q),
     0 < dur ->
     currentX (time d) (d, dur) == startX /\
     currentX (time d + dur) (d, dur) == endX).
Proof.
  split.
  - intros show danmakuData speed fs smoothTime cursor d dur Hs Hin x.
    unfold activeOverlayDanmaku in Hin.
    destruct (negb show || (length danmakuData =? 0)%nat); [contradiction|].
    simpl fst in Hin. apply scan_bounds in Hin. destruct Hin as (Hd & Hhi & Hlo).
    destruct (actualDuration_bounds speed d Hs) as [Hpos H16].
    rewrite <- Hd in Hpos, H16.
    unfold x, currentX, progress, startX, endX. simpl fst. simpl snd.
    set (p := (smoothTime - time d) / dur).
    assert (Hp : p * dur == smoothTime - time d).
    { unfold p. field. lra. }
    assert (Hp1 : p <= 1) by nra.
    assert (Hp2 : - (1 # 2) <= p * dur) by lra.
    split; [exact Hpos|]. split; [lra|]. split.
    + assert (Hq : - speed <= 32 * p).
      { assert (Hprod : 0 <= 32 * (p * dur) + speed * dur) by lra.
        destruct (Qlt_le_dec (32 * p + speed) 0) as [Hneg|Hok]; [|lra].
        exfalso. assert (Hlt : (32 * p + speed) * dur < 0) by nra. lra. }
      lra.
    + split; intros H.
      * assert (Hn : p < 0) by lra. nra.
      * assert (Hn : p * dur < 0) by lra.
        assert (Hp0 : p < 0) by nra. lra.
  - intros d dur Hpos. unfold currentX, progress, startX, endX. simpl fst. simpl snd.
    split; field; lra.
Qed.

Lemma assignTracksFrom_range (items : list DanmakuItem) :
  forall free : list Q,
    length free = TOTAL_TRACKS ->
    Forall (fun d => (0 <= trackIndex d < Z.of_nat TOTAL_TRACKS)%Z)
           (assignTracksFrom free items).
Proof.
  induction items as [|x rest IH]; intros free Hlen; [constructor|].
  rewrite assignTracksFrom_cons.
  destruct (assignTrack_holds free x Hlen) as (k & Hk & _ & Ha & _).
  rewrite Ha. cbn [fst snd]. constructor.
  - unfold TOTAL_TRACKS in *. simpl. lia.
  - apply IH. rewrite setAt_length; [exact Hlen|]. rewrite Hlen. exact Hk.
Qed.

Lemma firstFitN_all_NaN (free : list number) (tm : number) (n t : nat) :
  Forall (fun f => f = None) free -> firstFitN free tm t n = (-1)%Z.
Proof.
  intros Hall. revert t. induction n as [|n IH]; intros t; simpl; [reflexivity|].
  destruct (nth_error free t) as [f|] eqn:E; [|apply IH].
  rewrite Forall_forall in Hall. rewrite (Hall f (nth_error_In _ _ E)). apply IH.
Qed.

Lemma leastBusyN_all_NaN (free : list number) (n t : nat) (best : Z) :
  Forall (fun f => f = None) free -> leastBusyN free t n None best = best.
Proof.
  intros Hall. revert t. induction n as [|n IH]; intros t; simpl; [reflexivity|].
  destruct (nth_error free t) as [f|] eqn:E; [|apply IH].
  rewrite Forall_forall in Hall. rewrite (Hall f (nth_error_In _ _ E)). apply IH.
Qed.

Section Rows.

Variable parseFloat : string -> number.
Variable parseInt : string -> Z.
Variable decodeRaw : option string -> option string -> RawMeta.

(** X11. Rows.  In a log whose records all have a number for their time,
    every event the decoder returns has a lane from 0 to 15 (the fallback
    on the timestamp is not what decides), so the overlay draws it in
    one of sixteen rows, at 0, 6, ..., 90 percent of the height.  The
    condition on the log is needed: when every lane's free time is [NaN],
    as after sixteen records without a time, neither loop settles on a
    lane, and the lane is [timestamp % 16], negative for a negative
    timestamp. *)
Theorem every_event_gets_one_of_sixteen_rows (dElements : list DElement) :
  numericLog parseFloat dElements ->
  Forall (fun d => (0 <= trackIndex d < 16)%Z /\
                   top d = (6 * trackIndex d)%Z /\ (0 <= top d <= 90)%Z)
         (parseDanmakuXml parseFloat parseInt decodeRaw dElements) /\
  (forall (tracksFreeTime : list number) (item : DanmakuItemOf number),
     Forall (fun free => free = None) tracksFreeTime ->
     chooseTrackN tracksFreeTime item = Z.rem (d_timestamp item) 16).
Proof.
  intros Hlog. split.
  - destruct (decoder_on_numeric_log parseFloat parseInt decodeRaw dElements Hlog)
      as [_ Hout].
    rewrite Hout. apply Forall_map. unfold assignTracks.
    eapply Forall_impl; [|apply assignTracksFrom_range; apply repeat_length].
    intros d Hd. simpl in Hd.
    change (trackIndex (numeric d)) with (trackIndex d).
    change (top (numeric d)) with (top d).
    split; [exact Hd|].
    assert (Hrem : Z.rem (trackIndex d) 16 = trackIndex d).
    { apply Z.rem_small. exact Hd. }
    unfold top. rewrite Hrem. split; lia.
  - intros free item Hall. unfold chooseTrackN.
    rewrite (firstFitN_all_NaN free (time item) TOTAL_TRACKS 0 Hall).
    change ((-1 =? -1)%Z) with true. cbv iota.
    rewrite (leastBusyN_all_NaN free TOTAL_TRACKS 0 (-1)%Z Hall).
    reflexivity.
Qed.

(** X12. Loading a log into the player.  For a log whose records all have
    a number for their time: the player's own sort of the decoder's
    output changes nothing, and the cursor starts at 0; the events are
    in time order; and from there, frames at times that do not go back
    render, one after the other, exactly the events of the window: those
    with [time <= t + 0.5] and [time >= t - duration] that pass the
    filters. *)
Theorem loaded_log_plays_forward_through_the_window (dElements : list DElement)
    (searchStartIndexRef : nat) (speed : Q) (fs : FilterSettings) (frames : list Q) :
  numericLog parseFloat dElements -> 0 < speed -> StronglySorted Qle frames ->
  let loaded := Loader.loadDanmaku parseFloat parseInt decodeRaw (Some dElements)
                  searchStartIndexRef in
  fst loaded = parseDanmakuXml parseFloat parseInt decodeRaw dElements /\
  snd loaded = O /\
  exists danmakuData : list DanmakuItem,
    fst loaded = map numeric danmakuData /\
    sortedByTime danmakuData /\
    renderFrames toLowerCase true danmakuData speed fs (snd loaded) frames
    = map (fun t => visibleSet toLowerCase speed fs t danmakuData) frames.
Proof.
  intros Hlog Hs Hframes loaded.
  destruct (decoder_sorted_on_numeric_log parseFloat parseInt decodeRaw dElements Hlog)
    as (items & Hout & Hsorted).
  assert (Hfst : fst loaded = parseDanmakuXml parseFloat parseInt decodeRaw dElements).
  { unfold loaded, Loader.loadDanmaku. cbn [fst]. rewrite Hout.
    rewrite (sortBy_map numeric byTime byTimeN byTimeN_numeric).
    rewrite (sortBy_byTime_sorted_id items Hsorted). reflexivity. }
  split; [exact Hfst|]. split; [reflexivity|].
  exists items. rewrite Hfst. split; [exact Hout|]. split; [exact Hsorted|].
  change (snd loaded) with O.
  destruct frames as [|t rest]; [reflexivity|].
  apply (renderFrames_forward toLowerCase _ speed fs (t :: rest) Hs Hsorted O t).
  - unfold cursorBehindWindow. simpl. constructor.
  - constructor; [exact Hframes|]. constructor; [apply Qle_refl|].
    inversion Hframes; assumption.
Qed.

End Rows.

End RenderFacts.

Lemma every_event_gets_one_of_sixteen_rows_witness :
  Forall (fun d => (0 <= trackIndex d < 16)%Z /\
                   OverlayRender.top d = (6 * trackIndex d)%Z /\
                   (0 <= OverlayRender.top d <= 90)%Z)
         (LogDecoder.parseDanmakuXml Examples.readTime Examples.readInt
            Examples.plainMeta Examples.shuffledLog) /\
  (forall (tracksFreeTime : list number) (item : DanmakuItemOf number),
     Forall (fun free => free = None) tracksFreeTime ->
     LogDecoder.chooseTrackN tracksFreeTime item = Z.rem (d_timestamp item) 16).
Proof.
  apply (every_event_gets_one_of_sixteen_rows Examples.readTime Examples.readInt
           Examples.plainMeta Examples.shuffledLog).
  repeat constructor; vm_compute; discriminate.
Defined.

(** Seventeen records without a time: the first sixteen take the lanes 0
    to 15 and leave [NaN] in each, and the seventeenth gets
    [timestamp % 16], here -5. *)
Example lanes_after_sixteen_records_without_a_time :
  map trackIndex
      (LogDecoder.assignTracksN (repeat (Examples.untimed 7) 16 ++ [Examples.untimed (-5)]))
  = [0; 1; 2; 3; 4; 5; 6; 7; 8; 9; 10; 11; 12; 13; 14; 15; -5]%Z.
Proof. vm_compute. reflexivity. Qed.

Lemma loaded_log_plays_forward_through_the_window_witness :
  let loaded := Loader.loadDanmaku Examples.readTime Examples.readInt
                  Examples.plainMeta (Some Examples.shuffledLog) 5 in
  fst loaded
    = LogDecoder.parseDanmakuXml Examples.readTime Examples.readInt
        Examples.plainMeta Examples.shuffledLog /\
  snd loaded = O /\
  exists danmakuData : list DanmakuItem,
    fst loaded = map numeric danmakuData /\
    VisibilityWindow.sortedByTime danmakuData /\
    VisibilityWindow.renderFrames asciiLower true danmakuData 1 Examples.noFilters
      (snd loaded) [1; 2.5; 30]
    = map (fun t => VisibilityWindow.visibleSet asciiLower 1 Examples.noFilters t
                      danmakuData) [1; 2.5; 30].
Proof.
  apply (loaded_log_plays_forward_through_the_window asciiLower
           Examples.readTime Examples.readInt Examples.plainMeta
           Examples.shuffledLog 5 1 Examples.noFilters [1; 2.5; 30]).
  - repeat constructor; vm_compute; discriminate.
  - reflexivity.
  - repeat constructor; vm_compute; discriminate.
Defined.

(** ** Addresses of stickers and emotes *)

Lemma startsWith_prefix (s k : string) :
  startsWith s k = true -> s = (k ++ dropChars (String.length k) s)%string.
Proof.
  revert s. induction k as [|b k IH]; intros s H; [reflexivity|].
  destruct s as [|a s]; [discriminate|].
  simpl in H. apply andb_true_iff in H. destruct H as [E H].
  apply Ascii.eqb_eq in E. subst b. simpl. f_equal. apply IH. exact H.
Qed.

(** X13. The address rewrite of the decoder: its result never starts with
    [http://] or with [//]; applied again it changes nothing; an address
    that starts with neither is left as it is; and the two rewrites are
    the prefix [https://] in place of [http://], and [https:] in front of
    [//]. *)
Theorem forced_address_is_never_plain_http (url : string) :
  let out := Loader.forceHttps url in
  startsWith out "http://" = false /\
  startsWith out "//" = false /\
  Loader.forceHttps out = out /\
  (startsWith url "http://" = true ->
   url = ("http://" ++ dropChars 7 url)%string /\
   out = ("https://" ++ dropChars 7 url)%string) /\
  (startsWith url "http://" = false -> startsWith url "//" = true ->
   out = ("https:" ++ url)%string) /\
  (startsWith url "http://" = false -> startsWith url "//" = false -> out = url).
Proof.
  intros out. unfold out, Loader.forceHttps.
  destruct (startsWith url "http://") eqn:Hhttp.
  - assert (Hurl : url = ("http://" ++ dropChars 7 url)%string).
    { apply (startsWith_prefix url "http://" Hhttp). }
    repeat split; try reflexivity; try discriminate; auto.
  - destruct (startsWith url "//") eqn:Hslash.
    + repeat split; try reflexivity; try discriminate; auto.
    + rewrite Hhttp, Hslash. repeat split; try reflexivity; try discriminate; auto.
Qed.

(** ** Scanning a log as text *)

Section ScanFacts.

Import TextScan.

Lemma scan_fold (groups : list string) (count : Z) (maxTime : Q) :
  let step := fun (acc : Z * Q) (group : string) =>
                let '(count, maxTime) := acc in
                ((count + 1)%Z,
                 match parseFloat group with
                 | Some t => if gtb t maxTime then t else maxTime
                 | None => maxTime
                 end) in
  let r := fold_left step groups (count, maxTime) in
  fst r = (count + Z.of_nat (length groups))%Z /\
  maxTime <= snd r /\
  Forall (fun t => t <= snd r) (parsedTimes groups) /\
  (snd r = maxTime \/ In (snd r) (parsedTimes groups)).
Proof.
  intros step. revert count maxTime.
  induction groups as [|g rest IH]; intros count maxTime.
  - simpl. split; [lia|]. split; [apply Qle_refl|]. split; [constructor|auto].
  - cbn [fold_left].
    set (m' := match parseFloat g with
               | Some t => if gtb t maxTime then t else maxTime
               | None => maxTime
               end).
    change (step (count, maxTime) g) with ((count + 1)%Z, m').
    destruct (IH (count + 1)%Z m') as (H1 & H2 & H3 & H4).
    set (r := fold_left step rest ((count + 1)%Z, m')) in *.
    assert (Hm : maxTime <= m' /\ Forall (fun t => t <= m')
                                    (match parseFloat g with Some t => [t] | None => [] end) /\
                 (m' = maxTime \/ parseFloat g = Some m')).
    { unfold m'. destruct (parseFloat g) as [t|].
      - destruct (gtb t maxTime) eqn:E.
        + apply gtb_gt in E. split; [lra|]. split; [repeat constructor; lra|auto].
        + apply gtb_le in E. split; [lra|]. split; [repeat constructor; lra|auto].
      - split; [lra|]. split; [constructor|auto]. }
    destruct Hm as (Hm1 & Hm2 & Hm3).
    split; [rewrite H1; simpl length; lia|].
    split; [lra|]. split.
    + unfold parsedTimes. cbn [flat_map]. apply Forall_app. split; [|exact H3].
      eapply Forall_impl; [|exact Hm2]. intros t Ht. simpl in Ht. lra.
    + unfold parsedTimes. cbn [flat_map].
      destruct H4 as [H4|H4].
      * destruct Hm3 as [Hm3|Hm3]; [left; congruence|].
        right. apply in_or_app. left. rewrite Hm3, H4. left. reflexivity.
      * right. apply in_or_app. right. exact H4.
Qed.

(** X14. The metadata scan.  [count] is the number of matches of the
    pattern; [duration] is not negative, no matched time is after it, and
    it is 0 or one of the matched times: it is the time of the latest
    record, 0 for a log without records.  So the segment the grouping
    pass builds from a recording has a duration and a count that are not
    negative, whether its log is there, unreadable or missing. *)
Theorem scanned_duration_is_the_latest_record :
  (forall text : string,
     let groups := execAll text in
     let meta := scanXmlMetadata text in
     fst meta = Z.of_nat (length groups) /\
     0 <= snd meta /\
     Forall (fun t => t <= snd meta) (parsedTimes groups) /\
     (snd meta = 0 \/ In (snd meta) (parsedTimes groups))) /\
  (forall (coverOf xmlOf : StreamFile -> option string)
          (readText : string -> option string) (file : StreamFile),
     let segment :=
       SessionGrouping.segmentOf coverOf xmlOf
         (fun key => option_map scanXmlMetadata (readText key)) file in
     0 <= duration segment /\ (0 <= danmakuCount segment)%Z).
Proof.
  assert (Hscan : forall text : string,
            fst (scanXmlMetadata text) = Z.of_nat (length (execAll text)) /\
            0 <= snd (scanXmlMetadata text) /\
            Forall (fun t => t <= snd (scanXmlMetadata text)) (parsedTimes (execAll text)) /\
            (snd (scanXmlMetadata text) = 0
             \/ In (snd (scanXmlMetadata text)) (parsedTimes (execAll text)))).
  { intros text. unfold scanXmlMetadata.
    destruct (scan_fold (execAll text) 0%Z 0) as (H1 & H2 & H3 & H4).
    split; [rewrite H1; lia|]. split; [exact H2|]. split; [exact H3|exact H4]. }
  split; [exact Hscan|].
  intros coverOf xmlOf readText file segment.
  unfold segment, SessionGrouping.segmentOf.
  destruct (xmlOf file) as [xmlKey|]; [|simpl; split; [lra|lia]].
  destruct (readText xmlKey) as [text|]; [|simpl; split; [lra|lia]].
  simpl option_map. destruct (Hscan text) as (H1 & H2 & _).
  destruct (scanXmlMetadata text) as [count dur]. simpl in *.
  split; [exact H2|lia].
Qed.

(** The log of three records: three matches, the latest at 12 seconds. *)
Example scan_of_smallLog :
  execAll MoreExamples.smallLog = ["1.5"; "12"; "7.25"]%string /\
  fst (scanXmlMetadata MoreExamples.smallLog) = 3%Z /\
  snd (scanXmlMetadata MoreExamples.smallLog) == 12.
Proof. repeat split; reflexivity. Qed.

(** *** The density bins *)

Lemma incrementAt_length (bins : list Z) (k : nat) :
  length (incrementAt bins k) = length bins.
Proof.
  revert k. induction bins as [|b bins IH]; intros k; [reflexivity|].
  destruct k; simpl; [reflexivity|]. rewrite IH. reflexivity.
Qed.

Lemma incrementAt_nth (bins : list Z) (k i : nat) :
  nth_error (incrementAt bins k) i
  = option_map (fun b => if Nat.eqb i k then (b + 1)%Z else b) (nth_error bins i).
Proof.
  revert k i. induction bins as [|b bins IH]; intros k i.
  - destruct i; reflexivity.
  - destruct k, i; simpl; try reflexivity.
    + destruct (nth_error bins i); reflexivity.
    + apply IH.
Qed.

Section DensityAnyNumber.

Context {T : Type} {N : JsNumber T} {M : JsMath T}.

Variable readText : string -> option string.

Lemma countRecord_length (totalDuration : T) (binCount : nat) (currentStart : T)
    (bins : list Z) (group : string) :
  length (countRecord totalDuration binCount currentStart bins group) = length bins.
Proof.
  unfold countRecord. destruct (parseTime group); [|reflexivity].
  cbv zeta. destruct (binIndexOf _ _ _) as [binIndex|]; [|reflexivity].
  destruct ((0 <=? binIndex)%Z && (binIndex <? Z.of_nat binCount)%Z);
    [apply incrementAt_length|reflexivity].
Qed.

Lemma countRecord_nth (totalDuration : T) (binCount : nat) (currentStart : T)
    (bins : list Z) (group : string) (i : nat) (b : Z) :
  (i < binCount)%nat -> nth_error bins i = Some b ->
  nth_error (countRecord totalDuration binCount currentStart bins group) i
  = Some (b + Z.of_nat
                (length (filter (lands totalDuration binCount i)
                                (match parseTime group with
                                 | Some t => [num_add currentStart t]
                                 | None => []
                                 end))))%Z.
Proof.
  intros Hi Hb. unfold countRecord.
  destruct (parseTime group) as [t|]; [|simpl; rewrite Hb; f_equal; lia].
  cbv zeta. cbn [filter]. unfold lands at 1.
  destruct (binIndexOf totalDuration binCount (num_add currentStart t))
    as [binIndex|]; [|simpl; rewrite Hb; f_equal; lia].
  destruct ((0 <=? binIndex)%Z && (binIndex <? Z.of_nat binCount)%Z) eqn:Hrange.
  - apply andb_true_iff in Hrange. destruct Hrange as [H0 H1].
    apply Z.leb_le in H0. apply Z.ltb_lt in H1.
    rewrite incrementAt_nth, Hb. simpl option_map.
    destruct (Nat.eqb i (Z.to_nat binIndex)) eqn:E.
    + apply Nat.eqb_eq in E.
      assert (E' : (binIndex =? Z.of_nat i)%Z = true) by (apply Z.eqb_eq; lia).
      rewrite E'. reflexivity.
    + apply Nat.eqb_neq in E.
      assert (E' : (binIndex =? Z.of_nat i)%Z = false) by (apply Z.eqb_neq; lia).
      rewrite E'. simpl. f_equal. lia.
  - assert (E' : (binIndex =? Z.of_nat i)%Z = false).
    { apply Z.eqb_neq. intros E. rewrite E in Hrange.
      apply andb_false_iff in Hrange. destruct Hrange as [H|H].
      - apply Z.leb_gt in H. lia.
      - apply Z.ltb_ge in H. lia. }
    rewrite E', Hb. simpl. f_equal. lia.
Qed.

Lemma countRecords_nth (totalDuration : T) (binCount : nat) (currentStart : T)
    (groups : list string) :
  forall (bins : list Z) (i : nat) (b : Z),
    (i < binCount)%nat -> nth_error bins i = Some b ->
    nth_error (fold_left (countRecord totalDuration binCount currentStart) groups bins) i
    = Some (b + Z.of_nat
                  (length (filter (lands totalDuration binCount i)
                             (flat_map (fun group => match parseTime group with
                                                     | Some t => [num_add currentStart t]
                                                     | None => []
                                                     end) groups))))%Z.
Proof.
  induction groups as [|g rest IH]; intros bins i b Hi Hb.
  - simpl. rewrite Hb. f_equal. lia.
  - cbn [fold_left flat_map].
    rewrite (IH _ i _ Hi (countRecord_nth totalDuration binCount currentStart bins g i b Hi Hb)).
    rewrite filter_app, length_app. f_equal. lia.
Qed.

Lemma countRecords_length (totalDuration : T) (binCount : nat) (currentStart : T)
    (groups : list string) (bins : list Z) :
  length (fold_left (countRecord totalDuration binCount currentStart) groups bins)
  = length bins.
Proof.
  revert bins. induction groups as [|g rest IH]; intros bins; [reflexivity|].
  cbn [fold_left]. rewrite IH. apply countRecord_length.
Qed.

Lemma densityLoop_length (totalDuration : T) (binCount : nat)
    (segments : list (StreamSegment T)) :
  forall (currentStart : T) (bins : list Z),
    length (densityLoop readText totalDuration binCount currentStart bins segments)
    = length bins.
Proof.
  induction segments as [|seg rest IH]; intros currentStart bins; [reflexivity|].
  cbn [densityLoop]. rewrite IH.
  destruct (danmakuFile seg) as [f|]; [|reflexivity].
  destruct (readText f); [apply countRecords_length|reflexivity].
Qed.

Lemma densityLoop_nth (totalDuration : T) (binCount : nat)
    (segments : list (StreamSegment T)) :
  forall (currentStart : T) (bins : list Z) (i : nat) (b : Z),
    (i < binCount)%nat -> nth_error bins i = Some b ->
    nth_error (densityLoop readText totalDuration binCount currentStart bins segments) i
    = Some (b + Z.of_nat
                  (length (filter (lands totalDuration binCount i)
                             (recordTimes readText currentStart segments))))%Z.
Proof.
  induction segments as [|seg rest IH]; intros currentStart bins i b Hi Hb.
  - simpl. rewrite Hb. f_equal. lia.
  - cbn [densityLoop recordTimes]. rewrite filter_app, length_app.
    destruct (danmakuFile seg) as [f|].
    + destruct (readText f) as [text|].
      * rewrite (IH _ _ i _ Hi
                   (countRecords_nth totalDuration binCount currentStart (execAll text)
                      bins i b Hi Hb)).
        f_equal. lia.
      * rewrite (IH _ _ i b Hi Hb). simpl. reflexivity.
    + rewrite (IH _ _ i b Hi Hb). simpl. reflexivity.
Qed.

Lemma scan_bins (segments : list (StreamSegment T)) (totalDuration : T)
    (binCount : nat) :
  let bins := scanSessionDanmakuDensity readText segments totalDuration binCount in
  let times := recordTimes readText num_zero segments in
  length bins = binCount /\
  (num_geb num_zero totalDuration = true -> bins = repeat 0%Z binCount) /\
  (num_geb num_zero totalDuration = false ->
   forall i, (i < binCount)%nat ->
     nth_error bins i
     = Some (Z.of_nat (length (filter (lands totalDuration binCount i) times)))).
Proof.
  intros bins times. unfold bins, scanSessionDanmakuDensity.
  split; [|split].
  - destruct (num_geb num_zero totalDuration); [apply repeat_length|].
    rewrite densityLoop_length. apply repeat_length.
  - intros Hle. rewrite Hle. reflexivity.
  - intros E i Hi. rewrite E.
    assert (Hb : nth_error (repeat 0%Z binCount) i = Some 0%Z).
    { rewrite nth_error_repeat by exact Hi. reflexivity. }
    rewrite (densityLoop_nth totalDuration binCount segments num_zero _ i 0%Z Hi Hb).
    reflexivity.
Qed.

End DensityAnyNumber.

Lemma Qle_div_iff (a b c : Q) : 0 < c -> (a <= b / c <-> a * c <= b).
Proof.
  intros Hc. split; [|apply Qle_shift_div_l; exact Hc].
  intros H. assert (E : b == b / c * c) by (field; lra).
  rewrite E. apply Qmult_le_compat_r; [exact H|lra].
Qed.

Lemma Qlt_div_iff (a b c : Q) : 0 < c -> (b / c < a <-> b < a * c).
Proof.
  intros Hc. split; [|apply Qlt_shift_div_r; exact Hc].
  intros H. assert (E : b == b / c * c) by (field; lra).
  rewrite E. apply Qmult_lt_compat_r; assumption.
Qed.

(** In exact arithmetic the bin computed with [Math.floor] is the bin of
    the time's interval. *)
Lemma lands_inBin (totalDuration : Q) (binCount i : nat) (g : Q) :
  0 < totalDuration -> (i < binCount)%nat ->
  lands totalDuration binCount i g = inBin totalDuration binCount i g.
Proof.
  intros Ht Hi. unfold lands, binIndexOf, inBin.
  cbn [num_floor num_mul num_div num_of_nat exactMath].
  assert (Hbc : 0 < inject_Z (Z.of_nat binCount)).
  { change 0 with (inject_Z 0). rewrite <- Zlt_Qlt. lia. }
  set (bc := inject_Z (Z.of_nat binCount)) in *.
  assert (Hw : 0 < totalDuration / bc) by (apply Qlt_shift_div_l; lra).
  assert (Eg : g / totalDuration * bc == g / (totalDuration / bc)).
  { field. split; lra. }
  destruct (Qfloor (g / totalDuration * bc) =? Z.of_nat i)%Z eqn:E.
  - apply Z.eqb_eq in E. apply Qfloor_spec in E. destruct E as [E1 E2].
    rewrite Eg in E1, E2. symmetry. apply andb_true_iff. split.
    + apply leb_le. apply (Qle_div_iff _ _ _ Hw). exact E1.
    + apply ltb_lt. apply (Qlt_div_iff _ _ _ Hw). exact E2.
  - symmetry. apply andb_false_iff.
    destruct (leb (inject_Z (Z.of_nat i) * (totalDuration / bc)) g) eqn:L1; [|auto].
    right. destruct (ltb g (inject_Z (Z.of_nat i + 1) * (totalDuration / bc))) eqn:L2;
      [|reflexivity].
    exfalso. apply Z.eqb_neq in E. apply E. apply Qfloor_unique; rewrite Eg.
    + apply leb_le in L1. apply Qle_shift_div_l; assumption.
    + apply ltb_lt in L2. apply Qlt_shift_div_r; assumption.
Qed.

Lemma inBin_before_the_end (totalDuration : Q) (binCount i : nat) (g : Q) :
  0 < totalDuration -> (i < binCount)%nat -> totalDuration <= g ->
  inBin totalDuration binCount i g = false.
Proof.
  intros Hpos Hi Hg. unfold inBin.
  assert (Hbc : 0 < inject_Z (Z.of_nat binCount)).
  { change 0 with (inject_Z 0). rewrite <- Zlt_Qlt. lia. }
  apply andb_false_iff. right. apply ltb_ge.
  assert (Hi1 : inject_Z (Z.of_nat i + 1) <= inject_Z (Z.of_nat binCount)).
  { rewrite <- Zle_Qle. lia. }
  set (bc := inject_Z (Z.of_nat binCount)) in *.
  set (k := inject_Z (Z.of_nat i + 1)) in *.
  assert (Hk : 0 < k).
  { unfold k. change 0 with (inject_Z 0). rewrite <- Zlt_Qlt. lia. }
  apply (Qle_trans _ totalDuration); [|exact Hg].
  assert (E : k * (totalDuration / bc) == totalDuration * (k / bc)) by (field; lra).
  rewrite E.
  assert (Hr : k / bc <= 1) by (apply Qle_shift_div_r; lra).
  nra.
Qed.

(** X15. The density bins of a session.  In any arithmetic, the doubles
    of the code included: the result has [binCount] bins; when
    [totalDuration <= 0] they are all 0; otherwise bin [i] holds the
    number of records for which the index the loop computes,
    [Math.floor((globalTime / totalDuration) * binCount)], is [i], the
    global time being the time in the log plus the declared durations of
    the segments before it (a segment without a readable log contributes
    its duration and no record).  In exact arithmetic that index is [i]
    exactly for the times in [i * w, (i + 1) * w), with [w] the width
    [totalDuration / binCount], and a record at or after the total
    duration is in no bin.  In doubles the quotient and the product are
    rounded, and a record on the edge of a bin can be counted in the bin
    below: 14.5 seconds of 100, over 200 bins, is on the lower edge of
    bin 29 and is counted in bin 28. *)
Theorem density_bins_count_records_by_time :
  (forall (T : Type) (N : JsNumber T) (M : JsMath T)
          (readText : string -> option string)
          (segments : list (StreamSegment T)) (totalDuration : T) (binCount : nat),
     let bins := scanSessionDanmakuDensity readText segments totalDuration binCount in
     let times := recordTimes readText num_zero segments in
     length bins = binCount /\
     (num_geb num_zero totalDuration = true -> bins = repeat 0%Z binCount) /\
     (num_geb num_zero totalDuration = false ->
      forall i, (i < binCount)%nat ->
        nth_error bins i
        = Some (Z.of_nat (length (filter (lands totalDuration binCount i) times))))) /\
  (forall (totalDuration : Q) (binCount i : nat) (g : Q),
     (num_geb num_zero totalDuration = false <-> 0 < totalDuration) /\
     (0 < totalDuration -> (i < binCount)%nat ->
      lands totalDuration binCount i g = inBin totalDuration binCount i g /\
      (totalDuration <= g -> lands totalDuration binCount i g = false))) /\
  (inBin 100 200 29 14.5 = true /\
   lands (M := exactMath) 100 200 29 14.5 = true /\
   lands (M := binary64Math) (num_decimal 100) 200 28 (num_decimal 14.5) = true /\
   lands (M := binary64Math) (num_decimal 100) 200 29 (num_decimal 14.5) = false).
Proof.
  split; [|split].
  - intros T N M readText segments totalDuration binCount.
    apply scan_bins.
  - intros totalDuration binCount i g. split.
    + cbn [num_geb num_zero rationals]. unfold geb. apply leb_gt.
    + intros Hpos Hi. split; [apply lands_inBin; assumption|].
      intros Hg. rewrite lands_inBin by assumption.
      apply inBin_before_the_end; assumption.
  - repeat split; vm_compute; reflexivity.
Qed.

End ScanFacts.

(** Two segments of 12 seconds, each with the log of three records, in
    eight bins over 24 seconds: the record at 12 seconds of the second
    segment has global time 24 and is not counted. *)
Example density_of_two_segments :
  let segments := [ mkStreamSegment (Examples.fileAt 0 "a") 12 None (Some "x"%string) 3;
                    mkStreamSegment (Examples.fileAt 12000 "a") 12 None (Some "x"%string) 3 ] in
  TextScan.scanSessionDanmakuDensity (fun _ => Some MoreExamples.smallLog) segments 24 8
  = [1; 0; 1; 0; 2; 0; 1; 0]%Z.
Proof. vm_compute. reflexivity. Qed.

(** One segment of 100 seconds whose log has one record, at 14.5 seconds,
    in 200 bins: exact arithmetic counts it in bin 29, the doubles of the
    code in bin 28. *)
Example density_on_a_bin_edge :
  let exact := [ mkStreamSegment (Examples.fileAt 0 "a") (100 : Q) None
                   (Some "x"%string) 1 ] in
  let doubles := [ mkStreamSegment (Examples.fileAt 0 "a") (decimal 100 1) None
                     (Some "x"%string) 1 ] in
  let read := fun _ : string => Some MoreExamples.edgeLog in
  (nth_error (TextScan.scanSessionDanmakuDensity read exact 100 200) 28 = Some 0%Z /\
   nth_error (TextScan.scanSessionDanmakuDensity read exact 100 200) 29 = Some 1%Z) /\
  (nth_error (TextScan.scanSessionDanmakuDensity read doubles (decimal 100 1) 200) 28
   = Some 1%Z /\
   nth_error (TextScan.scanSessionDanmakuDensity read doubles (decimal 100 1) 200) 29
   = Some 0%Z).
Proof. repeat split; vm_compute; reflexivity. Qed.

(** ** The density curve *)

Section CurveFacts.

Import DensityCurve.

Lemma bump_nonneg (bins : list Q) (k : nat) :
  Forall (fun v => 0 <= v) bins -> Forall (fun v => 0 <= v) (bump bins k).
Proof.
  intros H. revert k. induction H as [|b bins Hb Hbins IH]; intros k; [constructor|].
  destruct k; simpl; constructor; try assumption; [lra|apply IH].
Qed.

Lemma bump_length (bins : list Q) (k : nat) : length (bump bins k) = length bins.
Proof.
  revert k. induction bins as [|b bins IH]; intros k; [reflexivity|].
  destruct k; simpl; [reflexivity|]. rewrite IH. reflexivity.
Qed.

Lemma localBins_shape (danmakuData : list DanmakuItem) (duration : Q) (binCount : nat) :
  length (localBins danmakuData duration binCount) = binCount /\
  Forall (fun v => 0 <= v) (localBins danmakuData duration binCount).
Proof.
  unfold localBins.
  generalize (duration / inject_Z (Z.of_nat binCount)). intros binWidth.
  assert (H0 : length (repeat 0 binCount) = binCount /\
               Forall (fun v => 0 <= v) (repeat 0 binCount)).
  { split; [apply repeat_length|]. apply Forall_forall. intros v Hv.
    apply repeat_spec in Hv. subst v. lra. }
  revert H0. generalize (repeat 0 binCount).
  induction danmakuData as [|d rest IH]; intros bins [Hl Hn]; [split; assumption|].
  cbn [fold_left]. apply IH.
  match goal with |- context [if ?c then _ else _] => destruct c end.
  - split; [rewrite bump_length; exact Hl|apply bump_nonneg; exact Hn].
  - split; assumption.
Qed.

(** The window of the moving average at a bin inside the array holds the
    bin itself, so the count is at least 1; and the sum of bins that are
    not negative is not negative. *)
Lemma windowTotals_bounds (bins : list Q) (binCount windowSize i : nat) :
  Forall (fun v => 0 <= v) bins -> (i < binCount)%nat ->
  0 <= fst (windowTotals bins binCount windowSize i) /\
  1 <= snd (windowTotals bins binCount windowSize i).
Proof.
  intros Hn Hi. unfold windowTotals.
  set (step := fun (acc : Q * Q) (k : nat) =>
                 let j := (Z.of_nat i - Z.of_nat windowSize + Z.of_nat k)%Z in
                 if (0 <=? j)%Z && (j <? Z.of_nat binCount)%Z
                 then (fst acc + nth (Z.to_nat j) bins 0, snd acc + 1)
                 else acc).
  assert (Hnth : forall n, 0 <= nth n bins 0).
  { intros n. destruct (nth_in_or_default n bins 0) as [H|H].
    - rewrite Forall_forall in Hn. apply Hn. exact H.
    - rewrite H. lra. }
  assert (Hstep : forall ks acc, 0 <= fst acc -> 0 <= snd acc ->
            0 <= fst (fold_left step ks acc) /\
            snd acc <= snd (fold_left step ks acc) /\
            (In windowSize ks -> snd acc + 1 <= snd (fold_left step ks acc))).
  { induction ks as [|k ks IH]; intros acc Hf Hs.
    - simpl. split; [exact Hf|]. split; [lra|]. intros [].
    - cbn [fold_left].
      assert (Hacc : 0 <= fst (step acc k) /\ snd acc <= snd (step acc k) /\
                     (k = windowSize -> snd acc + 1 <= snd (step acc k))).
      { unfold step.
        destruct ((0 <=? Z.of_nat i - Z.of_nat windowSize + Z.of_nat k)%Z
                  && (Z.of_nat i - Z.of_nat windowSize + Z.of_nat k <? Z.of_nat binCount)%Z)
          eqn:E.
        - simpl. split; [specialize (Hnth (Z.to_nat (Z.of_nat i - Z.of_nat windowSize
                                                      + Z.of_nat k))); lra|].
          split; [lra|]. intros _. lra.
        - split; [exact Hf|]. split; [lra|]. intros Hk. subst k.
          apply andb_false_iff in E. destruct E as [E|E].
          + apply Z.leb_gt in E. lia.
          + apply Z.ltb_ge in E. lia. }
      destruct Hacc as (A1 & A2 & A3).
      destruct (IH (step acc k) A1 ltac:(lra)) as (I1 & I2 & I3).
      split; [exact I1|]. split; [lra|].
      intros [Hk|Hk]; [specialize (A3 Hk); lra|specialize (I3 Hk); lra]. }
  destruct (Hstep (seq 0 (2 * windowSize + 1)) (0, 0)) as (S1 & S2 & S3);
    [simpl; lra|simpl; lra|].
  split; [exact S1|].
  assert (Hin : In windowSize (seq 0 (2 * windowSize + 1))).
  { apply in_seq. lia. }
  specialize (S3 Hin). cbn [snd] in S3. lra.
Qed.

Lemma smoothed_shape (bins : list Q) (binCount windowSize : nat) :
  Forall (fun v => 0 <= v) bins ->
  length (smoothed bins binCount windowSize) = binCount /\
  Forall (fun v => 0 <= v) (smoothed bins binCount windowSize).
Proof.
  intros Hn. unfold smoothed. split; [rewrite length_map; apply length_seq|].
  apply Forall_forall. intros v Hv. apply in_map_iff in Hv.
  destruct Hv as (i & Hv & Hi). apply in_seq in Hi.
  destruct (windowTotals_bounds bins binCount windowSize i Hn) as [H1 H2]; [lia|].
  destruct (windowTotals bins binCount windowSize i) as [sum count].
  simpl in H1, H2. subst v. apply Qle_shift_div_l; lra.
Qed.

Lemma maxOf_spec (values : list Q) (m : Q) :
  maxOf values = Some m -> Forall (fun v => v <= m) values /\ In m values.
Proof.
  revert m. induction values as [|v rest IH]; intros m H; [discriminate|].
  simpl in H. destruct (maxOf rest) as [m'|] eqn:E.
  - destruct (IH m' eq_refl) as [Hall Hin]. inversion H; subst m.
    destruct (mathMax_spec v m') as [[Hlt Em]|[Hle Em]]; rewrite Em.
    + split; [|right; exact Hin]. constructor; [lra|exact Hall].
    + split; [|left; reflexivity]. constructor; [lra|].
      eapply Forall_impl; [|exact Hall]. intros a Ha. simpl in Ha. lra.
  - inversion H; subst m. destruct rest; [|simpl in E; destruct (maxOf rest); discriminate].
    split; [repeat constructor; lra|left; reflexivity].
Qed.

Lemma normalized_shape (values : list Q) :
  Forall (fun v => 0 <= v) values ->
  length (normalized values) = length values /\
  Forall (fun v => 0 <= v <= 1) (normalized values) /\
  (Forall (fun v => v == 0) (normalized values) \/
   Exists (fun v => v == 1) (normalized values)).
Proof.
  intros Hn. unfold normalized. destruct (maxOf values) as [m|] eqn:E.
  - destruct (maxOf_spec values m E) as [Hall Hin].
    assert (Hm : 0 <= m) by (rewrite Forall_forall in Hn; apply Hn; exact Hin).
    cbv zeta. split; [apply length_map|].
    destruct (orElse_Some m 1) as [[Hz Eo]|[Hz Eo]]; rewrite Eo.
    + split.
      * apply Forall_forall. intros v Hv. apply in_map_iff in Hv.
        destruct Hv as (a & Hv & Ha). subst v.
        rewrite Forall_forall in Hn, Hall. specialize (Hn a Ha). specialize (Hall a Ha).
        assert (Ea : a / 1 == a) by (field). rewrite Ea. lra.
      * left. apply Forall_forall. intros v Hv. apply in_map_iff in Hv.
        destruct Hv as (a & Hv & Ha). subst v.
        rewrite Forall_forall in Hn, Hall. specialize (Hn a Ha). specialize (Hall a Ha).
        assert (Ea : a / 1 == a) by (field). rewrite Ea. lra.
    + assert (Hpos : 0 < m).
      { destruct (Qlt_le_dec 0 m) as [H|H]; [exact H|].
        exfalso. apply Hz. lra. }
      split.
      * apply Forall_forall. intros v Hv. apply in_map_iff in Hv.
        destruct Hv as (a & Hv & Ha). subst v.
        rewrite Forall_forall in Hn, Hall. specialize (Hn a Ha). specialize (Hall a Ha).
        split; [apply Qle_shift_div_l; lra|apply Qle_shift_div_r; lra].
      * right. apply Exists_exists. exists (m / m). split.
        -- apply in_map_iff. exists m. auto.
        -- field. lra.
  - destruct values; [|simpl in E; destruct (maxOf values); discriminate].
    split; [reflexivity|]. split; [constructor|left; constructor].
Qed.

Lemma In_combine_seq {A : Type} (l : list A) (start i : nat) (v : A) :
  nth_error l i = Some v -> In ((start + i)%nat, v) (combine (seq start (length l)) l).
Proof.
  revert start i. induction l as [|x l IH]; intros start i H; [destruct i; discriminate|].
  destruct i as [|i]; simpl in H |- *.
  - inversion H; subst. left. f_equal. lia.
  - right. replace (start + S i)%nat with (S start + i)%nat by lia. apply IH. exact H.
Qed.

Lemma points_shape (values : list Q) (binCount : nat) :
  Forall (fun v => 0 <= v <= 1) values ->
  length (points values binCount) = (length values + 2)%nat /\
  Forall (fun p => 20 <= snd p <= 100) (points values binCount) /\
  (length values = binCount -> (2 <= binCount)%nat ->
   Forall (fun p => 0 <= fst p <= 100) (points values binCount)) /\
  (Forall (fun v => v == 0) values ->
   Forall (fun p => snd p == 100) (points values binCount)) /\
  (Exists (fun v => v == 1) values ->
   Exists (fun p => snd p == 20) (points values binCount)).
Proof.
  intros Hv. unfold points.
  set (f := fun iv : nat * Q =>
              let '(i, v) := iv in
              (inject_Z (Z.of_nat i) / (inject_Z (Z.of_nat binCount) - 1) * 100,
               100 - v * 80)).
  assert (Hin : forall p, In p (map f (combine (seq 0 (length values)) values)) ->
            exists i v, (i < length values)%nat /\ In v values /\ p = f (i, v)).
  { intros p Hp. apply in_map_iff in Hp. destruct Hp as ([i v] & Hp & Hiv).
    exists i, v. split; [|split; [|symmetry; exact Hp]].
    - apply in_combine_l in Hiv. apply in_seq in Hiv. lia.
    - apply in_combine_r in Hiv. exact Hiv. }
  split; [|split; [|split; [|split]]].
  - simpl. rewrite length_app, length_map, length_combine, length_seq.
    simpl. lia.
  - constructor; [simpl; lra|]. apply Forall_app. split; [|repeat constructor; simpl; lra].
    apply Forall_forall. intros p Hp. destruct (Hin p Hp) as (i & v & _ & Hvin & ->).
    rewrite Forall_forall in Hv. specialize (Hv v Hvin). simpl. lra.
  - intros Hlen Hbc.
    constructor; [simpl; lra|]. apply Forall_app. split; [|repeat constructor; simpl; lra].
    apply Forall_forall. intros p Hp. destruct (Hin p Hp) as (i & v & Hi & _ & ->).
    simpl fst.
    assert (Hd : 0 < inject_Z (Z.of_nat binCount) - 1).
    { assert (H : inject_Z 2 <= inject_Z (Z.of_nat binCount)) by (rewrite <- Zle_Qle; lia).
      change (inject_Z 2) with 2 in H. lra. }
    assert (Hi0 : 0 <= inject_Z (Z.of_nat i)).
    { change 0 with (inject_Z 0). rewrite <- Zle_Qle. lia. }
    assert (Hi1 : inject_Z (Z.of_nat i) <= inject_Z (Z.of_nat binCount) - 1).
    { assert (H : inject_Z (Z.of_nat i) + inject_Z 1 <= inject_Z (Z.of_nat binCount)).
      { rewrite <- inject_Z_plus, <- Zle_Qle. lia. }
      change (inject_Z 1) with 1 in H. lra. }
    set (a := inject_Z (Z.of_nat i)) in *.
    set (b := inject_Z (Z.of_nat binCount) - 1) in *.
    assert (Hq0 : 0 <= a / b) by (apply Qle_shift_div_l; lra).
    assert (Hq1 : a / b <= 1) by (apply Qle_shift_div_r; lra).
    lra.
  - intros Hz.
    constructor; [simpl; reflexivity|]. apply Forall_app.
    split; [|repeat constructor; simpl; reflexivity].
    apply Forall_forall. intros p Hp. destruct (Hin p Hp) as (i & v & _ & Hvin & ->).
    rewrite Forall_forall in Hz. specialize (Hz v Hvin). simpl. rewrite Hz. ring.
  - intros Hex. apply Exists_exists in Hex. destruct Hex as (v & Hvin & Hv1).
    apply In_nth_error in Hvin. destruct Hvin as (i & Hi).
    apply Exists_exists. exists (f (i, v)). split.
    + right. apply in_or_app. left. apply in_map.
      apply (In_combine_seq values O i v Hi).
    + simpl. rewrite Hv1. ring.
Qed.

(** X16. The density curve.  When the component draws a curve (the
    duration is not zero, and there are bins or events), with bins that
    are not negative: the polyline has one point per bin between its two
    fixed corner points; every point's height [y] lies between 20 and
    100; with two bins or more every [x] lies between 0 and 100; and the
    curve is either flat at 100 (no bin holds anything) or touches 20,
    the smoothed maximum being scaled to 1. *)
Theorem density_curve_stays_in_its_box (danmakuData : option (list DanmakuItem))
    (duration : Q) (propBins : option (list Q)) (pts : list (Q * Q)) :
  (forall b, propBins = Some b -> Forall (fun v => 0 <= v) b) ->
  pathData danmakuData duration propBins = Some pts ->
  let binCount := match propBins with Some b => length b | None => 100%nat end in
  length pts = (binCount + 2)%nat /\
  Forall (fun p => 20 <= snd p <= 100) pts /\
  ((2 <= binCount)%nat -> Forall (fun p => 0 <= fst p <= 100) pts) /\
  (Forall (fun p => snd p == 100) pts \/ Exists (fun p => snd p == 20) pts).
Proof.
  intros Hprop Hpath binCount. unfold pathData in Hpath.
  destruct (Qeq_bool duration 0); [discriminate|]. fold binCount in Hpath.
  assert (Hbins : exists bins windowSize,
            Forall (fun v => 0 <= v) bins /\
            pts = points (normalized (smoothed bins binCount windowSize)) binCount).
  { destruct propBins as [b|].
    - exists b, 2%nat. split; [apply Hprop; reflexivity|].
      inversion Hpath. reflexivity.
    - destruct danmakuData as [[|d data]|]; try discriminate.
      exists (localBins (d :: data) duration binCount), 3%nat.
      split; [apply localBins_shape|]. inversion Hpath. reflexivity. }
  destruct Hbins as (bins & windowSize & Hn & ->).
  destruct (smoothed_shape bins binCount windowSize Hn) as [Hsl Hsn].
  destruct (normalized_shape _ Hsn) as (Hnl & Hnr & Hpeak).
  destruct (points_shape _ binCount Hnr) as (P1 & P2 & P3 & P4 & P5).
  rewrite Hnl, Hsl in P1, P3.
  split; [exact P1|]. split; [exact P2|]. split; [apply P3; reflexivity|].
  destruct Hpeak as [Hflat|Htop]; [left; apply P4; exact Hflat|right; apply P5; exact Htop].
Qed.

End CurveFacts.

Lemma density_curve_stays_in_its_box_witness :
  let pts := match DensityCurve.pathData None 24 (Some [0; 3; 1; 0; 0; 2]) with
             | Some pts => pts
             | None => []
             end in
  length pts = (6 + 2)%nat /\
  Forall (fun p => 20 <= snd p <= 100) pts /\
  ((2 <= 6)%nat -> Forall (fun p => 0 <= fst p <= 100) pts) /\
  (Forall (fun p => snd p == 100) pts \/ Exists (fun p => snd p == 20) pts).
Proof.
  apply (density_curve_stays_in_its_box None 24 (Some [0; 3; 1; 0; 0; 2])).
  - intros b Hb. inversion Hb; subst b.
    repeat constructor; vm_compute; discriminate.
  - vm_compute. reflexivity.
Defined.

(** Six bins with counts 0, 3, 1, 0, 0, 2: the smoothed values are 4/3,
    1, 0.8, 1.2, 0.75 and 2/3, and the heights of the curve follow. *)
Example curve_of_six_bins :
  exists heights,
    option_map (map snd) (DensityCurve.pathData None 24 (Some [0; 3; 1; 0; 0; 2]))
    = Some heights /\
    Forall2 Qeq heights [100; 20; 40; 52; 28; 55; 60; 100].
Proof.
  eexists. split; [vm_compute; reflexivity|].
  repeat constructor; reflexivity.
Qed.

(** ** The keyword panel *)

Lemma In_skipn {A : Type} (n : nat) (l : list A) (x : A) : In x (skipn n l) -> In x l.
Proof.
  intros H. rewrite <- (firstn_skipn n l). apply in_or_app. right. exact H.
Qed.

Section KeywordFacts.

Import KeywordPanel.

Variable toLowerCase : string -> string.
Variable trim : string -> string.

Lemma filter_other_keywords (k : string) (l : list string) :
  ~ In k l -> filter (fun item => negb (String.eqb item k)) (l ++ [k]) = l.
Proof.
  intros Hnot. rewrite filter_app. simpl. rewrite String.eqb_refl. simpl.
  rewrite app_nil_r. apply forallb_filter_id. apply forallb_forall.
  intros x Hx. apply negb_true_iff. apply String.eqb_neq. intros ->. contradiction.
Qed.

Lemma addKeyword_result (fs : FilterSettings) (newKeyword : string) :
  trim newKeyword <> EmptyString ->
  addKeyword trim fs newKeyword
  = (if negb (existsb (String.eqb (trim newKeyword)) (blockedKeywords fs))
     then mkFilterSettings (medalFilterEnabled fs) (minMedalLevel fs)
            (blockedKeywords fs ++ [trim newKeyword])
     else fs,
     EmptyString).
Proof.
  intros H. unfold addKeyword.
  destruct (trim newKeyword) eqn:E; [contradiction|reflexivity].
Qed.

(** X17. Adding a blocked keyword.  When the text typed, trimmed, is not
    empty: the trimmed text is in the list afterwards and the input box
    is cleared; the keywords that were there stay; a list without
    repetitions stays without repetitions; from then on an event whose
    lower-cased content contains the lower-cased keyword passes neither
    the filters nor the chat list; and removing a keyword that was new
    gives the settings back as they were. *)
Theorem added_keyword_hides_matching_events (fs : FilterSettings) (newKeyword : string) :
  trim newKeyword <> EmptyString ->
  let k := trim newKeyword in
  let fs' := fst (addKeyword trim fs newKeyword) in
  In k (blockedKeywords fs') /\
  snd (addKeyword trim fs newKeyword) = EmptyString /\
  (forall k', In k' (blockedKeywords fs) -> In k' (blockedKeywords fs')) /\
  (NoDup (blockedKeywords fs) -> NoDup (blockedKeywords fs')) /\
  (forall d : DanmakuItem, includes (toLowerCase (content d)) (toLowerCase k) = true ->
     passesFilters toLowerCase fs' d = false /\
     forall danmakuData currentTime,
       ~ In d (ChatList.visibleChatList toLowerCase danmakuData currentTime fs')) /\
  (~ In k (blockedKeywords fs) -> removeKeyword fs' k = fs).
Proof.
  intros Hne k fs'.
  assert (Hex : existsb (String.eqb k) (blockedKeywords fs) = true
                <-> In k (blockedKeywords fs)).
  { rewrite existsb_exists. split.
    - intros (x & Hx & E). apply String.eqb_eq in E. subst x. exact Hx.
    - intros H. exists k. split; [exact H|apply String.eqb_refl]. }
  assert (Hfs' : (In k (blockedKeywords fs) /\ fs' = fs) \/
                 (~ In k (blockedKeywords fs) /\
                  fs' = mkFilterSettings (medalFilterEnabled fs) (minMedalLevel fs)
                          (blockedKeywords fs ++ [k]))).
  { unfold fs'. rewrite (addKeyword_result fs newKeyword Hne). fold k.
    destruct (existsb (String.eqb k) (blockedKeywords fs)) eqn:E; simpl.
    - left. split; [apply Hex; reflexivity|reflexivity].
    - right. split; [|reflexivity]. intros H. apply Hex in H. congruence. }
  assert (Hin : In k (blockedKeywords fs')).
  { destruct Hfs' as [[H ->]|[_ ->]]; [exact H|].
    simpl. apply in_or_app. right. left. reflexivity. }
  split; [exact Hin|]. split.
  { rewrite (addKeyword_result fs newKeyword Hne). reflexivity. }
  split.
  { intros k' Hk'. destruct Hfs' as [[_ ->]|[_ ->]]; [exact Hk'|].
    simpl. apply in_or_app. left. exact Hk'. }
  split.
  { intros Hnd. destruct Hfs' as [[_ ->]|[Hnot ->]]; [exact Hnd|].
    simpl. apply NoDup_app; [exact Hnd|repeat constructor; intros []|].
    intros a Ha [Hk|[]]. subst a. contradiction. }
  split.
  - intros d Hd.
    assert (Hp : passesFilters toLowerCase fs' d = false).
    { destruct (passesFilters toLowerCase fs' d) eqn:E; [|reflexivity].
      apply passesFilters_iff in E. destruct E as [_ E].
      rewrite (E k Hin) in Hd. discriminate. }
    split; [exact Hp|].
    intros danmakuData currentTime Hshown.
    assert (Hkeep : In d (filter (ChatList.keep toLowerCase currentTime fs') danmakuData)).
    { unfold ChatList.visibleChatList in Hshown.
      destruct (200 <? length (filter (ChatList.keep toLowerCase currentTime fs')
                                      danmakuData))%nat;
        [apply In_skipn in Hshown; exact Hshown|exact Hshown]. }
    apply filter_In in Hkeep. destruct Hkeep as [_ Hkeep].
    rewrite keep_eq in Hkeep. apply andb_true_iff in Hkeep. destruct Hkeep as [_ Hkeep].
    congruence.
  - intros Hnot. destruct Hfs' as [[H _]|[_ ->]]; [contradiction|].
    unfold removeKeyword. simpl. rewrite filter_other_keywords by exact Hnot.
    destruct fs. reflexivity.
Qed.

End KeywordFacts.

Lemma added_keyword_hides_matching_events_witness :
  let trim := fun s : string => s in
  let fs := mkFilterSettings false 0 ["spam"%string] in
  let k := trim "Ad"%string in
  let fs' := fst (KeywordPanel.addKeyword trim fs "Ad"%string) in
  In k (blockedKeywords fs') /\
  snd (KeywordPanel.addKeyword trim fs "Ad"%string) = EmptyString /\
  (forall k', In k' (blockedKeywords fs) -> In k' (blockedKeywords fs')) /\
  (NoDup (blockedKeywords fs) -> NoDup (blockedKeywords fs')) /\
  (forall d : DanmakuItem, includes (asciiLower (content d)) (asciiLower k) = true ->
     passesFilters asciiLower fs' d = false /\
     forall danmakuData currentTime,
       ~ In d (ChatList.visibleChatList asciiLower danmakuData currentTime fs')) /\
  (~ In k (blockedKeywords fs) -> KeywordPanel.removeKeyword fs' k = fs).
Proof.
  apply (added_keyword_hides_matching_events asciiLower (fun s : string => s)
           (mkFilterSettings false 0 ["spam"%string]) "Ad"%string).
  discriminate.
Defined.

(** With the keyword Ad added, an event that says BAD NEWS is hidden. *)
Example keyword_hides_bad_news :
  let fs' := fst (KeywordPanel.addKeyword (fun s => s)
                    (mkFilterSettings false 0 ["spam"%string]) "Ad"%string) in
  blockedKeywords fs' = ["spam"; "Ad"]%string /\
  ChatList.visibleChatList asciiLower
    [Examples.textItem 1 "hello"; Examples.textItem 2 "BAD NEWS"] 10 fs'
  = [Examples.textItem 1 "hello"].
Proof. split; reflexivity. Qed.

(** ** The sessions of a room *)

Lemma Permutation_filter {A : Type} (p : A -> bool) (l l' : list A) :
  Permutation l l' -> Permutation (filter p l) (filter p l').
Proof.
  induction 1 as [|x l l' H IH|x y l|l l' l'' H1 IH1 H2 IH2]; simpl.
  - constructor.
  - destruct (p x); [constructor|]; exact IH.
  - destruct (p x), (p y); try apply Permutation_refl. constructor.
  - eapply Permutation_trans; eassumption.
Qed.

Lemma sumOf_snoc (l : list Q) (x : Q) : sumOf (l ++ [x]) = sumOf l + x.
Proof. unfold sumOf. rewrite fold_left_app. reflexivity. Qed.

Lemma fold_right_add_snoc (l : list Z) (x : Z) :
  fold_right Z.add 0%Z (l ++ [x]) = (fold_right Z.add 0%Z l + x)%Z.
Proof. induction l as [|y l IH]; simpl; [lia|]. rewrite IH. lia. Qed.

Section SessionFacts.

Import SessionGrouping SessionShape.

Variable coverOf : StreamFile -> option string.
Variable xmlOf : StreamFile -> option string.
Variable scanXmlMetadata : string -> option (Z * Q).

#[local] Abbreviation segmentOf' := (segmentOf coverOf xmlOf scanXmlMetadata).
#[local] Abbreviation groupLoop' := (groupLoop coverOf xmlOf scanXmlMetadata).
#[local] Abbreviation buildSessions' := (buildSessions coverOf xmlOf scanXmlMetadata).

Lemma newSession_consistent (f : StreamFile) :
  consistent (newSession f (segmentOf' f)).
Proof.
  exists (segmentOf' f), [], (segmentOf' f).
  unfold newSession. cbn [segments id s_roomId s_streamerName s_title startTime endTime
                          s_totalDuration totalDanmakuCount].
  rewrite (segmentOf_file coverOf xmlOf scanXmlMetadata f).
  repeat (split; [reflexivity|]).
  split.
  { constructor; [|constructor].
    rewrite (segmentOf_file coverOf xmlOf scanXmlMetadata f). reflexivity. }
  split; [|simpl; lia].
  unfold sumOf. simpl. rational_ops. ring.
Qed.

Lemma extendSession_consistent (s : StreamSession) (f : StreamFile) :
  consistent s -> isNewSession (Some s) f = false ->
  consistent (extendSession s f (segmentOf' f)).
Proof.
  intros (first & rest & last & Hseg & Hlast & Hid & Hroom & Hname & Htitle & Hstart
          & Hend & Hall & Htotal & Hcount) Hnew.
  exists first, (rest ++ [segmentOf' f]), (segmentOf' f).
  unfold extendSession. cbn [segments id s_roomId s_streamerName s_title startTime endTime
                             s_totalDuration totalDanmakuCount].
  split; [rewrite Hseg; reflexivity|].
  split.
  { unfold lastElem. rewrite length_app. simpl length.
    replace (length (segments s) + 1 - 1)%nat with (length (segments s)) by lia.
    rewrite nth_error_app2 by lia. rewrite Nat.sub_diag. reflexivity. }
  repeat (split; [assumption|]).
  split; [rewrite (segmentOf_file coverOf xmlOf scanXmlMetadata f); reflexivity|].
  split.
  { apply Forall_app. split; [exact Hall|]. constructor; [|constructor].
    rewrite (segmentOf_file coverOf xmlOf scanXmlMetadata f).
    unfold isNewSession in Hnew. apply orb_false_iff in Hnew. destruct Hnew as [Ht _].
    apply negb_false_iff in Ht. apply String.eqb_eq in Ht. exact Ht. }
  split.
  - rewrite map_app. simpl map. rewrite sumOf_snoc. rewrite Htotal. reflexivity.
  - rewrite map_app. simpl map. rewrite fold_right_add_snoc. rewrite Hcount. reflexivity.
Qed.

Lemma groupLoop_consistent (files : list StreamFile) :
  forall (sessions : list StreamSession) (current : option StreamSession),
    Forall consistent sessions ->
    (forall s, current = Some s -> consistent s) ->
    Forall consistent (finish (groupLoop' sessions current files)).
Proof.
  induction files as [|f rest IH]; intros sessions current Hs Hc.
  - unfold finish. simpl. destruct current as [s|]; simpl; [|exact Hs].
    apply Forall_app. split; [exact Hs|]. repeat constructor. apply Hc. reflexivity.
  - cbn [SessionGrouping.groupLoop].
    destruct (isNewSession current f) eqn:Hnew.
    + apply IH.
      * destruct current as [s|]; simpl; [|exact Hs].
        apply Forall_app. split; [exact Hs|]. repeat constructor. apply Hc. reflexivity.
      * intros s Hsome. inversion Hsome; subst s. apply newSession_consistent.
    + destruct current as [s|]; [|discriminate].
      apply IH; [exact Hs|].
      intros s' Hsome. inversion Hsome; subst s'.
      apply extendSession_consistent; [apply Hc; reflexivity|exact Hnew].
Qed.

Lemma buildSessions_consistent (files : list StreamFile) :
  Forall consistent (buildSessions' files).
Proof.
  unfold SessionGrouping.buildSessions.
  pose proof (groupLoop_consistent files [] None (Forall_nil _)) as H.
  unfold finish in H.
  destruct (groupLoop' [] None files) as [sessions current]. simpl in H.
  apply H. intros s Hs. discriminate.
Qed.

(** X18. What a session records.  Every session the grouping loop
    builds has at least one segment; its id, room, streamer, title and
    start time are those of its first file; every segment carries the
    session's title; its end time is the timestamp of its last file; its
    total duration is the sum of its segments' durations and its total
    count the sum of their counts. *)
Theorem sessions_record_their_segments (files : list StreamFile) :
  Forall (fun s =>
            exists first rest last,
              segments s = first :: rest /\
              lastElem (segments s) = Some last /\
              id s = (roomId (file first), timestamp (file first)) /\
              s_roomId s = roomId (file first) /\
              s_streamerName s = streamerName (file first) /\
              s_title s = title (file first) /\
              startTime s = timestamp (file first) /\
              endTime s = timestamp (file last) /\
              Forall (fun seg => title (file seg) = s_title s) (segments s) /\
              s_totalDuration s == sumOf (map duration (segments s)) /\
              totalDanmakuCount s = fold_right Z.add 0%Z (map danmakuCount (segments s)))
         (buildSessions' files).
Proof. exact (buildSessions_consistent files). Qed.

Lemma session_file_room (files : list StreamFile) (room : string) (s : StreamSession) :
  In s (buildSessions' (filter (fun f => String.eqb (roomId f) room) files)) ->
  s_roomId s = room.
Proof.
  intros Hin.
  pose proof (buildSessions_consistent (filter (fun f => String.eqb (roomId f) room) files))
    as Hc.
  rewrite Forall_forall in Hc. destruct (Hc s Hin) as (first & rest & last & Hseg & _ & _
                                                        & Hroom & _).
  destruct (buildSessions_index coverOf xmlOf scanXmlMetadata
              (filter (fun f => String.eqb (roomId f) room) files)) as [_ Hfiles].
  assert (Hf : In (file first) (filter (fun f => String.eqb (roomId f) room) files)).
  { rewrite <- Hfiles. unfold sessionFiles. apply in_flat_map.
    exists s. split; [exact Hin|]. rewrite Hseg. left. reflexivity. }
  apply filter_In in Hf. destruct Hf as [_ Hf]. apply String.eqb_eq in Hf.
  rewrite Hroom. exact Hf.
Qed.

(** X19. The sessions listed for a room.  They come newest first; their
    files are exactly the parsed files of that room, each in one session
    and once (a permutation of the room's files); and every session
    listed belongs to the room. *)
Theorem sessions_are_listed_newest_first (parsedFiles : list StreamFile) (room : string) :
  let sessions := streamerSessions coverOf xmlOf scanXmlMetadata parsedFiles room in
  StronglySorted (fun a b => (startTime b <= startTime a)%Z) sessions /\
  Permutation (sessionFiles sessions)
              (filter (fun f => String.eqb (roomId f) room) parsedFiles) /\
  Forall (fun s => s_roomId s = room) sessions.
Proof.
  intros sessions. unfold sessions, streamerSessions.
  set (sorted := sortBy (fun a b => (timestamp a - timestamp b <=? 0)%Z) parsedFiles).
  set (streamerFiles := filter (fun f => String.eqb (roomId f) room) sorted).
  set (newestFirst := fun a b : StreamSession => (startTime b - startTime a <=? 0)%Z).
  assert (Hperm : Permutation (sortBy newestFirst (buildSessions' streamerFiles))
                              (buildSessions' streamerFiles)) by apply sortBy_perm.
  split; [|split].
  - apply (StronglySorted_impl (fun a b => newestFirst a b = true)).
    + intros a b H. unfold newestFirst in H. apply Z.leb_le in H. lia.
    + apply sortBy_sorted.
      * intros a b H. unfold newestFirst in *. apply Z.leb_gt in H. apply Z.leb_le. lia.
      * intros a b c H1 H2. unfold newestFirst in *.
        apply Z.leb_le in H1, H2. apply Z.leb_le. lia.
  - apply (Permutation_trans (l' := sessionFiles (buildSessions' streamerFiles))).
    + unfold sessionFiles. apply Permutation_flat_map. exact Hperm.
    + destruct (buildSessions_index coverOf xmlOf scanXmlMetadata streamerFiles)
        as [_ Hfiles].
      rewrite Hfiles. unfold streamerFiles. apply Permutation_filter.
      unfold sorted. apply sortBy_perm.
  - apply Forall_forall. intros s Hs.
    apply (Permutation_in _ Hperm) in Hs.
    apply (session_file_room sorted room s Hs).
Qed.

(** X20. The total of the list and the total of the player.  For a
    session of the grouping loop whose segments all have a positive
    declared duration, the total duration the player's timeline reports
    is the total duration the session records (the one the session list
    shows), whatever has been measured. *)
Theorem player_total_is_the_session_total (files : list StreamFile) (s : StreamSession)
    (realDurations : nat -> option Q) :
  In s (buildSessions' files) ->
  Forall (fun seg => 0 < duration seg) (segments s) ->
  Timeline.totalDuration (Timeline.timeline (segments s) realDurations)
  == s_totalDuration s.
Proof.
  intros Hin Hpos.
  pose proof (buildSessions_consistent files) as Hc. rewrite Forall_forall in Hc.
  destruct (Hc s Hin) as (first & rest & last & Hseg & _ & _ & _ & _ & _ & _ & _ & _
                          & Htotal & _).
  rewrite Htotal.
  assert (Hlast : exists e, lastElem (Timeline.timeline (segments s) realDurations) = Some e).
  { destruct (lastElem (Timeline.timeline (segments s) realDurations)) as [e|] eqn:E;
      [eauto|].
    unfold lastElem in E. apply nth_error_None in E.
    unfold Timeline.timeline in E. rewrite timelineFrom_length in E.
    rewrite Hseg in E. simpl in E. lia. }
  destruct Hlast as (e & He).
  rewrite (totalDuration_last _ _ He).
  unfold Timeline.timeline in He |- *.
  rewrite (timelineFrom_last realDurations _ _ _ _ He).
  rewrite (timelineFrom_declared realDurations _ _ _ Hpos).
  reflexivity.
Qed.

End SessionFacts.

Lemma player_total_is_the_session_total_witness :
  let files := [Examples.fileAt 0 "t"; Examples.fileAt 1800000 "t"] in
  let built := SessionGrouping.buildSessions (fun _ => None) (fun f => Some (name f))
                 (fun _ => Some (7%Z, 1800)) files in
  let s := nth 0 built (mkStreamSession (EmptyString, 0%Z) EmptyString EmptyString
                          EmptyString 0 0 [] 0 0) in
  Timeline.totalDuration (Timeline.timeline (segments s) Examples.noRealDurations)
  == s_totalDuration s.
Proof.
  apply (player_total_is_the_session_total (fun _ => None) (fun f => Some (name f))
           (fun _ => Some (7%Z, 1800))
           [Examples.fileAt 0 "t"; Examples.fileAt 1800000 "t"]).
  - left. reflexivity.
  - repeat constructor.
Defined.

(** A session with a segment without metadata: the list shows the sum of
    the declared durations, 3300 seconds, and the player, which fills the
    gap from the file timestamps, 5120 seconds. *)
Example totals_differ_without_metadata :
  sumOf (map duration Examples.threeSegments) == 3300 /\
  Timeline.totalDuration (Timeline.timeline Examples.threeSegments Examples.noRealDurations)
  == 5120.
Proof. split; reflexivity. Qed.

(** ** The segment marks of the seek bar *)

(** X21. The marks of the segment boundaries.  When the total duration
    is positive every entry's mark lies on the bar, between 0 and 100
    percent; the first mark is at 0; and the marks do not go back from
    one entry to the next. *)
Theorem segment_marks_lie_on_the_bar (segments : list (StreamSegment Q))
    (realDurations : nat -> option Q) :
  let tl := Timeline.timeline segments realDurations in
  0 < Timeline.totalDuration tl ->
  (forall i e, nth_error tl i = Some e ->
     0 <= Measured.markerLeft (Timeline.totalDuration tl) e <= 100) /\
  (forall e, nth_error tl 0 = Some e ->
     Measured.markerLeft (Timeline.totalDuration tl) e == 0) /\
  (forall i e e', nth_error tl i = Some e -> nth_error tl (S i) = Some e' ->
     Measured.markerLeft (Timeline.totalDuration tl) e
     <= Measured.markerLeft (Timeline.totalDuration tl) e').
Proof.
  intros tl Hpos.
  assert (Hlast : exists last, lastElem tl = Some last).
  { destruct (lastElem tl) as [last|] eqn:E; [eauto|].
    unfold Timeline.totalDuration in Hpos. rewrite E in Hpos. simpl in Hpos. lra. }
  destruct Hlast as (last & Hl).
  pose proof (totalDuration_last _ _ Hl) as Htotal.
  set (total := Timeline.totalDuration tl) in *.
  assert (Hmark : forall a b, a <= b -> a / total * 100 <= b / total * 100).
  { intros a b Hab.
    assert (H : a / total <= b / total).
    { apply Qle_shift_div_l; [exact Hpos|].
      assert (E : a / total * total == a) by (field; lra). rewrite E. exact Hab. }
    lra. }
  assert (Hzero : 0 / total * 100 == 0) by (field; lra).
  assert (Hfull : total / total * 100 == 100) by (field; lra).
  split; [|split].
  - intros i e He. unfold Measured.markerLeft.
    pose proof (timelineFrom_start_ge realDurations _ _ _ _ _ He) as H0.
    destruct (timelineFrom_end_eq realDurations _ _ _ _ _ He) as [Hend Hnn].
    pose proof (timelineFrom_end_le_last realDurations _ _ _ _ _ _ He Hl) as Hle.
    rational_ops. rewrite Hend in Hle.
    split.
    + apply (Qle_trans _ (0 / total * 100)); [rewrite Hzero; apply Qle_refl|].
      apply Hmark. exact H0.
    + apply (Qle_trans _ (total / total * 100)); [|rewrite Hfull; apply Qle_refl].
      apply Hmark. lra.
  - intros e He. unfold Measured.markerLeft.
    rewrite (timelineFrom_head realDurations _ _ _ _ He). rational_ops. exact Hzero.
  - intros i e e' He He'. unfold Measured.markerLeft. apply Hmark.
    destruct (timelineFrom_end_eq realDurations _ _ _ _ _ He) as [Hend Hnn].
    rewrite <- (timelineFrom_contiguous realDurations _ _ _ _ _ _ He He').
    rewrite Hend. lra.
Qed.

Lemma segment_marks_lie_on_the_bar_witness :
  let tl := Timeline.timeline Examples.threeSegments Examples.noRealDurations in
  (forall i e, nth_error tl i = Some e ->
     0 <= Measured.markerLeft (Timeline.totalDuration tl) e <= 100) /\
  (forall e, nth_error tl 0 = Some e ->
     Measured.markerLeft (Timeline.totalDuration tl) e == 0) /\
  (forall i e e', nth_error tl i = Some e -> nth_error tl (S i) = Some e' ->
     Measured.markerLeft (Timeline.totalDuration tl) e
     <= Measured.markerLeft (Timeline.totalDuration tl) e').
Proof.
  apply (segment_marks_lie_on_the_bar Examples.threeSegments Examples.noRealDurations).
  vm_compute. reflexivity.
Defined.

(** ** The lane an event gets, and the order of simultaneous records *)

Section LanePolicy.

Import LogDecoder VisibilityWindow.

Lemma firstFit_first (free : list Q) (tm : Q) (n : nat) :
  forall t k : nat,
    firstFit free tm t n = Z.of_nat k ->
    exists f, (t <= k < t + n)%nat /\ nth_error free k = Some f /\ f <= tm /\
      forall j g, (t <= j < k)%nat -> nth_error free j = Some g -> tm < g.
Proof.
  induction n as [|n IH]; intros t k H; cbn [firstFit] in H; [lia|].
  destruct (nth_error free t) as [f|] eqn:Ef.
  - destruct (leb f tm) eqn:Hle.
    + apply Nat2Z.inj in H. subst k. exists f. apply leb_le in Hle.
      split; [lia|]. split; [exact Ef|]. split; [exact Hle|]. intros; lia.
    + apply leb_gt in Hle. destruct (IH (S t) k H) as (f' & Hk & Hn & Hf & Hbusy).
      exists f'. split; [lia|]. split; [exact Hn|]. split; [exact Hf|].
      intros j g Hj Hg. destruct (Nat.eq_dec j t) as [->|Hne].
      * rewrite Ef in Hg. inversion Hg; subst g. exact Hle.
      * apply (Hbusy j g); [lia|exact Hg].
  - destruct (IH (S t) k H) as (f' & Hk & Hn & Hf & Hbusy).
    exists f'. split; [lia|]. split; [exact Hn|]. split; [exact Hf|].
    intros j g Hj Hg. destruct (Nat.eq_dec j t) as [->|Hne]; [congruence|].
    apply (Hbusy j g); [lia|exact Hg].
Qed.

Lemma leastBusy_least (free : list Q) (n : nat) :
  forall (t : nat) (m : Q) (b : nat),
    nth_error free b = Some m -> (b < t)%nat -> (t + n <= length free)%nat ->
    (forall j g, (j < t)%nat -> nth_error free j = Some g -> m <= g) ->
    (forall j g, (j < b)%nat -> nth_error free j = Some g -> m < g) ->
    exists k f,
      leastBusy free t n (Some m) (Z.of_nat b) = Z.of_nat k /\ (k < t + n)%nat /\
      nth_error free k = Some f /\
      (forall j g, (j < t + n)%nat -> nth_error free j = Some g -> f <= g) /\
      (forall j g, (j < k)%nat -> nth_error free j = Some g -> f < g).
Proof.
  induction n as [|n IH]; intros t m b Hb Hbt Hlen Hmin Hfirst.
  - exists b, m. cbn [leastBusy]. split; [reflexivity|]. split; [lia|].
    split; [exact Hb|]. split; [|exact Hfirst].
    intros j g Hj. apply Hmin. lia.
  - cbn [leastBusy].
    destruct (nth_error free t) as [ft|] eqn:Et;
      [|apply nth_error_None in Et; lia].
    destruct (ltb ft m) eqn:Hlt.
    + apply ltb_lt in Hlt.
      destruct (IH (S t) ft t Et ltac:(lia) ltac:(lia)) as (k & f & H1 & H2 & H3 & H4 & H5).
      * intros j g Hj Hg. destruct (Nat.eq_dec j t) as [->|Hne].
        -- rewrite Et in Hg. inversion Hg; subst g. apply Qle_refl.
        -- specialize (Hmin j g ltac:(lia) Hg). lra.
      * intros j g Hj Hg. specialize (Hmin j g Hj Hg). lra.
      * exists k, f. split; [exact H1|]. split; [lia|]. split; [exact H3|].
        split; [|exact H5]. intros j g Hj. apply H4. lia.
    + apply ltb_ge in Hlt.
      destruct (IH (S t) m b Hb ltac:(lia) ltac:(lia)) as (k & f & H1 & H2 & H3 & H4 & H5).
      * intros j g Hj Hg. destruct (Nat.eq_dec j t) as [->|Hne].
        -- rewrite Et in Hg. inversion Hg; subst g. exact Hlt.
        -- apply (Hmin j g); [lia|exact Hg].
      * exact Hfirst.
      * exists k, f. split; [exact H1|]. split; [lia|]. split; [exact H3|].
        split; [|exact H5]. intros j g Hj. apply H4. lia.
Qed.

(** X22. The lane an event gets.  With the 16 lanes' free times [free]:
    when a lane is free at the event's time, the event gets the free lane
    with the lowest number; when none is, it gets the lane that becomes
    free first, the lowest-numbered one among equals. *)
Theorem lane_is_first_free_else_first_to_free (free : list Q) (item : DanmakuItem) :
  length free = 16%nat ->
  exists k f,
    (k < 16)%nat /\ chooseTrack free item = Z.of_nat k /\ nth_error free k = Some f /\
    ((f <= time item /\
      forall j g, (j < k)%nat -> nth_error free j = Some g -> time item < g) \/
     ((forall j g, nth_error free j = Some g -> time item < g) /\
      (forall j g, nth_error free j = Some g -> f <= g) /\
      (forall j g, (j < k)%nat -> nth_error free j = Some g -> f < g))).
Proof.
  intros Hlen. unfold chooseTrack.
  destruct (firstFit_cases free (time item) TOTAL_TRACKS 0)
    as [[Hnone Hbusy]|(k & f & Hk & Hr & Hn & Hf)].
  - rewrite Hnone. change ((-1 =? -1)%Z) with true. cbv iota.
    destruct free as [|f0 rest]; [discriminate|].
    change TOTAL_TRACKS with (S 15).
    rewrite (leastBusy_first (f0 :: rest) 15 0 f0 (-1)%Z eq_refl).
    destruct (leastBusy_least (f0 :: rest) 15 1 f0 0 eq_refl ltac:(lia) ltac:(rewrite Hlen; lia))
      as (k & f & H1 & H2 & H3 & H4 & H5).
    + intros j g Hj Hg. assert (j = O) by lia. subst j.
      simpl in Hg. inversion Hg. apply Qle_refl.
    + intros j g Hj. lia.
    + rewrite H1.
      assert (Hneq : (Z.of_nat k =? -1)%Z = false) by (apply Z.eqb_neq; lia).
      rewrite Hneq. exists k, f. split; [lia|]. split; [reflexivity|].
      split; [exact H3|]. right.
      assert (Hin : forall j g, nth_error (f0 :: rest) j = Some g -> (j < 16)%nat).
      { intros j g Hg. rewrite <- Hlen. apply nth_error_Some. congruence. }
      split; [|split; [|exact H5]].
      * intros j g Hg. apply (Hbusy j g); [|exact Hg].
        specialize (Hin j g Hg). unfold TOTAL_TRACKS. lia.
      * intros j g Hg. apply (H4 j g); [|exact Hg]. specialize (Hin j g Hg). lia.
  - rewrite Hk.
    assert (Hneq : (Z.of_nat k =? -1)%Z = false) by (apply Z.eqb_neq; lia).
    rewrite Hneq. cbv iota. rewrite Hneq.
    destruct (firstFit_first free (time item) TOTAL_TRACKS 0 k Hk)
      as (f' & Hk' & Hn' & Hf' & Hfirst).
    exists k, f'. split; [unfold TOTAL_TRACKS in Hk'; lia|]. split; [reflexivity|].
    split; [exact Hn'|]. left. split; [exact Hf'|].
    intros j g Hj Hg. apply (Hfirst j g); [lia|exact Hg].
Qed.




Section Ties.

Variable parseFloat : string -> number.
Variable parseInt : string -> Z.
Variable decodeRaw : option string -> option string -> RawMeta.


End Ties.

End LanePolicy.


Lemma lane_is_first_free_else_first_to_free_witness :
  let free := [3; 3; 0; 3; 0; 0; 0; 0; 0; 0; 0; 0; 0; 0; 0; 0] in
  let item := Examples.textItem 1 "a" in
  exists k f,
    (k < 16)%nat /\ LogDecoder.chooseTrack free item = Z.of_nat k /\
    nth_error free k = Some f /\
    ((f <= time item /\
      forall j g, (j < k)%nat -> nth_error free j = Some g -> time item < g) \/
     ((forall j g, nth_error free j = Some g -> time item < g) /\
      (forall j g, nth_error free j = Some g -> f <= g) /\
      (forall j g, (j < k)%nat -> nth_error free j = Some g -> f < g))).
Proof.
  apply (lane_is_first_free_else_first_to_free
           [3; 3; 0; 3; 0; 0; 0; 0; 0; 0; 0; 0; 0; 0; 0; 0] (Examples.textItem 1 "a")).
  reflexivity.
Defined.

(** Lanes 0, 1 and 3 held until 3: an event at 1 gets lane 2; and with
    every lane held, lanes 0 to 15 until 9, 8, 7, 7, 9, ..., 9, it gets
    lane 2, the first of the two that free first. *)
Example lanes_chosen :
  LogDecoder.chooseTrack [3; 3; 0; 3; 0; 0; 0; 0; 0; 0; 0; 0; 0; 0; 0; 0]
    (Examples.textItem 1 "a") = 2%Z /\
  LogDecoder.chooseTrack [9; 8; 7; 7; 9; 9; 9; 9; 9; 9; 9; 9; 9; 9; 9; 9]
    (Examples.textItem 1 "a") = 2%Z.
Proof. split; vm_compute; reflexivity. Qed.

(** ** The chat list on a sorted log *)


Section ChatOrder.

Import VisibilityWindow.

Variable toLowerCase : string -> string.


End ChatOrder.


(** ** What the scan captures *)

Section GroupFacts.

Import TextScan.

Lemma timeChars_run (s : string) :
  forall run after, timeChars s = (run, after) ->
    s = (run ++ after)%string /\
    (forall c rest, run = String c rest -> isTimeChar c = true) /\
    Forall (fun c => isTimeChar c = true) (list_ascii_of_string run).
Proof.
  induction s as [|c s IH]; intros run after H; simpl in H.
  - inversion H; subst. split; [reflexivity|]. split; [intros; discriminate|constructor].
  - destruct (isTimeChar c) eqn:Ec.
    + destruct (timeChars s) as [run' after'] eqn:E. inversion H; subst.
      destruct (IH run' after eq_refl) as (H1 & H2 & H3).
      split; [simpl; f_equal; exact H1|]. split.
      * intros c' rest' Hr. inversion Hr; subst. exact Ec.
      * simpl. constructor; assumption.
    + inversion H; subst. split; [reflexivity|]. split; [intros; discriminate|constructor].
Qed.

Lemma matchAt_group (s group : string) :
  matchAt s = Some group ->
  group <> EmptyString /\
  Forall (fun c => isTimeChar c = true) (list_ascii_of_string group).
Proof.
  unfold matchAt. destruct (startsWith s opening); [|discriminate].
  destruct (timeChars (dropChars 4 s)) as [run after] eqn:E.
  destruct (timeChars_run _ _ _ E) as (_ & _ & Hall).
  destruct run as [|c run]; [discriminate|].
  destruct after as [|a after]; [discriminate|].
  destruct (Ascii.eqb a ","); [|discriminate].
  intros H. inversion H; subst. split; [discriminate|exact Hall].
Qed.

Lemma execFrom_groups (text : string) :
  forall skip group, In group (execFrom skip text) ->
    group <> EmptyString /\
    Forall (fun c => isTimeChar c = true) (list_ascii_of_string group).
Proof.
  induction text as [|c rest IH]; intros skip group Hin; [destruct Hin|].
  cbn [execFrom] in Hin. destruct skip as [|k]; [|apply (IH k); exact Hin].
  destruct (matchAt (String c rest)) as [g|] eqn:Em; [|apply (IH O); exact Hin].
  destruct Hin as [Hg|Hin]; [subst g; apply (matchAt_group _ _ Em)|].
  apply (IH _ _ Hin).
Qed.

Lemma leadingDigits_range (s : string) :
  Forall (fun d => (0 <= d <= 9)%Z) (fst (leadingDigits s)).
Proof.
  induction s as [|c s IH]; [constructor|].
  cbn [leadingDigits]. cbv zeta.
  destruct ((48 <=? nat_of_ascii c)%nat && (nat_of_ascii c <=? 57)%nat) eqn:E;
    [|constructor].
  destruct (leadingDigits s) as [ds after]. cbn [fst] in *.
  apply andb_true_iff in E. destruct E as [E1 E2].
  apply Nat.leb_le in E1, E2. constructor; [lia|exact IH].
Qed.

Lemma fromDigits_nonneg (ds : list Z) :
  Forall (fun d => (0 <= d <= 9)%Z) ds -> (0 <= fromDigits ds)%Z.
Proof.
  unfold fromDigits. intros H.
  assert (G : forall acc, (0 <= acc)%Z ->
            (0 <= fold_left (fun acc d => 10 * acc + d) ds acc)%Z).
  { induction H as [|d ds Hd Hds IH]; intros acc Hacc; cbn [fold_left];
      [exact Hacc|].
    apply IH. lia. }
  apply G. lia.
Qed.

Lemma parseFloat_nonneg (s : string) (t : Q) : parseFloat s = Some t -> 0 <= t.
Proof.
  unfold parseFloat.
  pose proof (leadingDigits_range s) as Hw.
  destruct (leadingDigits s) as [whole after]. simpl in Hw.
  set (fraction := match after with
                   | String c rest => if Ascii.eqb c "." then fst (leadingDigits rest) else []
                   | EmptyString => []
                   end).
  assert (Hf : Forall (fun d => (0 <= d <= 9)%Z) fraction).
  { unfold fraction. destruct after as [|c rest]; [constructor|].
    destruct (Ascii.eqb c "."); [apply leadingDigits_range|constructor]. }
  assert (Hval : 0 <= inject_Z (fromDigits whole)
                      + inject_Z (fromDigits fraction)
                        / inject_Z (10 ^ Z.of_nat (length fraction))).
  { pose proof (fromDigits_nonneg whole Hw) as H1.
    pose proof (fromDigits_nonneg fraction Hf) as H2.
    assert (Hp : 0 < inject_Z (10 ^ Z.of_nat (length fraction))).
    { change 0 with (inject_Z 0). rewrite <- Zlt_Qlt. apply Z.pow_pos_nonneg; lia. }
    assert (Q1 : 0 <= inject_Z (fromDigits whole)).
    { change 0 with (inject_Z 0). rewrite <- Zle_Qle. exact H1. }
    assert (Q2 : 0 <= inject_Z (fromDigits fraction)).
    { change 0 with (inject_Z 0). rewrite <- Zle_Qle. exact H2. }
    assert (Q3 : 0 <= inject_Z (fromDigits fraction)
                      / inject_Z (10 ^ Z.of_nat (length fraction))).
    { apply Qle_shift_div_l; [exact Hp|]. lra. }
    lra. }
  destruct whole as [|w ws]; [destruct fraction as [|f fs]|];
    intros H; inversion H; subst t; exact Hval.
Qed.

(** X25. What the scan captures.  Every group the pattern captures in a
    text is a string of digits and dots that is not empty; the number
    [parseFloat] reads from it, when it reads one, is not negative; so
    no time the metadata scan or the density scan reads from a log is
    negative. *)
Theorem scanned_times_are_not_negative (text : string) :
  Forall (fun group =>
            group <> EmptyString /\
            Forall (fun c => isTimeChar c = true) (list_ascii_of_string group) /\
            forall t, parseFloat group = Some t -> 0 <= t)
         (execAll text) /\
  Forall (fun t => 0 <= t) (parsedTimes (execAll text)).
Proof.
  split.
  - apply Forall_forall. intros group Hin.
    destruct (execFrom_groups text O group Hin) as [H1 H2].
    split; [exact H1|]. split; [exact H2|]. apply parseFloat_nonneg.
  - apply Forall_forall. intros t Ht. unfold parsedTimes in Ht.
    apply in_flat_map in Ht. destruct Ht as (group & _ & Ht).
    destruct (parseFloat group) as [t'|] eqn:E; [|destruct Ht].
    destruct Ht as [Ht|[]]. subst t'. apply (parseFloat_nonneg group t E).
Qed.

End GroupFacts.
